(** * One-Word Story: peer client (main.py) and projector server (server.py)

    A shallow embedding of the two Python programs and the properties of
    their handshake, peer table, turn custody and pass policy.

    Conventions of the embedding.
    - A Python [str] is a [string]; each character is a code point below 256.
    - A timestamp ([time.time()], a float) is a rational number [Q].
    - A Python [dict] is an association list in insertion order ([dict K V]).
    - Every source of input (the clock, [random], the network, the keyboard)
      is an explicit argument of the function that reads it.
    - A view of the server runs on its own: interleavings of threads
      between two [with lock:] blocks of a view are not modelled, and the
      statements about the views are about one request, or about requests
      handled one after the other. The subscriber queues (module [Sse])
      are modelled one locked step at a time. *)

From Stdlib Require Import List String Ascii Bool Arith ZArith NArith QArith Lia Lqa.
From Stdlib Require Import DecimalString.
Import ListNotations.

Set Implicit Arguments.

Open Scope string_scope.

(** ** Python strings *)

Module PyStr.

(** Characters [str.strip()] removes: the code points below 256 for
    which [str.isspace()] holds (TAB..CR, FS..US, space, NEL, NBSP). *)
Definition is_space (c : ascii) : bool :=
  let n := N_of_ascii c in
  (((9 <=? n) && (n <=? 13)) || ((28 <=? n) && (n <=? 32))
   || (n =? 133) || (n =? 160))%N.

Fixpoint lstrip (s : string) : string :=
  match s with
  | EmptyString => EmptyString
  | String c r => if is_space c then lstrip r else s
  end.

Fixpoint rstrip (s : string) : string :=
  match s with
  | EmptyString => EmptyString
  | String c r =>
      match rstrip r with
      | EmptyString => if is_space c then EmptyString else String c EmptyString
      | r' => String c r'
      end
  end.

(** [s.strip()] *)
Definition strip (s : string) : string := rstrip (lstrip s).

(** [str.lower()] on one code point below 256: A..Z and the Latin-1
    capitals (0xC0..0xDE but the multiplication sign 0xD7) move by 32. *)
Definition lower_char (c : ascii) : ascii :=
  let n := N_of_ascii c in
  if (((65 <=? n) && (n <=? 90))
      || ((192 <=? n) && (n <=? 222) && negb (n =? 215)))%N
  then ascii_of_N (n + 32) else c.

(** [s.lower()] *)
Fixpoint lower (s : string) : string :=
  match s with
  | EmptyString => EmptyString
  | String c r => String (lower_char c) (lower r)
  end.

(** [s.endswith(suffix)] *)
Definition endswith (s suffix : string) : bool :=
  let n := String.length s in
  let k := String.length suffix in
  (k <=? n)%nat && (substring (n - k) k s =? suffix).

(** A string of whitespace only (the empty string included): the
    strings [strip] empties. *)
Fixpoint blank (s : string) : bool :=
  match s with
  | EmptyString => true
  | String c r => is_space c && blank r
  end.

(** A string that is empty or starts with a character that is not
    whitespace. *)
Definition starts_clean (s : string) : bool :=
  match s with
  | EmptyString => true
  | String c _ => negb (is_space c)
  end.

(** Truth value of a string: [if s:] holds for a non-empty string. *)
Definition truthy (s : string) : bool :=
  match s with EmptyString => false | _ => true end.

End PyStr.

(** ** Python values that travel in a [value] position *)

(** The scalars a JSON document can put under a key (floats, arrays and
    objects in this position are outside the model). *)
Inductive pyval :=
| PyNone
| PyBool (b : bool)
| PyInt (z : Z)
| PyStr (s : string).

(** [str(v)] *)
Definition py_str (v : pyval) : string :=
  match v with
  | PyNone => "None"
  | PyBool true => "True"
  | PyBool false => "False"
  | PyInt z => NilZero.string_of_int (Z.to_int z)
  | PyStr s => s
  end.

(** main.py:35  [def norm(s): return str(s).strip().lower()] *)
Definition norm (s : pyval) : string :=
  PyStr.lower (PyStr.strip (py_str s)).

(** ** Python dictionaries *)

(** Keys of the dictionaries of the two programs: strings, and [None]
    beside strings where a key comes from [d.get(...)]. *)
Class Hashable (K : Type) := {
  key_eqb : K -> K -> bool;
  key_eqb_eq : forall a b, key_eqb a b = true <-> a = b
}.

#[export] Instance string_Hashable : Hashable string :=
  {| key_eqb := String.eqb; key_eqb_eq := String.eqb_eq |}.

Definition option_string_eqb (a b : option string) : bool :=
  match a, b with
  | None, None => true
  | Some x, Some y => String.eqb x y
  | _, _ => false
  end.

#[export, refine] Instance option_string_Hashable : Hashable (option string) :=
  {| key_eqb := option_string_eqb |}.
Proof.
  intros [x|] [y|]; simpl; split; intro H; try discriminate; try reflexivity.
  - apply String.eqb_eq in H. now subst.
  - injection H as ->. apply String.eqb_refl.
Defined.

Section Dict.
Context {K V : Type} `{Hashable K}.

(** A [dict]: the items in insertion order, keys pairwise distinct. *)
Definition dict := list (K * V).

(** [d.get(k)] ([None] when the key is absent) *)
Fixpoint dict_get (k : K) (d : dict) : option V :=
  match d with
  | [] => None
  | (k', v) :: r => if key_eqb k' k then Some v else dict_get k r
  end.

(** [k in d] *)
Definition dict_mem (k : K) (d : dict) : bool :=
  match dict_get k d with Some _ => true | None => false end.

(** [d[k] = v]: an existing key keeps its place, a new one goes last. *)
Fixpoint dict_set (k : K) (v : V) (d : dict) : dict :=
  match d with
  | [] => [(k, v)]
  | (k', v') :: r =>
      if key_eqb k' k then (k', v) :: r else (k', v') :: dict_set k v r
  end.

(** [del d[k]] *)
Fixpoint dict_del (k : K) (d : dict) : dict :=
  match d with
  | [] => []
  | (k', v') :: r => if key_eqb k' k then r else (k', v') :: dict_del k r
  end.

(** [list(d.keys())], [list(d.values())] *)
Definition dict_keys (d : dict) : list K := map fst d.
Definition dict_values (d : dict) : list V := map snd d.

(** The keys of a dictionary are pairwise distinct. *)
Definition dict_wf (d : dict) : Prop := NoDup (dict_keys d).
End Dict.

Arguments dict : clear implicits.

(** [random.choice(seq)]: [seq[randbelow(len(seq))]], the draw being the
    argument [r]; [None] stands for the [IndexError] on an empty list. *)
Definition random_choice {A : Type} (r : nat) (seq : list A) : option A :=
  match seq with
  | [] => None
  | _ => nth_error seq (r mod List.length seq)
  end.

(** [data.get(key)] followed by [if not x:]: a string that is missing,
    [null] or empty counts as absent. *)
Definition present (o : option string) : option string :=
  match o with
  | Some s => if PyStr.truthy s then Some s else None
  | None => None
  end.

(** ** Data shared by the client and the server *)

(** A profile attribute: [where_from] and [name] are strings, [hobbies],
    [pets] and [classes] lists of strings (main.py:354-360). *)
Inductive attr :=
| AStr (s : string)
| AList (l : list string).

Definition Profile := dict string attr.

(** The game state dictionary (server.py:26-32, main.py:52) at its five
    keys. [holder_id] is [None] or a participant id. *)
Record GameState := {
  game_id : string;
  seq : Z;
  sentence : string;
  holder_id : option string;
  completed : bool
}.

(** A [game_state] JSON object as a request carries it: any of the five
    keys may be missing, and [holder_id] may be [null]. *)
Record GameStateDoc := {
  doc_game_id : option string;
  doc_seq : option Z;
  doc_sentence : option string;
  doc_holder_id : option (option string);
  doc_completed : option bool
}.

(** [not gs] for a JSON object: it has no key. *)
Definition doc_is_empty (gs : GameStateDoc) : bool :=
  match doc_game_id gs, doc_seq gs, doc_sentence gs,
        doc_holder_id gs, doc_completed gs with
  | None, None, None, None, None => true
  | _, _, _, _, _ => false
  end.

(** [gs.get("holder_id")] *)
Definition doc_get_holder_id (gs : GameStateDoc) : option string :=
  match doc_holder_id gs with
  | Some h => h
  | None => None
  end.

(** [game_state.update(gs)]: the keys of [gs] overwrite, the others stay. *)
Definition dict_update (game_state : GameState) (gs : GameStateDoc) : GameState :=
  {| game_id := match doc_game_id gs with Some x => x | None => game_id game_state end;
     seq := match doc_seq gs with Some x => x | None => seq game_state end;
     sentence := match doc_sentence gs with Some x => x | None => sentence game_state end;
     holder_id := match doc_holder_id gs with Some x => x | None => holder_id game_state end;
     completed := match doc_completed gs with Some x => x | None => completed game_state end |}.

(** The JSON object of a full game state. *)
Definition doc_of (g : GameState) : GameStateDoc :=
  {| doc_game_id := Some (game_id g);
     doc_seq := Some (seq g);
     doc_sentence := Some (sentence g);
     doc_holder_id := Some (holder_id g);
     doc_completed := Some (completed g) |}.

(** ** server.py: the projector server *)

Module Server.

(** server.py:40 *)
Definition ACTIVE_TIMEOUT : Q := 90.

(** A value of [participants]: [{"id","name","profile","last_seen"}]. *)
Record Participant := {
  p_id : string;
  p_name : string;
  p_profile : Profile;
  p_last_seen : Q
}.

(** The module-level state: [participants], [game_state], and the
    snapshots [broadcast_state] has put on the subscribers' queues. *)
Record State := {
  participants : dict string Participant;
  game_state : GameState;
  broadcasts : list GameState
}.

(** JSON bodies of the responses. *)
Inductive Json :=
| JOk                                   (* {"ok": True} *)
| JOkNewHolder (new_holder : string)    (* {"ok": True, "new_holder": ...} *)
| JOkRemoved (removed : list string)    (* {"ok": True, "removed": [...]} *)
| JError (error : string)               (* {"ok": False, "error": ...} *)
| JArray (first : Json) (second : Z)    (* [first, second] *)
| JInternalError.                       (* page of an uncaught exception *)

Record Response := { status : Z; body : Json }.

(** [jsonify(obj)]: the object as body, status 200. *)
Definition jsonify (obj : Json) : Response :=
  {| status := 200; body := obj |}.

(** [jsonify(obj, n)]: Flask serialises several positional arguments as
    one JSON array; the status stays 200. *)
Definition jsonify2 (obj : Json) (n : Z) : Response :=
  {| status := 200; body := JArray obj n |}.

(** [return response, code]: a view returning a pair sets the status. *)
Definition with_status (r : Response) (code : Z) : Response :=
  {| status := code; body := body r |}.

(** Flask's answer when the view raises. *)
Definition internal_error : Response :=
  {| status := 500; body := JInternalError |}.

Definition set_participants (ps : dict string Participant) (s : State) : State :=
  {| participants := ps; game_state := game_state s; broadcasts := broadcasts s |}.

Definition set_game_state (g : GameState) (s : State) : State :=
  {| participants := participants s; game_state := g; broadcasts := broadcasts s |}.

(** server.py:94  [broadcast_state]: a copy of [game_state] goes to
    every subscriber queue. The copy is the game state the view has
    just written: the view runs on its own. *)
Definition broadcast_state (s : State) : State :=
  {| participants := participants s;
     game_state := game_state s;
     broadcasts := (broadcasts s ++ [game_state s])%list |}.

(** Request bodies ([request.get_json]) at the keys the views read. *)
Record RegisterReq := {
  reg_id : option string;
  reg_name : option string;
  reg_profile : option Profile
}.

Record UpdateGameReq := {
  ug_id : option string;
  ug_game_state : option GameStateDoc
}.

Record PassReq := {
  pass_id : option string;
  pass_target_id : option string
}.

(** server.py:138  [register] *)
Definition register (now : Q) (data : RegisterReq) (s : State) : State * Response :=
  match present (reg_id data) with
  | None => (s, with_status (jsonify (JError "id required")) 400)
  | Some pid =>
      let name := match present (reg_name data) with
                  | Some n => n
                  | None => "user-" ++ substring 0 8 pid
                  end in
      let profile := match reg_profile data with Some p => p | None => [] end in
      let s1 := set_participants
                  (dict_set pid {| p_id := pid; p_name := name;
                                   p_profile := profile; p_last_seen := now |}
                            (participants s)) s in
      (broadcast_state s1, jsonify JOk)
  end.

(** server.py:151  [heartbeat] *)
Definition heartbeat (now : Q) (id : option string) (s : State) : State * Response :=
  match present id with
  | None => (s, with_status (jsonify (JError "id required")) 400)
  | Some pid =>
      match dict_get pid (participants s) with
      | Some p =>
          (set_participants
             (dict_set pid {| p_id := p_id p; p_name := p_name p;
                              p_profile := p_profile p; p_last_seen := now |}
                       (participants s)) s,
           jsonify JOk)
      | None => (s, with_status (jsonify (JError "unknown id")) 404)
      end
  end.

(** [a != b] on [None]-or-string values. *)
Definition differs (a b : option string) : bool := negb (key_eqb a b).

(** server.py:164  [update_game] *)
Definition update_game (data : UpdateGameReq) (s : State) : State * Response :=
  match present (ug_id data), ug_game_state data with
  | Some pid, Some gs =>
      if doc_is_empty gs
      then (s, with_status (jsonify (JError "id and game_state required")) 400)
      else if differs (doc_get_holder_id gs) (Some pid)
      then (s, jsonify2 (JError "sender must be the holder") 403)
      else
        let s1 := set_game_state (dict_update (game_state s) gs) s in
        (broadcast_state s1, jsonify JOk)
  | _, _ => (s, with_status (jsonify (JError "id and game_state required")) 400)
  end.

(** server.py:195  [[p for p in participants.values() if p["id"] != pid]] *)
Definition other_parts (pid : string) (s : State) : list Participant :=
  filter (fun p => negb (p_id p =? pid)) (dict_values (participants s)).

(** [(now - p.get("last_seen",0)) <= ACTIVE_TIMEOUT] *)
Definition is_active (now : Q) (p : Participant) : bool :=
  Qle_bool (now - p_last_seen p) ACTIVE_TIMEOUT.

(** server.py:200 *)
Definition active (now : Q) (pid : string) (s : State) : list Participant :=
  filter (is_active now) (other_parts pid s).

(** server.py:212  [pool = active if active else other_parts] *)
Definition pool (now : Q) (pid : string) (s : State) : list Participant :=
  match active now pid s with
  | [] => other_parts pid s
  | _ :: _ => active now pid s
  end.

(** server.py:218-223: the new holder is written, [seq] goes up by
    one, the state is broadcast and the chosen id returned. *)
Definition hand_over (chosen : string) (s : State) : State * Response :=
  let g := game_state s in
  let s1 := set_game_state
              {| game_id := game_id g; seq := seq g + 1; sentence := sentence g;
                 holder_id := Some chosen; completed := completed g |} s in
  (broadcast_state s1, jsonify (JOkNewHolder chosen)).

(** server.py:181  [do_pass]; [now] is the reading of [now_ts()] and
    [r] the draw of [random.choice]. *)
Definition do_pass (now : Q) (r : nat) (data : PassReq) (s : State) : State * Response :=
  match present (pass_id data) with
  | None => (s, with_status (jsonify (JError "id required")) 400)
  | Some pid =>
      match other_parts pid s with
      | [] => (s, jsonify2 (JError "no other participants registered") 400)
      | _ :: _ =>
          match present (pass_target_id data) with
          | Some target =>
              if dict_mem target (participants s) && negb (target =? pid)
              then hand_over target s
              else (s, with_status
                         (jsonify (JError "requested target invalid or not found")) 400)
          | None =>
              match random_choice r (pool now pid s) with
              | Some p => hand_over (p_id p) s
              | None => (s, internal_error)
              end
          end
      end
  end.

(** server.py:226  [prune_stale]; [cutoff] is the query argument,
    300 seconds when it is not given. *)
Definition stale (now cutoff : Q) (p : Participant) : bool :=
  negb (Qle_bool (now - p_last_seen p) cutoff).

Fixpoint prune_loop (now cutoff : Q) (keys : list string)
         (ps : dict string Participant) : list string * dict string Participant :=
  match keys with
  | [] => ([], ps)
  | pid :: rest =>
      match dict_get pid ps with
      | Some p =>
          if stale now cutoff p
          then let '(removed, ps') := prune_loop now cutoff rest (dict_del pid ps) in
               (pid :: removed, ps')
          else prune_loop now cutoff rest ps
      | None => prune_loop now cutoff rest ps
      end
  end.

Definition prune_stale (now : Q) (cutoff : option Q) (s : State) : State * Response :=
  let c := match cutoff with Some c => c | None => 300 end in
  let '(removed, ps) := prune_loop now c (dict_keys (participants s)) (participants s) in
  let s1 := set_participants ps s in
  (match removed with [] => s1 | _ :: _ => broadcast_state s1 end,
   jsonify (JOkRemoved removed)).

(** Every value of [participants] sits under its own ["id"], as
    [register] writes it. *)
Definition wf (s : State) : Prop :=
  dict_wf (participants s) /\
  forall k p, In (k, p) (participants s) -> p_id p = k.

(** The state of a server that has just started. *)
Definition initial (uuid : string) : State :=
  {| participants := [];
     game_state := {| game_id := uuid; seq := 0; sentence := "";
                      holder_id := None; completed := true |};
     broadcasts := [] |}.

(** The states the server goes through: from the start, one request
    after the other. *)
Inductive reachable : State -> Prop :=
| reach_initial uuid : reachable (initial uuid)
| reach_register now data s :
    reachable s -> reachable (fst (register now data s))
| reach_heartbeat now id s :
    reachable s -> reachable (fst (heartbeat now id s))
| reach_update_game data s :
    reachable s -> reachable (fst (update_game data s))
| reach_do_pass now r data s :
    reachable s -> reachable (fst (do_pass now r data s))
| reach_prune_stale now cutoff s :
    reachable s -> reachable (fst (prune_stale now cutoff s)).

End Server.

(** The POST routes of the server, one request each. *)
Module Routes.
Import Server.

Inductive Request :=
| Register (now : Q) (data : RegisterReq)        (* POST /register *)
| Heartbeat (now : Q) (id : option string)       (* POST /heartbeat *)
| UpdateGame (data : UpdateGameReq)              (* POST /update_game *)
| Pass (now : Q) (r : nat) (data : PassReq)      (* POST /pass *)
| PruneStale (now : Q) (cutoff : option Q).      (* POST /prune_stale *)

(** The view the request is routed to. *)
Definition handle (req : Request) (s : State) : State * Response :=
  match req with
  | Register now data => register now data s
  | Heartbeat now id => heartbeat now id s
  | UpdateGame data => update_game data s
  | Pass now r data => do_pass now r data s
  | PruneStale now cutoff => prune_stale now cutoff s
  end.

(** Requests handled one after the other. *)
Definition run (reqs : list Request) (s : State) : State :=
  fold_left (fun s req => fst (handle req s)) reqs s.

(** The body says [{"ok": true, ...}]. *)
Definition accepted (resp : Response) : bool :=
  match body resp with
  | JOk | JOkNewHolder _ | JOkRemoved _ => true
  | JError _ | JArray _ _ | JInternalError => false
  end.

(** The request is not addressed to the record of [b], last seen at
    [t]: it is not a registration or a heartbeat under the id [b], and
    not a prune whose cutoff the age of the record exceeds. *)
Definition leaves (b : string) (t : Q) (req : Request) : bool :=
  match req with
  | Register _ data => negb (key_eqb (present (reg_id data)) (Some b))
  | Heartbeat _ id => negb (key_eqb (present id) (Some b))
  | UpdateGame _ => true
  | Pass _ _ _ => true
  | PruneStale now cutoff =>
      Qle_bool (now - t) (match cutoff with Some c => c | None => 300 end)
  end.

End Routes.

(** ** main.py: the peer client *)

(** main.py:36  [list_contains] *)
Definition list_contains (list_or_str : attr) (query : pyval) : bool :=
  match list_or_str with
  | AStr s => norm (PyStr s) =? norm query
  | AList items => existsb (fun item => norm (PyStr item) =? norm query) items
  end.

Module Client.

(** main.py:27 *)
Definition DISCOVERY_TIMEOUT : Q := 8.

(** A value of [self.peers]. *)
Record PeerRecord := {
  peer_id : option string;
  peer_name : string;
  peer_host : string;
  peer_port : Z;
  peer_last_seen : Q
}.

(** The fields of a [ClientNode] the protocols use. The keys of
    [peers] and [connections] come from [obj.get("id")] and may be
    [None]. *)
Record ClientNode := {
  node_id : string;
  profile : Profile;
  peers : dict (option string) PeerRecord;
  connections : dict (option string) Profile;
  game_state : GameState
}.

Definition set_peers (ps : dict (option string) PeerRecord) (n : ClientNode) : ClientNode :=
  {| node_id := node_id n; profile := profile n; peers := ps;
     connections := connections n; game_state := game_state n |}.

Definition set_connections (cs : dict (option string) Profile) (n : ClientNode) : ClientNode :=
  {| node_id := node_id n; profile := profile n; peers := peers n;
     connections := cs; game_state := game_state n |}.

Definition set_game_state (g : GameState) (n : ClientNode) : ClientNode :=
  {| node_id := node_id n; profile := profile n; peers := peers n;
     connections := connections n; game_state := g |}.

(** *** Discovery *)

(** A discovery datagram parsed as a JSON object, at the keys the
    listener reads; [h_tcp_port] is [None] when [int(...)] raises. *)
Record Hello := {
  h_type : option string;
  h_id : option string;
  h_name : option string;
  h_tcp_port : option Z
}.

(** main.py:81-90: one turn of the listener loop. [datagram] is [None]
    when the bytes are not a JSON object (the exception is swallowed). *)
Definition listen (now : Q) (host : string) (datagram : option Hello)
           (n : ClientNode) : ClientNode :=
  match datagram with
  | None => n
  | Some obj =>
      if negb (key_eqb (h_type obj) (Some "hello")) then n
      else
        let pid := h_id obj in
        if key_eqb pid (Some (node_id n)) then n
        else
          match h_tcp_port obj with
          | None => n
          | Some port =>
              set_peers
                (dict_set pid
                   {| peer_id := pid;
                      peer_name := match h_name obj with Some x => x | None => "?" end;
                      peer_host := host; peer_port := port;
                      peer_last_seen := now |}
                   (peers n)) n
          end
  end.

(** [now_ts() - p["last_seen"] > DISCOVERY_TIMEOUT] *)
Definition expired (now : Q) (p : PeerRecord) : bool :=
  negb (Qle_bool (now - peer_last_seen p) DISCOVERY_TIMEOUT).

(** main.py:98-101: the first loop of a sweep. [now_ts()] is read once
    per record; [clock i] is the reading at the record of index [i]. *)
Fixpoint scan (clock : nat -> Q) (i : nat)
         (items : list (option string * PeerRecord)) : list (option string) :=
  match items with
  | [] => []
  | (pid, p) :: rest =>
      if expired (clock i) p
      then pid :: scan clock (S i) rest
      else scan clock (S i) rest
  end.

(** main.py:102-103  [for pid in remove: del self.peers[pid]] *)
Definition delete_all (remove : list (option string))
           (ps : dict (option string) PeerRecord) : dict (option string) PeerRecord :=
  fold_left (fun d pid => dict_del pid d) remove ps.

(** main.py:97-103: one sweep of [pruner], under the lock. *)
Definition pruner (clock : nat -> Q) (n : ClientNode) : ClientNode :=
  let remove := scan clock 0 (peers n) in
  set_peers (delete_all remove (peers n)) n.

(** Successive sweeps with no announcement in between. *)
Definition sweeps (clocks : list (nat -> Q)) (n : ClientNode) : ClientNode :=
  fold_left (fun n clock => pruner clock n) clocks n.

(** What happens to the peer table: an announcement is heard, or the
    pruner sweeps. *)
Inductive DiscoveryEvent :=
| Heard (now : Q) (host : string) (datagram : option Hello)
| Swept (clock : nat -> Q).

Definition discovery (events : list DiscoveryEvent) (n : ClientNode) : ClientNode :=
  fold_left (fun n e => match e with
                        | Heard now host datagram => listen now host datagram n
                        | Swept clock => pruner clock n
                        end) events n.

(** *** Handshake *)

(** A line of the handshake stream parsed as a JSON object, at the keys
    either side reads: [msg.get("type")], [msg.get("field")],
    [msg.get("value")], the truth value of [resp.get("ok", False)] and
    [msg.get("profile")]. *)
Record Message := {
  m_type : option string;
  m_field : option string;
  m_value : pyval;
  m_ok : bool;
  m_profile : option Profile
}.

Definition verify_msg (field value : string) : Message :=
  {| m_type := Some "verify"; m_field := Some field; m_value := PyStr value;
     m_ok := false; m_profile := None |}.

Definition verify_result_msg (ok : bool) : Message :=
  {| m_type := Some "verify_result"; m_field := None; m_value := PyNone;
     m_ok := ok; m_profile := None |}.

Definition connect_msg (p : Profile) : Message :=
  {| m_type := Some "connect"; m_field := None; m_value := PyNone;
     m_ok := false; m_profile := Some p |}.

Definition connect_ack_msg (p : Profile) : Message :=
  {| m_type := Some "connect_ack"; m_field := None; m_value := PyNone;
     m_ok := false; m_profile := Some p |}.

(** What [f.readline()] followed by [json.loads] gives. *)
Inductive Recv :=
| RecvFail                 (* readline raises: timeout, reset *)
| RecvEof                  (* readline returns the empty string *)
| RecvMalformed            (* the line is not a JSON object *)
| RecvMsg (m : Message).

(** main.py:162  [full_profile] *)
Definition full_profile (n : ClientNode) : Profile :=
  dict_set "id" (AStr (node_id n)) (profile n).

(** The key [profile.get("id")] gives for [self.connections]: [None],
    a string, or no key at all for a list (unhashable: [TypeError]). *)
Definition connection_key (p : Profile) : option (option string) :=
  match dict_get "id" p with
  | None => Some None
  | Some (AStr s) => Some (Some s)
  | Some (AList _) => None
  end.

(** [self.connections[incoming.get("id")] = incoming], [None] when it
    raises ([incoming] is not an object, or its id is unhashable). *)
Definition record_connection (incoming : option Profile) (n : ClientNode)
  : option ClientNode :=
  match incoming with
  | None => None
  | Some p =>
      match connection_key p with
      | None => None
      | Some k => Some (set_connections (dict_set k p (connections n)) n)
      end
  end.

(** main.py:116-122: the responder's check of a claimed value. *)
Definition verify_match (n : ClientNode) (field : option string) (value : pyval) : bool :=
  let actual := match field with
                | Some f => dict_get f (profile n)
                | None => None
                end in
  match actual with
  | Some (AList l) => list_contains (AList l) value
  | Some (AStr s) => norm (PyStr s) =? norm value
  | None => norm PyNone =? norm value
  end.

(** What the network does to the responder during one stream. *)
Record ResponderIO := {
  r_line1 : Recv;
  r_write1 : bool;       (* the write of verify_result goes through *)
  r_line2 : Recv;
  r_write2 : bool        (* the write of connect_ack goes through *)
}.

(** main.py:108-144  [handle_client]: the node afterwards and the
    messages written to the stream. Every exception ends the handler. *)
Definition handle_client (io : ResponderIO) (n : ClientNode)
  : ClientNode * list Message :=
  match r_line1 io with
  | RecvMsg msg =>
      let typ := m_type msg in
      if key_eqb typ (Some "verify") then
        let match_ := verify_match n (m_field msg) (m_value msg) in
        if negb (r_write1 io) then (n, [])
        else
          let sent := [verify_result_msg match_] in
          if match_ then
            match r_line2 io with
            | RecvMsg msg2 =>
                if key_eqb (m_type msg2) (Some "connect") then
                  match record_connection (m_profile msg2) n with
                  | Some n1 =>
                      (n1, if r_write2 io
                           then (sent ++ [connect_ack_msg (full_profile n1)])%list
                           else sent)
                  | None => (n, sent)
                  end
                else (n, sent)
            | _ => (n, sent)
            end
          else (n, sent)
      else if key_eqb typ (Some "connect") then
        match record_connection (m_profile msg) n with
        | Some n1 =>
            (n1, if r_write1 io then [connect_ack_msg (full_profile n1)] else [])
        | None => (n, [])
        end
      else (n, [])
  | _ => (n, [])
  end.

(** What the initiator reads from [random], the keyboard and the
    network during one attempt. *)
Record InitiatorIO := {
  i_peer : nat;          (* draw of random.choice(candidates) *)
  i_field : nat;         (* draw of random.choice(fields) *)
  i_input : string;      (* the line typed at "Value: " *)
  i_connect : bool;      (* s.connect succeeds *)
  i_write1 : bool;       (* the write of verify goes through *)
  i_line1 : Recv;
  i_write2 : bool;       (* the write of connect goes through *)
  i_line2 : Recv
}.

(** The line the initiator prints at the end of an attempt. *)
Inductive Outcome :=
| NoUndiscoveredPeers
| Aborting
| ConnectedTo (name : option attr)
| VerifiedButNoProfile
| VerificationFailed
| NoReply
| ErrorConnecting.

(** main.py:173 *)
Definition fields : list string :=
  ["name"; "hobbies"; "where_from"; "pets"; "classes"].

(** main.py:168 *)
Definition candidates (n : ClientNode) : list PeerRecord :=
  filter (fun p => negb (dict_mem (peer_id p) (connections n)))
         (dict_values (peers n)).

(** main.py:166-208  [attempt_random_connection]: the node afterwards,
    the messages written to the stream and the line printed. *)
Definition attempt_random_connection (io : InitiatorIO) (n : ClientNode)
  : ClientNode * list Message * Outcome :=
  match random_choice (i_peer io) (candidates n) with
  | None => (n, [], NoUndiscoveredPeers)
  | Some peer =>
      match random_choice (i_field io) fields with
      | None => (n, [], ErrorConnecting)
      | Some field =>
          let value := PyStr.strip (i_input io) in
          if negb (PyStr.truthy value) then (n, [], Aborting)
          else if negb (i_connect io) then (n, [], ErrorConnecting)
          else if negb (i_write1 io) then (n, [], ErrorConnecting)
          else
            let sent := [verify_msg field value] in
            match i_line1 io with
            | RecvFail | RecvMalformed => (n, sent, ErrorConnecting)
            | RecvEof => (n, sent, NoReply)
            | RecvMsg resp =>
                if m_ok resp then
                  if negb (i_write2 io) then (n, sent, ErrorConnecting)
                  else
                    let sent2 := (sent ++ [connect_msg (full_profile n)])%list in
                    match i_line2 io with
                    | RecvFail | RecvMalformed => (n, sent2, ErrorConnecting)
                    | RecvEof => (n, sent2, VerifiedButNoProfile)
                    | RecvMsg ack =>
                        match record_connection (m_profile ack) n with
                        | Some n1 =>
                            (n1, sent2,
                             ConnectedTo
                               (match m_profile ack with
                                | Some their => dict_get "name" their
                                | None => None
                                end))
                        | None => (n, sent2, ErrorConnecting)
                        end
                    end
                else (n, sent, VerificationFailed)
            end
      end
  end.


(** The exchange as the initiator sees it complete: there is a peer to
    ask and a value typed, the stream opens, verify goes out, a reply
    with a true [ok] comes back, connect goes out, and a reply comes
    back whose profile [their] has the usable key [k]. *)
Definition initiator_completed (io : InitiatorIO) (n : ClientNode)
           (k : option string) (their : Profile) : Prop :=
  candidates n <> [] /\ PyStr.blank (i_input io) = false /\
  i_connect io = true /\ i_write1 io = true /\
  (exists resp, i_line1 io = RecvMsg resp /\ m_ok resp = true) /\
  i_write2 io = true /\
  (exists ack, i_line2 io = RecvMsg ack /\ m_profile ack = Some their) /\
  connection_key their = Some k.

(** The exchange as the responder sees it reach the connect message
    after a verify it has answered with a true [ok]. *)
Definition responder_verified (io : ResponderIO) (n : ClientNode)
           (k : option string) (their : Profile) : Prop :=
  (exists msg, r_line1 io = RecvMsg msg /\ m_type msg = Some "verify" /\
               verify_match n (m_field msg) (m_value msg) = true) /\
  r_write1 io = true /\
  (exists msg2, r_line2 io = RecvMsg msg2 /\ m_type msg2 = Some "connect" /\
                m_profile msg2 = Some their) /\
  connection_key their = Some k.

(** A stream whose first message is connect. *)
Definition responder_direct (io : ResponderIO)
           (k : option string) (their : Profile) : Prop :=
  (exists msg, r_line1 io = RecvMsg msg /\ m_type msg = Some "connect" /\
               m_profile msg = Some their) /\
  connection_key their = Some k.

(** *** Game actions *)

(** The requests a game action sends to the server. *)
Inductive Call :=
| GetState                                   (* GET /state *)
| PostUpdateGame (id : string) (gs : GameState).   (* POST /update_game *)

(** The line a game action prints. *)
Inductive Said :=
| Empty | NotYourTurn | SentenceCompleted | AlreadyCompleted
| Started | Added | Ended.

(** main.py:241  [sync_state_from_server]. [reply] is the [game_state]
    of the server's answer, [None] when the request fails or the
    answer has none. *)
Definition sync_state_from_server (reply : option GameState) (n : ClientNode) : ClientNode :=
  match reply with
  | Some gs => set_game_state gs n
  | None => n
  end.

(** main.py:231  [push_game_state_to_server] *)
Definition push_game_state_to_server (n : ClientNode) : Call :=
  PostUpdateGame (node_id n) (game_state n).

(** main.py:253  [start_sentence]; [uuid] is the value of [uuid.uuid4()]. *)
Definition start_sentence (uuid : string) (word : string) (n : ClientNode)
  : ClientNode * list Call * Said :=
  let word := PyStr.strip word in
  if negb (PyStr.truthy word) then (n, [], Empty)
  else
    let g := game_state n in
    let n1 := set_game_state
                {| game_id := uuid; seq := seq g + 1; sentence := word;
                   holder_id := Some (node_id n); completed := false |} n in
    (n1, [push_game_state_to_server n1], Started).

(** main.py:267  [add_word] *)
Definition add_word (reply : option GameState) (word : string) (n : ClientNode)
  : ClientNode * list Call * Said :=
  let n0 := sync_state_from_server reply n in
  let g := game_state n0 in
  if Server.differs (holder_id g) (Some (node_id n0)) then (n0, [GetState], NotYourTurn)
  else if completed g then (n0, [GetState], SentenceCompleted)
  else
    let w := PyStr.strip word in
    if negb (PyStr.truthy w) then (n0, [GetState], Empty)
    else
      let n1 := set_game_state
                  {| game_id := game_id g; seq := seq g + 1;
                     sentence := if PyStr.truthy (sentence g)
                                 then sentence g ++ " " ++ w else w;
                     holder_id := holder_id g; completed := completed g |} n0 in
      (n1, [GetState; push_game_state_to_server n1], Added).

(** main.py:288  [end_sentence] *)
Definition end_sentence (n : ClientNode) : ClientNode * list Call * Said :=
  let g := game_state n in
  if Server.differs (holder_id g) (Some (node_id n)) then (n, [], NotYourTurn)
  else if completed g then (n, [], AlreadyCompleted)
  else
    let s := PyStr.strip (sentence g) in
    let s := if negb (PyStr.endswith s ".") then s ++ "." else s in
    let n1 := set_game_state
                {| game_id := game_id g; seq := seq g + 1; sentence := s;
                   holder_id := holder_id g; completed := true |} n in
    (n1, [push_game_state_to_server n1], Ended).

(** The body of the [/update_game] request of a call. *)
Definition update_game_request (id : string) (gs : GameState) : Server.UpdateGameReq :=
  {| Server.ug_id := Some id; Server.ug_game_state := Some (doc_of gs) |}.

End Client.

(** ** A client and the server together *)

Module System.

(** The server after the calls of a game action have reached it. *)
Definition deliver (calls : list Client.Call) (s : Server.State) : Server.State :=
  fold_left (fun s c => match c with
                        | Client.GetState => s
                        | Client.PostUpdateGame id gs =>
                            fst (Server.update_game (Client.update_game_request id gs) s)
                        end) calls s.

Definition World := (Client.ClientNode * Server.State)%type.

Definition start (uuid word : string) (w : World) : World :=
  let '(n, calls, _) := Client.start_sentence uuid word (fst w) in
  (n, deliver calls (snd w)).

(** The pull of [add] is answered with the server's state. *)
Definition add (word : string) (w : World) : World :=
  let '(n, calls, _) :=
    Client.add_word (Some (Server.game_state (snd w))) word (fst w) in
  (n, deliver calls (snd w)).

Definition finish (w : World) : World :=
  let '(n, calls, _) := Client.end_sentence (fst w) in
  (n, deliver calls (snd w)).

End System.

(** ** Scenarios *)

Module Scenario.
Import Server.

Definition participant (id : string) (last_seen : Q) : Participant :=
  {| p_id := id; p_name := id; p_profile := []; p_last_seen := last_seen |}.

Definition game (n : Z) (text : string) (holder : option string) (done : bool) : GameState :=
  {| game_id := "g0"; seq := n; sentence := text;
     holder_id := holder; completed := done |}.

(** The registration of [id], and the push of [g] by [id]. *)
Definition joins (id : string) : RegisterReq :=
  {| reg_id := Some id; reg_name := Some id; reg_profile := None |}.

Definition pushes (id : string) (g : GameState) : UpdateGameReq :=
  {| ug_id := Some id; ug_game_state := Some (doc_of g) |}.

(** C registered at time 0, A at 100 and B at 95; A holds. Read at time
    120, A and B are active and C is not. *)
Definition three : State :=
  fst (update_game (pushes "A" (game 3 "Once upon" (Some "A") false))
    (fst (register 95 (joins "B")
      (fst (register 100 (joins "A")
        (fst (register 0 (joins "C") (initial "g0")))))))).

(** A is the only participant. *)
Definition alone : State :=
  fst (update_game (pushes "A" (game 3 "Once upon" (Some "A") false))
    (fst (register 100 (joins "A") (initial "g0")))).

(** B and C registered, B holds; the server has reached [seq] 5. *)
Definition later : State :=
  fst (update_game (pushes "B" (game 5 "Once upon a time" (Some "B") false))
    (fst (register 100 (joins "C")
      (fst (register 100 (joins "B") (initial "g0")))))).

(** Node A as it starts: its local copy of the game is the initial one. *)
Definition node_a : Client.ClientNode :=
  {| Client.node_id := "A";
     Client.profile := [("name", AStr "Ada"); ("hobbies", AList ["Chess"; "Rock Climbing"]);
                        ("where_from", AStr "Leeds"); ("pets", AList []);
                        ("classes", AList ["CS 101"])];
     Client.peers := [];
     Client.connections := [];
     Client.game_state := game 0 "" None true |}.

(** Node A believing that B holds the turn. *)
Definition node_a_waiting : Client.ClientNode :=
  Client.set_game_state (game 2 "Once" (Some "B") false) node_a.

(** Node A having heard B's announcement at time 50. *)
Definition node_a_knows_b : Client.ClientNode :=
  Client.listen 50 "10.0.0.2"
    (Some {| Client.h_type := Some "hello"; Client.h_id := Some "B";
             Client.h_name := Some "Bob"; Client.h_tcp_port := Some 40001%Z |})
    node_a.

Definition profile_b : Profile := [("name", AStr "Bob"); ("id", AStr "B")].

Definition profile_m : Profile := [("name", AStr "Mallory"); ("id", AStr "M")].

(** The state A pushes when it starts a sentence from [node_a]. *)
Definition started : GameState :=
  {| game_id := "g1"; seq := 1; sentence := "Hello";
     holder_id := Some "A"; completed := false |}.

(** A fresh server with A and B registered, and node A. *)
Definition world0 : System.World :=
  (node_a,
   fst (register 0 (joins "B") (fst (register 0 (joins "A") (initial "g0"))))).
End Scenario.

(** ** The subscribers of the server *)

Module Sse.

(** The [Queue] objects of the subscribers, each known by its identity.
    [sse_queues] is the module-level list of the queues registered;
    [content q] holds the snapshots put on the queue [q] and not yet
    taken, oldest first. A queue can be put on whether or not it is in
    the list. *)
Record Queues := {
  sse_queues : list nat;
  content : nat -> list GameState
}.

(** [q.put(x)] *)
Definition put (q : nat) (x : GameState) (content : nat -> list GameState)
  : nat -> list GameState :=
  fun q' => if Nat.eqb q' q then (content q' ++ [x])%list else content q'.

(** server.py:84-85, the first step of [register_sse]: under the lock
    the new queue [q] is appended to the list. *)
Definition append_queue (q : nat) (st : Queues) : Queues :=
  {| sse_queues := (sse_queues st ++ [q])%list; content := content st |}.

(** server.py:86, its second step, after the lock is released: a copy
    of the game state of that moment is put on the queue. *)
Definition put_first (q : nat) (game_state : GameState) (st : Queues) : Queues :=
  {| sse_queues := sse_queues st; content := put q game_state (content st) |}.

(** server.py:82  [register_sse] when nothing happens between its two
    steps. *)
Definition register_sse (q : nat) (game_state : GameState) (st : Queues) : Queues :=
  put_first q game_state (append_queue q st).

(** [list.remove]: the first occurrence is taken out; the list is
    returned as it is when there is none ([ValueError], swallowed). *)
Fixpoint remove_first (q : nat) (l : list nat) : list nat :=
  match l with
  | [] => []
  | q' :: rest => if Nat.eqb q' q then rest else q' :: remove_first q rest
  end.

(** server.py:89  [unregister_sse] *)
Definition unregister_sse (q : nat) (st : Queues) : Queues :=
  {| sse_queues := remove_first q (sse_queues st); content := content st |}.

(** server.py:98-103, the second half of [broadcast_state]: under the
    lock the snapshot is put on every queue of the list. *)
Definition broadcast_state (snap : GameState) (st : Queues) : Queues :=
  {| sse_queues := sse_queues st;
     content := fold_left (fun c q => put q snap c) (sse_queues st) (content st) |}.

(** server.py:121  [q.get(timeout=30.0)] in the generator of [stream]:
    the oldest snapshot is taken; [None] is [queue.Empty], answered with
    a keep-alive comment. *)
Definition get (q : nat) (st : Queues) : option GameState * Queues :=
  match content st q with
  | [] => (None, st)
  | x :: rest =>
      (Some x,
       {| sse_queues := sse_queues st;
          content := fun q' => if Nat.eqb q' q then rest else content st q' |})
  end.

(** What happens to the queues, one locked step at a time: the two
    steps of a subscription, which other steps may separate, a display
    going away, a broadcast, the generator of a display taking from its
    queue. *)
Inductive Event :=
| Append (q : nat)
| PutFirst (q : nat) (game_state : GameState)
| Unsubscribe (q : nat)
| Broadcast (snap : GameState)
| Take (q : nat).

Definition step (st : Queues) (e : Event) : Queues :=
  match e with
  | Append q => append_queue q st
  | PutFirst q g => put_first q g st
  | Unsubscribe q => unregister_sse q st
  | Broadcast snap => broadcast_state snap st
  | Take q => snd (get q st)
  end.

Definition run (events : list Event) (st : Queues) : Queues :=
  fold_left step events st.

(** The snapshots of the broadcasts among the events, in order. *)
Fixpoint snapshots (events : list Event) : list GameState :=
  match events with
  | [] => []
  | Broadcast snap :: rest => snap :: snapshots rest
  | _ :: rest => snapshots rest
  end.

(** What the events put on a registered queue [q], in order: the
    snapshots broadcast and the first snapshots put on [q] itself. *)
Fixpoint delivered (q : nat) (events : list Event) : list GameState :=
  match events with
  | [] => []
  | Broadcast snap :: rest => snap :: delivered q rest
  | PutFirst q' g :: rest =>
      if Nat.eqb q' q then g :: delivered q rest else delivered q rest
  | _ :: rest => delivered q rest
  end.

(** What the generator of queue [q] has yielded as data along the
    events, in order: the snapshots its takes returned. *)
Fixpoint received (q : nat) (events : list Event) (st : Queues) : list GameState :=
  match events with
  | [] => []
  | e :: rest =>
      (match e with
       | Take q' =>
           if Nat.eqb q' q
           then match fst (get q st) with Some x => [x] | None => [] end
           else []
       | _ => []
       end ++ received q rest (step st e))%list
  end.

(** The events leave the registration of [q] alone: nobody appends or
    unregisters a queue of its identity. *)
Fixpoint spares (q : nat) (events : list Event) : bool :=
  match events with
  | [] => true
  | Append q' :: rest => negb (Nat.eqb q' q) && spares q rest
  | Unsubscribe q' :: rest => negb (Nat.eqb q' q) && spares q rest
  | _ :: rest => spares q rest
  end.

(** The event is a first put on [q]. *)
Definition puts_first (q : nat) (e : Event) : bool :=
  match e with
  | PutFirst q' _ => Nat.eqb q' q
  | _ => false
  end.

End Sse.

(** ** The client's requests to the server *)

Module Bridge.
Import Client.


(** [self.profile.get("name")]: the string under "name", [None] when
    there is none. *)
Definition profile_name (p : Profile) : option string :=
  match dict_get "name" p with
  | Some (AStr s) => Some s
  | _ => None
  end.


(** main.py:307-308  the body of a pass: [target_id] goes in only when
    it is given and not empty. *)
Definition pass_request (target_id : option string) (n : ClientNode) : Server.PassReq :=
  {| Server.pass_id := Some (node_id n);
     Server.pass_target_id := present target_id |}.

(** The line [pass_turn] prints. *)
Inductive PassSaid :=
| PassAccepted (new_holder : option string)
| PassFailed
| PassError.

(** main.py:305  [pass_turn], from the answer on. [reply] is [None]
    when [requests.post] raises; [pull] is what the following
    [sync_state_from_server] gets. A 200 answer whose body is not a JSON
    object makes [j.get] raise, which ends the call before the sync. *)
Definition pass_turn (reply : option Server.Response) (pull : option GameState)
           (n : ClientNode) : ClientNode * PassSaid :=
  match reply with
  | None => (n, PassError)
  | Some r =>
      if (Server.status r =? 200)%Z then
        match Server.body r with
        | Server.JOkNewHolder chosen =>
            (sync_state_from_server pull n, PassAccepted (Some chosen))
        | Server.JOk | Server.JOkRemoved _ | Server.JError _ =>
            (sync_state_from_server pull n, PassAccepted None)
        | Server.JArray _ _ | Server.JInternalError => (n, PassError)
        end
      else (n, PassFailed)
  end.

(** main.py:63  the announcement of the broadcaster, for a node
    listening on [tcp_port] whose profile has a name. *)
Definition announcement (tcp_port : Z) (n : ClientNode) : option Hello :=
  match profile_name (profile n) with
  | Some name =>
      Some {| h_type := Some "hello"; h_id := Some (node_id n);
              h_name := Some name; h_tcp_port := Some tcp_port |}
  | None => None
  end.

End Bridge.

(** ** Two nodes, a node and the server *)

Module Session.
Import Client.

(** The [i]-th line of what the other side has written; the end of the
    stream after that. *)
Definition line (written : list Message) (i : nat) : Recv :=
  match nth_error written i with
  | Some m => RecvMsg m
  | None => RecvEof
  end.




(** main.py:305  [pass_turn] against the server: the pass is posted,
    and the pull that follows an accepted answer reads the server's new
    state. *)
Definition pass_turn (now : Q) (r : nat) (target_id : option string)
           (w : System.World) : System.World * Bridge.PassSaid :=
  let '(s', reply) := Server.do_pass now r (Bridge.pass_request target_id (fst w)) (snd w) in
  let '(n', said) := Bridge.pass_turn (Some reply) (Some (Server.game_state s')) (fst w) in
  ((n', s'), said).

End Session.

(** ** The start of a client *)

Module Main.

(** [s.split(sep)] for a separator of one character. *)
Fixpoint split (sep : ascii) (s : string) : list string :=
  match s with
  | EmptyString => [EmptyString]
  | String c r =>
      if Ascii.eqb c sep then EmptyString :: split sep r
      else match split sep r with
           | x :: xs => String c x :: xs
           | [] => [String c EmptyString]
           end
  end.


(** main.py:356  [[h.strip() for h in line.split(",")] if line else []] *)
Definition items (line : string) : list string :=
  if PyStr.truthy line then map PyStr.strip (split "," line) else [].


(** main.py:43  [ClientNode.__init__]; [id] and [game_id] are the two
    values of [uuid.uuid4()]. *)
Definition new_node (id game_id : string) (profile : Profile) : Client.ClientNode :=
  {| Client.node_id := id;
     Client.profile := profile;
     Client.peers := [];
     Client.connections := [];
     Client.game_state := {| game_id := game_id; seq := 0; sentence := "";
                             holder_id := None; completed := true |} |}.

End Main.

(** * Properties *)

(** ** Strings *)

Example norm_trims_and_lowers : norm (PyStr "  Rock Climbing ") = "rock climbing".
Proof. reflexivity. Qed.

Example norm_of_None : norm PyNone = "none".
Proof. reflexivity. Qed.

Example norm_of_int : norm (PyInt (-42)) = "-42".
Proof. reflexivity. Qed.

Lemma truthy_false_iff (s : string) : PyStr.truthy s = false <-> s = "".
Proof. destruct s; simpl; split; intro; congruence. Qed.

Lemma present_Some (s : string) : s <> "" -> present (Some s) = Some s.
Proof. destruct s; simpl; congruence. Qed.

Lemma present_nonempty (o : option string) (s : string) :
  present o = Some s -> o = Some s /\ s <> "".
Proof.
  destruct o as [x|]; simpl; [|discriminate].
  destruct x; simpl; [discriminate|].
  intros [= <-]. split; [reflexivity|discriminate].
Qed.

(** ** Dictionaries *)

Section DictFacts.
Context {K V : Type} `{Hashable K}.
Implicit Types (k : K) (v : V) (d : dict K V).

Lemma key_eqb_refl k : key_eqb k k = true.
Proof. now apply key_eqb_eq. Qed.

Lemma key_eqb_neq k k' : key_eqb k k' = false <-> k <> k'.
Proof.
  split.
  - intros E ->. rewrite key_eqb_refl in E. discriminate.
  - intros N. destruct (key_eqb k k') eqn:E; [|reflexivity].
    apply key_eqb_eq in E. contradiction.
Qed.

Lemma dict_get_In k v d : dict_get k d = Some v -> In (k, v) d.
Proof.
  induction d as [|[k' v'] r IH]; simpl; [discriminate|].
  destruct (key_eqb k' k) eqn:E.
  - apply key_eqb_eq in E. intros [= ->]. subst. now left.
  - intros G. right. now apply IH.
Qed.

Lemma dict_get_None k d : dict_get k d = None -> ~ In k (dict_keys d).
Proof.
  induction d as [|[k' v'] r IH]; simpl; [tauto|].
  destruct (key_eqb k' k) eqn:E; [discriminate|].
  apply key_eqb_neq in E. intros G [->|I]; [congruence|]. now apply IH.
Qed.

Lemma In_dict_get k v d : dict_wf d -> In (k, v) d -> dict_get k d = Some v.
Proof.
  unfold dict_wf, dict_keys.
  induction d as [|[k' v'] r IH]; simpl; [tauto|].
  intros W [E|I].
  - injection E as -> ->. now rewrite key_eqb_refl.
  - inversion W as [|? ? N W']; subst.
    destruct (key_eqb k' k) eqn:E; [|now apply IH].
    apply key_eqb_eq in E. subst. exfalso. apply N.
    change k with (fst (k, v)). now apply in_map.
Qed.

Lemma dict_get_set_eq k v d : dict_get k (dict_set k v d) = Some v.
Proof.
  induction d as [|[k' v'] r IH]; simpl.
  - now rewrite key_eqb_refl.
  - destruct (key_eqb k' k) eqn:E; simpl; now rewrite E.
Qed.

Lemma dict_get_set_ne k k' v d :
  k <> k' -> dict_get k' (dict_set k v d) = dict_get k' d.
Proof.
  intros N. induction d as [|[k0 v0] r IH]; simpl.
  - apply key_eqb_neq in N. now rewrite N.
  - destruct (key_eqb k0 k) eqn:E; simpl.
    + apply key_eqb_eq in E. subst. apply key_eqb_neq in N. now rewrite N.
    + now rewrite IH.
Qed.

Lemma In_dict_set k v k' v' d :
  In (k', v') (dict_set k v d) -> (k' = k /\ v' = v) \/ In (k', v') d.
Proof.
  induction d as [|[k0 v0] r IH]; simpl.
  - intros [[= <- <-]|[]]. now left.
  - destruct (key_eqb k0 k) eqn:E; simpl.
    + apply key_eqb_eq in E. subst. intros [[= <- <-]|I]; [now left|now right; right].
    + intros [E'|I]; [now right; left|]. destruct (IH I); [now left|now right; right].
Qed.

Lemma dict_keys_set k v d :
  dict_keys (dict_set k v d) =
  if dict_mem k d then dict_keys d else (dict_keys d ++ [k])%list.
Proof.
  unfold dict_mem, dict_keys.
  induction d as [|[k0 v0] r IH]; simpl; [reflexivity|].
  destruct (key_eqb k0 k) eqn:E; simpl; [reflexivity|].
  rewrite IH. now destruct (dict_get k r).
Qed.

Lemma dict_set_wf k v d : dict_wf d -> dict_wf (dict_set k v d).
Proof.
  unfold dict_wf. intros W. rewrite dict_keys_set.
  unfold dict_mem. destruct (dict_get k d) eqn:G; [assumption|].
  apply dict_get_None in G.
  apply NoDup_app; [assumption | repeat constructor; simpl; tauto |].
  intros x I [<-|[]]. contradiction.
Qed.

Lemma In_dict_del k k' v' d : In (k', v') (dict_del k d) -> In (k', v') d.
Proof.
  induction d as [|[k0 v0] r IH]; simpl; [tauto|].
  destruct (key_eqb k0 k); simpl; [now right|].
  intros [E|I]; [now left|right; now apply IH].
Qed.

Lemma dict_del_wf k d : dict_wf d -> dict_wf (dict_del k d).
Proof.
  unfold dict_wf, dict_keys.
  induction d as [|[k0 v0] r IH]; simpl; [trivial|].
  intros W. inversion W as [|? ? N W']; subst.
  destruct (key_eqb k0 k); simpl; [assumption|].
  constructor; [|now apply IH].
  intros I. apply N. apply in_map_iff in I as [[a b] [E I]].
  simpl in E. subst. apply In_dict_del in I.
  change k0 with (fst (k0, b)). now apply in_map.
Qed.

Lemma dict_get_del_eq k d : dict_wf d -> dict_get k (dict_del k d) = None.
Proof.
  unfold dict_wf, dict_keys.
  induction d as [|[k0 v0] r IH]; simpl; [reflexivity|].
  intros W. inversion W as [|? ? N W']; subst.
  destruct (key_eqb k0 k) eqn:E; simpl.
  - apply key_eqb_eq in E. subst.
    destruct (dict_get k r) eqn:G; [|reflexivity].
    exfalso. apply N. apply dict_get_In in G.
    change k with (fst (k, v)). now apply in_map.
  - rewrite E. now apply IH.
Qed.

Lemma dict_get_del_ne k k' d :
  k <> k' -> dict_get k' (dict_del k d) = dict_get k' d.
Proof.
  intros N. induction d as [|[k0 v0] r IH]; simpl; [reflexivity|].
  destruct (key_eqb k0 k) eqn:E; simpl.
  - apply key_eqb_eq in E. subst. apply key_eqb_neq in N. now rewrite N.
  - now rewrite IH.
Qed.

Lemma dict_mem_true k d : dict_mem k d = true <-> exists v, dict_get k d = Some v.
Proof.
  unfold dict_mem. destruct (dict_get k d) as [v|]; split.
  - intros _. now exists v.
  - reflexivity.
  - discriminate.
  - now intros [v [=]].
Qed.

Lemma In_dict_values v d : In v (dict_values d) <-> exists k, In (k, v) d.
Proof.
  unfold dict_values. rewrite in_map_iff. split.
  - intros [[k v'] [E I]]. simpl in E. subst. now exists k.
  - intros [k I]. now exists (k, v).
Qed.
End DictFacts.

(** [random.choice] returns a member of a non-empty list. *)
Lemma random_choice_In {A : Type} (r : nat) (seq : list A) :
  seq <> [] -> exists x, random_choice r seq = Some x /\ In x seq.
Proof.
  intros N. destruct seq as [|a l]; [contradiction|].
  unfold random_choice.
  destruct (nth_error (a :: l) (r mod List.length (a :: l))) as [x|] eqn:E.
  - exists x. split; [reflexivity|]. eapply nth_error_In; eauto.
  - apply nth_error_None in E.
    pose proof (Nat.mod_upper_bound r (List.length (a :: l))) as B.
    simpl in *. lia.
Qed.

Lemma random_choice_singleton {A : Type} (r : nat) (x : A) :
  random_choice r [x] = Some x.
Proof. unfold random_choice. cbn [List.length]. now rewrite Nat.mod_1_r. Qed.

Lemma random_choice_Some_In {A : Type} (r : nat) (seq : list A) (x : A) :
  random_choice r seq = Some x -> In x seq.
Proof.
  destruct seq as [|a l]; [discriminate|].
  unfold random_choice. apply nth_error_In.
Qed.

(** Every element of a list is the choice of some draw. *)
Lemma random_choice_any {A : Type} (seq : list A) (x : A) :
  In x seq -> exists r, random_choice r seq = Some x.
Proof.
  intros I. destruct (In_nth_error _ _ I) as [i E].
  exists i. destruct seq as [|a l]; [contradiction|].
  unfold random_choice. rewrite Nat.mod_small; [exact E|].
  apply nth_error_Some. congruence.
Qed.

(** ** The server *)

Section ServerFacts.
Import Server.

Lemma wf_initial uuid : wf (initial uuid).
Proof. split; [constructor | intros k p []]. Qed.

Lemma wf_register now data s :
  wf s -> wf (fst (register now data s)).
Proof.
  intros [W I]. unfold register.
  destruct (present (reg_id data)) as [pid|]; simpl; [|now split].
  split.
  - now apply dict_set_wf.
  - intros k p M. apply In_dict_set in M as [[-> ->]|M]; [reflexivity|now apply I].
Qed.

Lemma wf_heartbeat now id s :
  wf s -> wf (fst (heartbeat now id s)).
Proof.
  intros [W I]. unfold heartbeat.
  destruct (present id) as [pid|]; simpl; [|now split].
  destruct (dict_get pid (participants s)) as [p|] eqn:G; simpl; [|now split].
  split.
  - now apply dict_set_wf.
  - intros k q M. apply In_dict_set in M as [[-> ->]|M]; [|now apply I].
    simpl. apply I. now apply dict_get_In.
Qed.

Lemma prune_loop_wf now c keys ps :
  (dict_wf ps /\ forall k p, In (k, p) ps -> p_id p = k) ->
  let ps' := snd (prune_loop now c keys ps) in
  dict_wf ps' /\ forall k p, In (k, p) ps' -> p_id p = k.
Proof.
  revert ps. induction keys as [|pid rest IH]; intros ps [W I]; simpl; [now split|].
  destruct (dict_get pid ps) as [p|]; [|now apply IH].
  destruct (stale now c p); [|now apply IH].
  specialize (IH (dict_del pid ps)).
  destruct (prune_loop now c rest (dict_del pid ps)) as [removed ps'] eqn:E.
  simpl in *. apply IH. split.
  - now apply dict_del_wf.
  - intros k q M. apply I. eapply In_dict_del; eauto.
Qed.

Lemma wf_prune_stale now cutoff s :
  wf s -> wf (fst (prune_stale now cutoff s)).
Proof.
  intros W. unfold prune_stale.
  set (c := match cutoff with Some c => c | None => 300 end).
  pose proof (prune_loop_wf now c (dict_keys (participants s)) W) as P.
  destruct (prune_loop now c (dict_keys (participants s)) (participants s))
    as [removed ps] eqn:E.
  simpl in *. destruct removed; exact P.
Qed.

Lemma wf_update_game data s : wf s -> wf (fst (update_game data s)).
Proof.
  intros W. unfold update_game.
  destruct (present (ug_id data)), (ug_game_state data) as [gs|]; simpl; try assumption.
  destruct (doc_is_empty gs); [assumption|].
  destruct (differs _ _); assumption.
Qed.

Lemma wf_do_pass now r data s : wf s -> wf (fst (do_pass now r data s)).
Proof.
  intros W. unfold do_pass.
  destruct (present (pass_id data)) as [pid|]; [|assumption].
  destruct (other_parts pid s); [assumption|].
  destruct (present (pass_target_id data)) as [t|].
  - destruct (_ && _); assumption.
  - destruct (random_choice _ _); assumption.
Qed.

(** In every state the server reaches, the participants sit under
    their own ids. *)
Lemma reachable_wf s : reachable s -> wf s.
Proof.
  induction 1.
  - apply wf_initial.
  - now apply wf_register.
  - now apply wf_heartbeat.
  - now apply wf_update_game.
  - now apply wf_do_pass.
  - now apply wf_prune_stale.
Qed.

(** The candidates of a pass are registered participants other than
    the requester. *)
Lemma In_other_parts pid s p :
  In p (other_parts pid s) <->
  In p (dict_values (participants s)) /\ p_id p <> pid.
Proof.
  unfold other_parts. rewrite filter_In, negb_true_iff, String.eqb_neq. tauto.
Qed.

Lemma In_active now pid s p :
  In p (active now pid s) <->
  In p (other_parts pid s) /\ is_active now p = true.
Proof. unfold active. apply filter_In. Qed.

Lemma is_active_iff now p :
  is_active now p = true <-> now - p_last_seen p <= ACTIVE_TIMEOUT.
Proof. apply Qle_bool_iff. Qed.

Lemma pool_nonempty now pid s : other_parts pid s <> [] -> pool now pid s <> [].
Proof. unfold pool. destruct (active now pid s); [trivial|discriminate]. Qed.

(** Under [wf], a participant is determined by its id. *)
Lemma wf_same_id s p q :
  wf s -> In p (dict_values (participants s)) -> In q (dict_values (participants s)) ->
  p_id p = p_id q -> p = q.
Proof.
  intros [W I] Hp Hq E.
  apply In_dict_values in Hp as [kp Hp]. apply In_dict_values in Hq as [kq Hq].
  pose proof (I _ _ Hp). pose proof (I _ _ Hq). subst kp kq.
  apply (In_dict_get _ _ W) in Hp. apply (In_dict_get _ _ W) in Hq.
  rewrite E in Hp. congruence.
Qed.

Lemma hand_over_state chosen s :
  let s' := fst (hand_over chosen s) in
  holder_id (game_state s') = Some chosen /\
  seq (game_state s') = (seq (game_state s) + 1)%Z /\
  game_id (game_state s') = game_id (game_state s) /\
  sentence (game_state s') = sentence (game_state s) /\
  completed (game_state s') = completed (game_state s) /\
  participants s' = participants s /\
  broadcasts s' = (broadcasts s ++ [game_state s'])%list.
Proof. simpl. repeat split. Qed.

(** A pass without target either fails with the state untouched or
    hands over to a member of the pool. *)
Lemma do_pass_no_target now r data s pid :
  present (pass_id data) = Some pid ->
  present (pass_target_id data) = None ->
  other_parts pid s <> [] ->
  exists p, random_choice r (pool now pid s) = Some p /\
            In p (pool now pid s) /\
            do_pass now r data s = hand_over (p_id p) s.
Proof.
  intros Hid Ht Ho. unfold do_pass. rewrite Hid, Ht.
  destruct (other_parts pid s) as [|p0 l0] eqn:E; [contradiction|].
  destruct (@random_choice_In _ r (pool now pid s)) as [p [R I]].
  - apply pool_nonempty. rewrite E. discriminate.
  - exists p. rewrite R. auto.
Qed.

(** The active candidates of a pass, in terms of the registry: the
    registered participants other than the requester that were seen
    within the timeout. *)
Lemma In_active_spec now pid s p :
  In p (active now pid s) <->
  In p (dict_values (participants s)) /\ p_id p <> pid /\
  now - p_last_seen p <= ACTIVE_TIMEOUT.
Proof. rewrite In_active, In_other_parts, is_active_iff. tauto. Qed.

(** Every member of the pool becomes the new holder for some draw. *)
Lemma do_pass_draws now data s pid q :
  present (pass_id data) = Some pid ->
  present (pass_target_id data) = None ->
  In q (pool now pid s) ->
  exists r, do_pass now r data s = hand_over (p_id q) s.
Proof.
  intros Hid Ht I. destruct (random_choice_any _ _ I) as [r R].
  exists r. unfold do_pass. rewrite Hid, Ht.
  destruct (other_parts pid s) eqn:E.
  - unfold pool, active in I. rewrite E in I. simpl in I. contradiction.
  - now rewrite R.
Qed.

(** A pass whose requester has no other participant to pass to leaves
    the state as it is and answers with status 200. *)
Lemma do_pass_nobody_else now r data s pid :
  present (pass_id data) = Some pid ->
  other_parts pid s = [] ->
  do_pass now r data s =
    (s, {| status := 200;
           body := JArray (JError "no other participants registered") 400 |}).
Proof. intros Hid Ho. unfold do_pass. now rewrite Hid, Ho. Qed.

(** An update whose state names another holder leaves the state as it
    is and answers with status 200. *)
Lemma update_game_holder_mismatch data s pid gs :
  present (ug_id data) = Some pid ->
  ug_game_state data = Some gs ->
  doc_is_empty gs = false ->
  doc_get_holder_id gs <> Some pid ->
  update_game data s =
    (s, {| status := 200; body := JArray (JError "sender must be the holder") 403 |}).
Proof.
  intros Hid Hgs He Hh. unfold update_game. rewrite Hid, Hgs, He.
  unfold differs. apply key_eqb_neq in Hh. now rewrite Hh.
Qed.

(** When a request is answered [{"ok": true}], the posted state was
    merged into the server's and the result broadcast. *)
Lemma update_game_accepted data s s' :
  update_game data s = (s', jsonify JOk) ->
  exists pid gs,
    present (ug_id data) = Some pid /\ ug_game_state data = Some gs /\
    doc_get_holder_id gs = Some pid /\
    game_state s' = dict_update (game_state s) gs /\
    participants s' = participants s /\
    broadcasts s' = (broadcasts s ++ [game_state s'])%list.
Proof.
  unfold update_game.
  destruct (present (ug_id data)) as [pid|]; [|discriminate].
  destruct (ug_game_state data) as [gs|]; [|discriminate].
  destruct (doc_is_empty gs); [discriminate|].
  unfold differs. destruct (key_eqb (doc_get_holder_id gs) (Some pid)) eqn:E; simpl;
    [|discriminate].
  apply key_eqb_eq in E. intros [= <-]. exists pid, gs. simpl. repeat split; auto.
Qed.

(** When a pass is answered with a new holder, the holder was written
    and [seq] went up by one. *)
Lemma do_pass_accepted now r data s s' chosen :
  do_pass now r data s = (s', jsonify (JOkNewHolder chosen)) ->
  s' = fst (hand_over chosen s).
Proof.
  unfold do_pass.
  destruct (present (pass_id data)) as [pid|]; [|discriminate].
  destruct (other_parts pid s); [discriminate|].
  destruct (present (pass_target_id data)) as [t|].
  - destruct (_ && _); [|discriminate]. unfold hand_over. now intros [= <- <-].
  - destruct (random_choice _ _) as [q|]; [|discriminate].
    unfold hand_over. now intros [= <- <-].
Qed.
End ServerFacts.

(** ** Pass policy *)

Section PassPolicy.
Import Server.

Lemma reachable_three : reachable Scenario.three.
Proof. unfold Scenario.three. repeat constructor. Qed.

Lemma reachable_later : reachable Scenario.later.
Proof. unfold Scenario.later. repeat constructor. Qed.

(** A registered target other than the requester is one of the others. *)
Lemma registered_target_is_other pid t s :
  wf s -> dict_mem t (participants s) = true -> t <> pid ->
  other_parts pid s <> [].
Proof.
  intros [W I] M N. apply dict_mem_true in M as [p G].
  apply dict_get_In in G. pose proof (I _ _ G) as E.
  assert (In p (other_parts pid s)) as O.
  { apply In_other_parts. split; [|congruence]. apply In_dict_values. eauto. }
  intros Z. rewrite Z in O. exact O.
Qed.

(** C1. A pass without target, sent by [pid] when some registered
    participant has another id, hands the turn to a registered
    participant other than the requester. When some other registered
    participant was seen within [ACTIVE_TIMEOUT] of [now], the boundary
    included, the new holder is one of those: an inactive participant
    is never chosen (and with the ids unique, as in every reachable
    state, no participant registered under the chosen id is inactive),
    and each of the active others is the choice of some draw of
    [random.choice]. Only when no other participant is active does the
    draw range over all the others, each of whom is then the choice of
    some draw. The only call that chooses nobody is the one with an
    empty requester id, which is refused. *)
Theorem pass_prefers_active (now : Q) (r : nat) (data : PassReq) (s : State) (pid : string) :
  pass_id data = Some pid ->
  present (pass_target_id data) = None ->
  (exists q, In q (dict_values (participants s)) /\ p_id q <> pid) ->
  (pid = "" /\
   do_pass now r data s = (s, {| status := 400; body := JError "id required" |})) \/
  (pid <> "" /\
   (exists p,
      do_pass now r data s = hand_over (p_id p) s /\
      snd (do_pass now r data s) = {| status := 200; body := JOkNewHolder (p_id p) |} /\
      holder_id (game_state (fst (do_pass now r data s))) = Some (p_id p) /\
      In p (dict_values (participants s)) /\
      p_id p <> pid /\
      ((exists q, In q (dict_values (participants s)) /\ p_id q <> pid /\
                  now - p_last_seen q <= ACTIVE_TIMEOUT) ->
       now - p_last_seen p <= ACTIVE_TIMEOUT /\
       (wf s ->
        forall q, In q (dict_values (participants s)) -> p_id q = p_id p ->
                  now - p_last_seen q <= ACTIVE_TIMEOUT))) /\
   (forall q, In q (dict_values (participants s)) -> p_id q <> pid ->
              now - p_last_seen q <= ACTIVE_TIMEOUT ->
              exists r', do_pass now r' data s = hand_over (p_id q) s) /\
   ((forall q, In q (dict_values (participants s)) -> p_id q <> pid ->
               ~ now - p_last_seen q <= ACTIVE_TIMEOUT) ->
    forall q, In q (dict_values (participants s)) -> p_id q <> pid ->
              exists r', do_pass now r' data s = hand_over (p_id q) s)).
Proof.
  intros Hid Ht [q0 [Hq0 Nq0]].
  assert (other_parts pid s <> []) as Ho.
  { intros Z. assert (In q0 (other_parts pid s)) as O
        by (apply In_other_parts; auto).
    rewrite Z in O. exact O. }
  destruct (string_dec pid "") as [->|Hp].
  { left. split; [reflexivity|]. unfold do_pass. now rewrite Hid. }
  right. split; [exact Hp|].
  assert (present (pass_id data) = Some pid) as Hid'
      by (rewrite Hid; now apply present_Some).
  split; [|split].
  - destruct (do_pass_no_target now r data s Hid' Ht Ho) as [p [R [I D]]].
    assert (In p (other_parts pid s)) as O.
    { unfold pool in I. destruct (active now pid s) eqn:A; [assumption|].
      rewrite <- A in I. now apply In_active in I. }
    apply In_other_parts in O as [Hp1 Hp2].
    exists p. rewrite D. simpl.
    split; [reflexivity|]. split; [reflexivity|]. split; [reflexivity|].
    split; [exact Hp1|]. split; [exact Hp2|].
    intros [q [Hq [Nq Aq]]].
    assert (In q (active now pid s)) as Ia by (apply In_active_spec; auto).
    unfold pool in I. destruct (active now pid s) eqn:E; [contradiction|].
    rewrite <- E in I. apply In_active_spec in I as (_ & _ & Ap).
    split; [exact Ap|].
    intros W q' Hq' Eq. rewrite (@wf_same_id s q' p W Hq' Hp1 Eq). exact Ap.
  - intros q Hq Nq Aq. apply (@do_pass_draws now data s pid q Hid' Ht).
    assert (In q (active now pid s)) as Ia by (apply In_active_spec; auto).
    unfold pool. destruct (active now pid s) eqn:E; [contradiction|]. exact Ia.
  - intros Nall q Hq Nq. apply (@do_pass_draws now data s pid q Hid' Ht).
    unfold pool. destruct (active now pid s) as [|a l] eqn:E.
    + apply In_other_parts; auto.
    + exfalso. assert (In a (active now pid s)) as Ia by (rewrite E; now left).
      apply In_active_spec in Ia as (Ha & Na & Aa). exact (Nall a Ha Na Aa).
Qed.

Lemma pass_prefers_active_witness :
  exists p,
    do_pass 120 0 {| pass_id := Some "A"; pass_target_id := None |} Scenario.three
      = hand_over (p_id p) Scenario.three /\
    In p (dict_values (participants Scenario.three)) /\
    p_id p <> "A" /\
    120 - p_last_seen p <= ACTIVE_TIMEOUT.
Proof.
  assert (In (Scenario.participant "B" 95) (dict_values (participants Scenario.three)))
    as HB by (simpl; auto).
  assert (p_id (Scenario.participant "B" 95) <> "A") as NB by (simpl; discriminate).
  assert (120 - p_last_seen (Scenario.participant "B" 95) <= ACTIVE_TIMEOUT) as AB
      by (apply Qle_bool_iff; reflexivity).
  destruct (@pass_prefers_active 120 0 {| pass_id := Some "A"; pass_target_id := None |}
              Scenario.three "A" eq_refl eq_refl
              (ex_intro _ (Scenario.participant "B" 95) (conj HB NB)))
    as [[E _]|[_ [[p (D & _ & _ & I & N & A)] _]]].
  - discriminate E.
  - exists p. split; [exact D|]. split; [exact I|]. split; [exact N|].
    refine (proj1 (A _)). exists (Scenario.participant "B" 95).
    split; [exact HB|]. split; [exact NB|exact AB].
Defined.

(** With A and B active and C inactive, a pass by A goes to B whatever
    the draw. *)
Lemma pass_three_goes_to_B (r : nat) :
  snd (do_pass 120 r {| pass_id := Some "A"; pass_target_id := None |} Scenario.three)
  = jsonify (JOkNewHolder "B").
Proof.
  assert (pool 120 "A" Scenario.three = [Scenario.participant "B" 95]) as P
    by reflexivity.
  unfold do_pass. cbn [pass_id pass_target_id present PyStr.truthy].
  replace (other_parts "A" Scenario.three)
    with [Scenario.participant "C" 0; Scenario.participant "B" 95] by reflexivity.
  now rewrite P, random_choice_singleton.
Qed.

(** C10 as stated fails at the empty requester id: with other
    participants registered the pass is refused with "id required". *)
Lemma pass_with_empty_id_refused :
  other_parts "" Scenario.three <> [] /\
  do_pass 120 0 {| pass_id := Some ""; pass_target_id := None |} Scenario.three
  = (Scenario.three, {| status := 400; body := JError "id required" |}).
Proof. split; [simpl; discriminate | reflexivity]. Qed.

(** C10, amended. [do_pass] reads neither [holder_id] nor whether the
    requester is registered: for every non-empty requester id, a pass
    without target succeeds when some other participant is registered,
    and a pass with a target succeeds when the target is registered and
    is not the requester. The answer is 200 with the new holder, who is
    written into the game state, and [seq] goes up by one. *)
Theorem pass_needs_no_custody (now : Q) (r : nat) (pid : string)
        (target : option string) (s : State) :
  wf s ->
  pid <> "" ->
  (present target = None /\ other_parts pid s <> []) \/
  (exists t, present target = Some t /\
             dict_mem t (participants s) = true /\ t <> pid) ->
  exists chosen,
    do_pass now r {| pass_id := Some pid; pass_target_id := target |} s
      = hand_over chosen s /\
    snd (do_pass now r {| pass_id := Some pid; pass_target_id := target |} s)
      = {| status := 200; body := JOkNewHolder chosen |} /\
    holder_id (game_state
                 (fst (do_pass now r {| pass_id := Some pid; pass_target_id := target |} s)))
      = Some chosen /\
    seq (game_state
           (fst (do_pass now r {| pass_id := Some pid; pass_target_id := target |} s)))
      = (seq (game_state s) + 1)%Z /\
    (forall t, present target = Some t -> chosen = t).
Proof.
  intros W Hp [[Ht Ho]|[t [Ht [M N]]]].
  - destruct (@do_pass_no_target now r {| pass_id := Some pid; pass_target_id := target |}
                s pid (present_Some Hp) Ht Ho) as [p [_ [_ D]]].
    exists (p_id p). rewrite D. simpl. repeat split.
    intros t E. rewrite Ht in E. discriminate.
  - exists t.
    assert (do_pass now r {| pass_id := Some pid; pass_target_id := target |} s
            = hand_over t s) as D.
    { unfold do_pass. cbn [pass_id pass_target_id]. rewrite (present_Some Hp), Ht.
      pose proof (registered_target_is_other W M N) as Ho.
      destruct (other_parts pid s); [contradiction|].
      rewrite M. apply String.eqb_neq in N. now rewrite N. }
    rewrite D. simpl. repeat split.
    intros t' E. rewrite Ht in E. now injection E.
Qed.

(** Z, who is neither registered nor the holder, passes the turn. *)
Lemma pass_needs_no_custody_witness :
  dict_mem "Z" (participants Scenario.later) = false /\
  holder_id (game_state Scenario.later) = Some "B" /\
  exists chosen,
    snd (do_pass 0 1 {| pass_id := Some "Z"; pass_target_id := None |} Scenario.later)
    = {| status := 200; body := JOkNewHolder chosen |}.
Proof.
  split; [reflexivity|]. split; [reflexivity|].
  destruct (@pass_needs_no_custody 0 1 "Z" None Scenario.later
              (reachable_wf reachable_later))
    as [chosen (_ & R & _)].
  - discriminate.
  - left. split; [reflexivity | simpl; discriminate].
  - exists chosen. exact R.
Defined.

(** C8. A is the only participant and passes without target: the
    state is unchanged, and the answer has status 200 (the number 400
    is the second element of its JSON body). *)
Theorem pass_alone_answers_200 :
  other_parts "A" Scenario.alone = [] /\
  do_pass 120 0 {| pass_id := Some "A"; pass_target_id := None |} Scenario.alone
  = (Scenario.alone,
     {| status := 200;
        body := JArray (JError "no other participants registered") 400 |}).
Proof. split; reflexivity. Qed.
End PassPolicy.

(** ** Blank strings *)

Section StripFacts.
Import PyStr.

Lemma rstrip_empty_iff (s : string) : rstrip s = "" <-> blank s = true.
Proof.
  induction s as [|c r IH]; simpl; [tauto|].
  destruct (rstrip r) eqn:E.
  - destruct (is_space c); simpl.
    + rewrite <- IH. tauto.
    + split; discriminate.
  - split; [discriminate|]. intros B. apply andb_true_iff in B as [_ B].
    apply IH in B. discriminate.
Qed.

Lemma blank_lstrip (s : string) : blank (lstrip s) = blank s.
Proof.
  induction s as [|c r IH]; simpl; [reflexivity|].
  destruct (is_space c) eqn:E; simpl; [assumption|]. now rewrite E.
Qed.

(** [strip] empties exactly the blank strings. *)
Lemma strip_empty_iff (s : string) : strip s = "" <-> blank s = true.
Proof. unfold strip. now rewrite rstrip_empty_iff, blank_lstrip. Qed.

Lemma strip_truthy (s : string) : truthy (strip s) = negb (blank s).
Proof.
  destruct (blank s) eqn:B.
  - apply strip_empty_iff in B. now rewrite B.
  - destruct (strip s) eqn:E; [|reflexivity].
    apply strip_empty_iff in E. congruence.
Qed.
End StripFacts.

(** ** Sequence numbers and custody *)

Section GameFacts.
Import Client.

Lemma dict_update_doc_of (g0 g : GameState) : dict_update g0 (doc_of g) = g.
Proof. now destruct g. Qed.

(** What the server does with the request a client pushes. *)
Lemma update_game_pushed id g s s' :
  Server.update_game (update_game_request id g) s = (s', Server.jsonify Server.JOk) ->
  Server.game_state s' = g.
Proof.
  intros U. apply update_game_accepted in U as (pid & gs & _ & G & _ & E & _).
  simpl in G. injection G as <-. now rewrite E, dict_update_doc_of.
Qed.

Lemma differs_false_iff (a b : option string) : Server.differs a b = false <-> a = b.
Proof.
  unfold Server.differs. rewrite negb_false_iff. apply (key_eqb_eq a b).
Qed.

Lemma differs_true_iff (a b : option string) : Server.differs a b = true <-> a <> b.
Proof.
  unfold Server.differs. rewrite negb_true_iff. apply (key_eqb_neq a b).
Qed.

(** [start_sentence] on a word that is not blank. *)
Lemma start_sentence_applies uuid word n :
  PyStr.blank word = false ->
  start_sentence uuid word n =
    (set_game_state
       {| game_id := uuid; seq := seq (game_state n) + 1;
          sentence := PyStr.strip word;
          holder_id := Some (node_id n); completed := false |} n,
     [PostUpdateGame (node_id n)
        {| game_id := uuid; seq := seq (game_state n) + 1;
           sentence := PyStr.strip word;
           holder_id := Some (node_id n); completed := false |}],
     Started).
Proof.
  intros B. unfold start_sentence. rewrite strip_truthy, B. reflexivity.
Qed.

Lemma start_sentence_blank uuid word n :
  PyStr.blank word = true -> start_sentence uuid word n = (n, [], Empty).
Proof.
  intros B. unfold start_sentence. rewrite strip_truthy, B. reflexivity.
Qed.

(** The pushes of the three actions carry the local [seq] plus one. *)
Lemma start_sentence_push uuid word n n' calls said id g :
  start_sentence uuid word n = (n', calls, said) ->
  In (PostUpdateGame id g) calls ->
  id = node_id n /\ g = game_state n' /\ seq g = (seq (game_state n) + 1)%Z.
Proof.
  unfold start_sentence.
  destruct (negb (PyStr.truthy (PyStr.strip word))).
  - intros [= <- <- <-] [].
  - intros [= <- <- <-] [[= <- <-]|[]]. now repeat split.
Qed.

Lemma add_word_push reply word n n' calls said id g :
  add_word reply word n = (n', calls, said) ->
  In (PostUpdateGame id g) calls ->
  id = node_id n /\ g = game_state n' /\
  seq g = (seq (game_state (sync_state_from_server reply n)) + 1)%Z.
Proof.
  unfold add_word.
  set (n0 := sync_state_from_server reply n).
  assert (node_id n0 = node_id n) as Eid by (unfold n0; now destruct reply).
  destruct (Server.differs _ _).
  { intros [= <- <- <-] [[=]|[]]. }
  destruct (completed (game_state n0)).
  { intros [= <- <- <-] [[=]|[]]. }
  destruct (negb (PyStr.truthy (PyStr.strip word))).
  { intros [= <- <- <-] [[=]|[]]. }
  intros [= <- <- <-] [[=]|[[= <- <-]|[]]]. simpl. now repeat split.
Qed.

Lemma end_sentence_push n n' calls said id g :
  end_sentence n = (n', calls, said) ->
  In (PostUpdateGame id g) calls ->
  id = node_id n /\ g = game_state n' /\ seq g = (seq (game_state n) + 1)%Z.
Proof.
  unfold end_sentence.
  destruct (Server.differs _ _).
  { intros [= <- <- <-] []. }
  destruct (completed (game_state n)).
  { intros [= <- <- <-] []. }
  intros [= <- <- <-] [[= <- <-]|[]]. now repeat split.
Qed.
End GameFacts.

Section TurnCustody.
Import Client.

(** C2 as stated fails for the mutations that arrive as [update_game]:
    node A starts a sentence from its stale local copy ([seq] 0) while
    the server is at [seq] 5; the push is accepted and the server's
    [seq] becomes 1, not 6. *)
Lemma stale_start_sets_seq_back :
  start_sentence "g1" "Hello" Scenario.node_a
  = (set_game_state Scenario.started Scenario.node_a,
     [PostUpdateGame "A" Scenario.started], Started) /\
  snd (Server.update_game (update_game_request "A" Scenario.started) Scenario.later)
  = Server.jsonify Server.JOk /\
  seq (Server.game_state Scenario.later) = 5%Z /\
  seq (Server.game_state
         (fst (Server.update_game (update_game_request "A" Scenario.started)
                                  Scenario.later))) = 1%Z.
Proof. repeat split. Qed.

(** C2, amended. An accepted pass raises the server's [seq] by exactly
    one. An accepted [update_game] gives the server the [seq] of the
    posted state (its own when the posted state has none). The state
    that [start], [add] and [end] push carries the client's local
    [seq] plus one ([add] counts from the copy it has just pulled), and
    when that push is accepted the server's state is the pushed one. *)
Theorem seq_after_accepted_mutation :
  (forall now r data s s' chosen,
      Server.do_pass now r data s = (s', Server.jsonify (Server.JOkNewHolder chosen)) ->
      seq (Server.game_state s') = (seq (Server.game_state s) + 1)%Z) /\
  (forall data s s',
      Server.update_game data s = (s', Server.jsonify Server.JOk) ->
      exists gs,
        Server.ug_game_state data = Some gs /\
        seq (Server.game_state s') =
          match doc_seq gs with
          | Some k => k
          | None => seq (Server.game_state s)
          end) /\
  (forall uuid word n n' calls said id g,
      start_sentence uuid word n = (n', calls, said) ->
      In (PostUpdateGame id g) calls ->
      seq g = (seq (game_state n) + 1)%Z) /\
  (forall reply word n n' calls said id g,
      add_word reply word n = (n', calls, said) ->
      In (PostUpdateGame id g) calls ->
      seq g = (seq (game_state (sync_state_from_server reply n)) + 1)%Z) /\
  (forall n n' calls said id g,
      end_sentence n = (n', calls, said) ->
      In (PostUpdateGame id g) calls ->
      seq g = (seq (game_state n) + 1)%Z) /\
  (forall id g s s',
      Server.update_game (update_game_request id g) s = (s', Server.jsonify Server.JOk) ->
      Server.game_state s' = g).
Proof.
  split; [|split; [|split; [|split; [|split]]]].
  - intros now r data s s' chosen D. apply do_pass_accepted in D. now subst.
  - intros data s s' U.
    apply update_game_accepted in U as (pid & gs & _ & G & _ & E & _).
    exists gs. split; [exact G|]. rewrite E. reflexivity.
  - intros uuid word n n' calls said id g S I.
    now destruct (@start_sentence_push _ _ _ _ _ _ _ _ S I) as (_ & _ & ?).
  - intros reply word n n' calls said id g S I.
    now destruct (@add_word_push _ _ _ _ _ _ _ _ S I) as (_ & _ & ?).
  - intros n n' calls said id g S I.
    now destruct (@end_sentence_push _ _ _ _ _ _ S I) as (_ & _ & ?).
  - intros id g s s'. apply update_game_pushed.
Qed.

(** A pass on the three-participant state takes [seq] from 3 to 4. *)
Lemma seq_after_accepted_mutation_witness :
  seq (Server.game_state
         (fst (Server.do_pass 120 0
                 {| Server.pass_id := Some "A"; Server.pass_target_id := None |}
                 Scenario.three))) = 4%Z.
Proof.
  destruct seq_after_accepted_mutation as [P _].
  apply (P 120%Q 0%nat {| Server.pass_id := Some "A"; Server.pass_target_id := None |}
           Scenario.three _ "B").
  reflexivity.
Defined.

(** C4. A posts a state whose holder is B: the server's state and its
    broadcasts are unchanged, and the answer has status 200 (the
    number 403 is the second element of its JSON body). *)
Theorem update_game_mismatch_answers_200 :
  doc_get_holder_id (doc_of (Scenario.game 4 "Once upon a" (Some "B") false)) <> Some "A" /\
  Server.update_game
    {| Server.ug_id := Some "A";
       Server.ug_game_state :=
         Some (doc_of (Scenario.game 4 "Once upon a" (Some "B") false)) |}
    Scenario.three
  = (Scenario.three,
     {| Server.status := 200;
        Server.body := Server.JArray (Server.JError "sender must be the holder") 403 |}).
Proof. split; [discriminate | reflexivity]. Qed.

(** C6 as stated fails for [add]: A's local copy says B holds, the
    pull brings a state in which A holds, and the word is added and
    pushed. *)
Lemma add_word_pulls_before_gate :
  holder_id (game_state Scenario.node_a_waiting) <> Some (node_id Scenario.node_a_waiting) /\
  add_word (Some (Scenario.game 3 "Once upon" (Some "A") false)) "a"
           Scenario.node_a_waiting
  = (set_game_state (Scenario.game 4 "Once upon a" (Some "A") false) Scenario.node_a,
     [GetState; PostUpdateGame "A" (Scenario.game 4 "Once upon a" (Some "A") false)],
     Added) /\
  game_state Scenario.node_a_waiting <> Scenario.game 4 "Once upon a" (Some "A") false.
Proof. split; [discriminate|]. split; [reflexivity|discriminate]. Qed.

(** C6, amended. [end] changes nothing and sends nothing when the
    local holder is not this node or the local sentence is completed.
    [add] first pulls: the local copy becomes the server's state when
    the pull succeeds; when in that refreshed copy the holder is not
    this node or the sentence is completed, nothing else changes and
    nothing is pushed; when the pull fails the local state is
    unchanged. *)
Theorem custody_gate (n : ClientNode) (reply : option GameState) (word : string) :
  (holder_id (game_state n) <> Some (node_id n) \/ completed (game_state n) = true ->
   exists said, end_sentence n = (n, [], said)) /\
  (holder_id (game_state (sync_state_from_server reply n)) <> Some (node_id n) \/
   completed (game_state (sync_state_from_server reply n)) = true ->
   exists said,
     add_word reply word n = (sync_state_from_server reply n, [GetState], said)) /\
  (holder_id (game_state n) <> Some (node_id n) \/ completed (game_state n) = true ->
   exists said, add_word None word n = (n, [GetState], said)).
Proof.
  assert (forall reply,
    holder_id (game_state (sync_state_from_server reply n)) <> Some (node_id n) \/
    completed (game_state (sync_state_from_server reply n)) = true ->
    exists said,
      add_word reply word n = (sync_state_from_server reply n, [GetState], said)) as A.
  { intros rp G. unfold add_word.
    assert (node_id (sync_state_from_server rp n) = node_id n) as ->
        by now destruct rp.
    destruct (Server.differs _ _) eqn:D; [eauto|].
    apply differs_false_iff in D.
    destruct G as [G|G]; [contradiction|]. rewrite G. eauto. }
  split; [|split].
  - intros G. unfold end_sentence.
    destruct (Server.differs _ _) eqn:D; [eauto|].
    apply differs_false_iff in D.
    destruct G as [G|G]; [contradiction|]. rewrite G. eauto.
  - apply A.
  - apply (A None).
Qed.

Lemma custody_gate_witness :
  (exists said, end_sentence Scenario.node_a_waiting
                = (Scenario.node_a_waiting, [], said)) /\
  (exists said, add_word None "a" Scenario.node_a_waiting
                = (Scenario.node_a_waiting, [GetState], said)).
Proof.
  destruct (custody_gate Scenario.node_a_waiting None "a") as (E & _ & A).
  split; [apply E | apply A]; left; discriminate.
Defined.

(** C7 as stated fails on the sentence: the word is stored without the
    whitespace around it. *)
Lemma start_sentence_trims_word :
  PyStr.blank " Hello " = false /\
  sentence (game_state (fst (fst (start_sentence "g1" " Hello " Scenario.node_a))))
  = "Hello" /\
  "Hello" <> " Hello ".
Proof. split; [reflexivity|]. split; [reflexivity|discriminate]. Qed.

(** C7, amended. A blank word (empty or whitespace only) changes
    nothing and sends nothing. For any other word and any prior state,
    the game state becomes: the new [game_id], [seq] plus one, the word
    without its surrounding whitespace as sentence, this node as
    holder, not completed; and that state is pushed. *)
Theorem start_sentence_spec (uuid word : string) (n : ClientNode) :
  (PyStr.blank word = true -> start_sentence uuid word n = (n, [], Empty)) /\
  (PyStr.blank word = false ->
   exists n',
     start_sentence uuid word n
     = (n', [PostUpdateGame (node_id n) (game_state n')], Started) /\
     game_id (game_state n') = uuid /\
     seq (game_state n') = (seq (game_state n) + 1)%Z /\
     sentence (game_state n') = PyStr.strip word /\
     holder_id (game_state n') = Some (node_id n) /\
     completed (game_state n') = false /\
     node_id n' = node_id n /\ profile n' = profile n /\
     peers n' = peers n /\ connections n' = connections n).
Proof.
  split.
  - apply start_sentence_blank.
  - intros B. rewrite (@start_sentence_applies uuid word n B).
    exists (set_game_state
              {| game_id := uuid; seq := seq (game_state n) + 1;
                 sentence := PyStr.strip word;
                 holder_id := Some (node_id n); completed := false |} n).
    simpl. repeat split.
Qed.

Lemma start_sentence_spec_witness :
  start_sentence "g1" "   " Scenario.node_a = (Scenario.node_a, [], Empty) /\
  exists n',
    start_sentence "g1" "Hello" Scenario.node_a
    = (n', [PostUpdateGame "A" (game_state n')], Started) /\
    seq (game_state n') = 1%Z.
Proof.
  split.
  - now apply (start_sentence_spec "g1" "   " Scenario.node_a).
  - destruct (start_sentence_spec "g1" "Hello" Scenario.node_a) as [_ S].
    destruct (S eq_refl) as (n' & E & _ & Q & _).
    exists n'. split; [exact E | exact Q].
Defined.
End TurnCustody.

(** ** Normalisation *)

Section NormFacts.
Import PyStr.

Lemma lstrip_blank_app (a s : string) : blank a = true -> lstrip (a ++ s) = lstrip s.
Proof.
  induction a as [|c r IH]; simpl; [reflexivity|].
  intros B. apply andb_true_iff in B as [C B]. rewrite C. now apply IH.
Qed.

Lemma rstrip_app_blank (s b : string) : blank b = true -> rstrip (s ++ b) = rstrip s.
Proof.
  intros B. induction s as [|c r IH]; simpl.
  - now apply rstrip_empty_iff.
  - now rewrite IH.
Qed.

Lemma strip_app_blank (s b : string) : blank b = true -> strip (s ++ b) = strip s.
Proof.
  intros B. unfold strip. induction s as [|c r IH]; simpl.
  - apply rstrip_empty_iff. now rewrite blank_lstrip.
  - destruct (is_space c); [assumption|].
    change (String c (r ++ b)) with (String c r ++ b). now apply rstrip_app_blank.
Qed.

(** Whitespace around a string does not change what [strip] returns. *)
Lemma strip_padded (a s b : string) :
  blank a = true -> blank b = true -> strip (a ++ s ++ b) = strip s.
Proof.
  intros A B. unfold strip. rewrite lstrip_blank_app by exact A.
  now apply strip_app_blank.
Qed.

Lemma lower_char_idem (c : ascii) : lower_char (lower_char c) = lower_char c.
Proof. destruct c as [[] [] [] [] [] [] [] []]; reflexivity. Qed.

Lemma is_space_lower_char (c : ascii) : is_space (lower_char c) = is_space c.
Proof. destruct c as [[] [] [] [] [] [] [] []]; reflexivity. Qed.

Lemma lower_idem (s : string) : lower (lower s) = lower s.
Proof. induction s as [|c r IH]; simpl; [reflexivity|]. now rewrite lower_char_idem, IH. Qed.

Lemma lstrip_lower (s : string) : lstrip (lower s) = lower (lstrip s).
Proof.
  induction s as [|c r IH]; simpl; [reflexivity|].
  rewrite is_space_lower_char. now destruct (is_space c).
Qed.

Lemma rstrip_lower (s : string) : rstrip (lower s) = lower (rstrip s).
Proof.
  induction s as [|c r IH]; simpl; [reflexivity|].
  rewrite IH, is_space_lower_char.
  destruct (rstrip r); simpl; [now destruct (is_space c)|reflexivity].
Qed.

Lemma strip_lower (s : string) : strip (lower s) = lower (strip s).
Proof. unfold strip. now rewrite lstrip_lower, rstrip_lower. Qed.

(** [norm] does not see the case of the letters... *)
Lemma norm_lower (s : string) : norm (PyStr (lower s)) = norm (PyStr s).
Proof. unfold norm. simpl. now rewrite strip_lower, lower_idem. Qed.

(** ... nor the whitespace around the string. *)
Lemma norm_padded (a s b : string) :
  blank a = true -> blank b = true -> norm (PyStr (a ++ s ++ b)) = norm (PyStr s).
Proof. intros A B. unfold norm. simpl. now rewrite strip_padded. Qed.

Example norm_example :
  norm (PyStr "  rock CLIMBING") = norm (PyStr "Rock Climbing  ").
Proof. reflexivity. Qed.
End NormFacts.

(** ** The responder's check *)

Section VerifyFacts.
Import Client.

(** [list_contains] on a list: some item has the normal form of the query. *)
Lemma list_contains_list (l : list string) (query : pyval) :
  list_contains (AList l) query = true <->
  exists item, In item l /\ norm (PyStr item) = norm query.
Proof.
  simpl. rewrite existsb_exists. split; intros [x [I E]]; exists x.
  - now apply String.eqb_eq in E.
  - split; [assumption|]. now apply String.eqb_eq.
Qed.

Lemma list_contains_str (s : string) (query : pyval) :
  list_contains (AStr s) query = true <-> norm (PyStr s) = norm query.
Proof. simpl. apply String.eqb_eq. Qed.

(** For a field the profile has, the check succeeds exactly when the
    attribute matches the value in normal form. *)
Lemma verify_match_string n field s value :
  dict_get field (profile n) = Some (AStr s) ->
  (verify_match n (Some field) value = true <-> norm (PyStr s) = norm value).
Proof. intros G. unfold verify_match. rewrite G. apply String.eqb_eq. Qed.

Lemma verify_match_list n field l value :
  dict_get field (profile n) = Some (AList l) ->
  (verify_match n (Some field) value = true <->
   exists item, In item l /\ norm (PyStr item) = norm value).
Proof. intros G. unfold verify_match. rewrite G. apply list_contains_list. Qed.

(** For a field the profile does not have, the attribute read is
    [None], and the check succeeds when the value normalises to the
    text of [None]. *)
Lemma verify_match_missing n field value :
  (forall f, field = Some f -> dict_get f (profile n) = None) ->
  (verify_match n field value = true <-> norm value = "none").
Proof.
  intros G. unfold verify_match.
  assert (match field with Some f => dict_get f (profile n) | None => None end = None)
    as -> by (destruct field; auto).
  rewrite String.eqb_eq. change (norm PyNone) with "none". split; congruence.
Qed.

(** The reply to a verify message carries the result of the check. *)
Lemma verify_reply io n msg :
  r_line1 io = RecvMsg msg -> m_type msg = Some "verify" -> r_write1 io = true ->
  exists rest,
    snd (handle_client io n)
    = verify_result_msg (verify_match n (m_field msg) (m_value msg)) :: rest.
Proof.
  intros L T W. unfold handle_client. rewrite L, T, W.
  rewrite key_eqb_refl. cbn [negb].
  destruct (verify_match n (m_field msg) (m_value msg)); [|now exists []].
  destruct (r_line2 io) as [| | |msg2]; try now exists [].
  destruct (key_eqb (m_type msg2) (Some "connect")); [|now exists []].
  destruct (record_connection (m_profile msg2) n); [|now exists []].
  destruct (r_write2 io); eexists; reflexivity.
Qed.

(** C5. A's profile has no attribute "nickname"; a verify message
    claiming nickname = "None" is answered with ok = true. *)
Theorem verify_of_missing_field_succeeds :
  dict_get "nickname" (profile Scenario.node_a) = None /\
  snd (handle_client
         {| r_line1 := RecvMsg {| m_type := Some "verify"; m_field := Some "nickname";
                                  m_value := PyStr "None"; m_ok := false;
                                  m_profile := None |};
            r_write1 := true; r_line2 := RecvEof; r_write2 := true |}
         Scenario.node_a)
  = [verify_result_msg true].
Proof. split; reflexivity. Qed.

(** A verify message with neither field nor value passes as well. *)
Lemma verify_of_nothing_succeeds (n : ClientNode) :
  verify_match n None PyNone = true.
Proof. reflexivity. Qed.
End VerifyFacts.

(** ** Handshake and connection registry *)

Section HandshakeFacts.
Import Client.

Lemma record_connection_Some their k n :
  connection_key their = Some k ->
  record_connection (Some their) n
  = Some (set_connections (dict_set k their (connections n)) n).
Proof. intros E. unfold record_connection. now rewrite E. Qed.

Lemma record_connection_inv incoming n n1 :
  record_connection incoming n = Some n1 ->
  exists their k,
    incoming = Some their /\ connection_key their = Some k /\
    n1 = set_connections (dict_set k their (connections n)) n.
Proof.
  unfold record_connection. destruct incoming as [p|]; [|discriminate].
  destruct (connection_key p) as [k|] eqn:E; [|discriminate].
  intros [= <-]. now exists p, k.
Qed.

(** Initiator: a completed exchange records the peer. *)
Lemma initiator_records io n k their :
  initiator_completed io n k their ->
  fst (fst (attempt_random_connection io n))
  = set_connections (dict_set k their (connections n)) n.
Proof.
  intros (C & B & Hc & W1 & (resp & L1 & Ok) & W2 & (ack & L2 & P) & Key).
  unfold attempt_random_connection.
  destruct (@random_choice_In _ (i_peer io) (candidates n) C) as [peer [-> _]].
  destruct (@random_choice_In _ (i_field io) fields) as [field [-> _]];
    [discriminate|].
  rewrite strip_truthy, B, Hc, W1, L1, Ok, W2, L2, P. cbn [negb].
  now rewrite (@record_connection_Some their k n Key).
Qed.

(** Initiator: the registry changes only through a completed exchange. *)
Lemma initiator_changes_only_when_completed io n :
  fst (fst (attempt_random_connection io n)) = n \/
  exists k their, initiator_completed io n k their.
Proof.
  unfold attempt_random_connection.
  destruct (random_choice (i_peer io) (candidates n)) as [peer|] eqn:R; [|now left].
  destruct (random_choice (i_field io) fields) as [field|]; [|now left].
  rewrite strip_truthy.
  destruct (PyStr.blank (i_input io)) eqn:B; [now left|]. cbn [negb].
  destruct (i_connect io) eqn:Hc; [|now left]. cbn [negb].
  destruct (i_write1 io) eqn:W1; [|now left]. cbn [negb].
  destruct (i_line1 io) as [| | |resp] eqn:L1; try now left.
  destruct (m_ok resp) eqn:Ok; [|now left].
  destruct (i_write2 io) eqn:W2; [|now left]. cbn [negb].
  destruct (i_line2 io) as [| | |ack] eqn:L2; try now left.
  destruct (record_connection (m_profile ack) n) as [n1|] eqn:Rc; [|now left].
  right. apply record_connection_inv in Rc as (their & k & P & Key & _).
  exists k, their. unfold initiator_completed. repeat split; eauto.
  intros E. rewrite E in R. discriminate.
Qed.

(** Responder: a connect message is recorded, after a verified claim
    or as first message. *)
Lemma responder_records io n k their :
  responder_verified io n k their \/ responder_direct io k their ->
  fst (handle_client io n) = set_connections (dict_set k their (connections n)) n.
Proof.
  unfold handle_client.
  intros [((msg & L1 & T & M) & W1 & (msg2 & L2 & T2 & P) & Key)
         |((msg & L1 & T & P) & Key)].
  - rewrite L1, T, M, W1, L2, T2, P, (@record_connection_Some their k n Key).
    reflexivity.
  - rewrite L1, T, P, (@record_connection_Some their k n Key). reflexivity.
Qed.

(** Responder: the registry changes only in those two ways. *)
Lemma responder_changes_only_on_connect io n :
  fst (handle_client io n) = n \/
  exists k their, responder_verified io n k their \/ responder_direct io k their.
Proof.
  unfold handle_client.
  destruct (r_line1 io) as [| | |msg] eqn:L1; try now left.
  destruct (key_eqb (m_type msg) (Some "verify")) eqn:T.
  - apply (key_eqb_eq (m_type msg) (Some "verify")) in T.
    destruct (r_write1 io) eqn:W1; [|now left]. cbn [negb].
    destruct (verify_match n (m_field msg) (m_value msg)) eqn:M; [|now left].
    destruct (r_line2 io) as [| | |msg2] eqn:L2; try now left.
    destruct (key_eqb (m_type msg2) (Some "connect")) eqn:T2; [|now left].
    apply (key_eqb_eq (m_type msg2) (Some "connect")) in T2.
    destruct (record_connection (m_profile msg2) n) as [n1|] eqn:Rc; [|now left].
    right. apply record_connection_inv in Rc as (their & k & P & Key & _).
    exists k, their. left. unfold responder_verified. repeat split; eauto.
  - destruct (key_eqb (m_type msg) (Some "connect")) eqn:T2; [|now left].
    apply (key_eqb_eq (m_type msg) (Some "connect")) in T2.
    destruct (record_connection (m_profile msg) n) as [n1|] eqn:Rc; [|now left].
    right. apply record_connection_inv in Rc as (their & k & P & Key & _).
    exists k, their. right. unfold responder_direct. eauto.
Qed.

(** The failures of the claim, one by one, on the initiator. *)
Lemma initiator_failure_keeps_registry io n :
  i_connect io = false \/ i_write1 io = false \/
  i_line1 io = RecvFail \/ i_line1 io = RecvEof \/ i_line1 io = RecvMalformed \/
  (exists resp, i_line1 io = RecvMsg resp /\ m_ok resp = false) \/
  i_write2 io = false \/
  i_line2 io = RecvFail \/ i_line2 io = RecvEof \/ i_line2 io = RecvMalformed ->
  fst (fst (attempt_random_connection io n)) = n.
Proof.
  intros F.
  destruct (initiator_changes_only_when_completed io n)
    as [E|(k & their & _ & _ & Hc & W1 & (resp & L1 & Ok) & W2 & (ack & L2 & _) & _)];
    [exact E|].
  exfalso.
  destruct F as [F|[F|[F|[F|[F|[(r & F & O)|[F|[F|[F|F]]]]]]]]]; try congruence.
Qed.

(** ... and on the responder, before a connect message has arrived. *)
Lemma responder_failure_keeps_registry io n :
  r_line1 io = RecvFail \/ r_line1 io = RecvEof \/ r_line1 io = RecvMalformed \/
  (exists msg, r_line1 io = RecvMsg msg /\ m_type msg = Some "verify" /\
     (verify_match n (m_field msg) (m_value msg) = false \/ r_write1 io = false \/
      r_line2 io = RecvFail \/ r_line2 io = RecvEof \/ r_line2 io = RecvMalformed)) ->
  fst (handle_client io n) = n.
Proof.
  intros F.
  destruct (responder_changes_only_on_connect io n)
    as [E|(k & their & [((msg & L1 & T & M) & W1 & (msg2 & L2 & _) & _)
                       |((msg & L1 & T & _) & _)])];
    [exact E| |]; exfalso.
  - destruct F as [F|[F|[F|(m & F & T' & G)]]]; try congruence.
    rewrite L1 in F. injection F as <-.
    destruct G as [G|[G|[G|[G|G]]]]; congruence.
  - destruct F as [F|[F|[F|(m & F & T' & G)]]]; congruence.
Qed.
End HandshakeFacts.

Section Handshake.
Import Client.

(** C3 as stated fails on the responder: a stream whose first message
    is connect, with no verify exchange at all, gets its profile
    recorded and a connect_ack back. *)
Lemma connect_without_verify_is_recorded :
  handle_client
    {| r_line1 := RecvMsg (connect_msg Scenario.profile_m);
       r_write1 := true; r_line2 := RecvEof; r_write2 := true |}
    Scenario.node_a
  = (set_connections [(Some "M", Scenario.profile_m)] Scenario.node_a,
     [connect_ack_msg (full_profile Scenario.node_a)]).
Proof. reflexivity. Qed.

(** The responder records before it writes connect_ack: the entry
    stays when that write fails. *)
Lemma responder_records_before_ack io n k their :
  responder_verified io n k their -> r_write2 io = false ->
  handle_client io n
  = (set_connections (dict_set k their (connections n)) n, [verify_result_msg true]).
Proof.
  intros ((msg & L1 & T & M) & W1 & (msg2 & L2 & T2 & P) & Key) W2.
  unfold handle_client.
  rewrite L1, T, M, W1, L2, T2, P, (@record_connection_Some their k n Key), W2.
  reflexivity.
Qed.

(** C3, amended. The initiator writes an entry exactly when the whole
    exchange completed: verify sent, a reply with ok = true, connect
    sent, a reply carrying a profile. The responder writes an entry
    exactly when a connect message carrying a profile arrived, either
    after a verify it answered with ok = true or as the first message
    of the stream (no verify exchange), whether or not its connect_ack
    goes out. In every other case the registry of that side is
    unchanged: on the initiator a connection error, a failed write, a
    timeout, an end of stream, a malformed reply or ok = false; on the
    responder a failed or malformed first read, a claim that does not
    match, a failed write of the result, or a failed or malformed read
    of the second message. *)
Theorem registry_written_iff_exchange (n : ClientNode) :
  (forall io k their,
      initiator_completed io n k their ->
      fst (fst (attempt_random_connection io n))
      = set_connections (dict_set k their (connections n)) n) /\
  (forall io,
      (forall k their, ~ initiator_completed io n k their) ->
      fst (fst (attempt_random_connection io n)) = n) /\
  (forall io k their,
      responder_verified io n k their \/ responder_direct io k their ->
      fst (handle_client io n)
      = set_connections (dict_set k their (connections n)) n) /\
  (forall io,
      (forall k their,
          ~ responder_verified io n k their /\ ~ responder_direct io k their) ->
      fst (handle_client io n) = n) /\
  (forall io,
      i_connect io = false \/ i_write1 io = false \/
      i_line1 io = RecvFail \/ i_line1 io = RecvEof \/ i_line1 io = RecvMalformed \/
      (exists resp, i_line1 io = RecvMsg resp /\ m_ok resp = false) \/
      i_write2 io = false \/
      i_line2 io = RecvFail \/ i_line2 io = RecvEof \/ i_line2 io = RecvMalformed ->
      fst (fst (attempt_random_connection io n)) = n) /\
  (forall io,
      r_line1 io = RecvFail \/ r_line1 io = RecvEof \/ r_line1 io = RecvMalformed \/
      (exists msg, r_line1 io = RecvMsg msg /\ m_type msg = Some "verify" /\
         (verify_match n (m_field msg) (m_value msg) = false \/ r_write1 io = false \/
          r_line2 io = RecvFail \/ r_line2 io = RecvEof \/
          r_line2 io = RecvMalformed)) ->
      fst (handle_client io n) = n).
Proof.
  split; [|split; [|split; [|split; [|split]]]].
  - intros io k their. apply initiator_records.
  - intros io N.
    destruct (initiator_changes_only_when_completed io n) as [E|(k & their & C)];
      [exact E | destruct (N k their C)].
  - intros io k their. apply responder_records.
  - intros io N.
    destruct (responder_changes_only_on_connect io n) as [E|(k & their & [C|C])];
      [exact E | destruct (N k their) as [V _]; destruct (V C)
       | destruct (N k their) as [_ D]; destruct (D C)].
  - intros io. apply initiator_failure_keeps_registry.
  - intros io. apply responder_failure_keeps_registry.
Qed.

(** A asks B, B confirms and answers the connect: A records B. *)
Lemma registry_written_iff_exchange_witness :
  connections
    (fst (fst (attempt_random_connection
                 {| i_peer := 0; i_field := 0; i_input := "bob";
                    i_connect := true; i_write1 := true;
                    i_line1 := RecvMsg (verify_result_msg true);
                    i_write2 := true;
                    i_line2 := RecvMsg (connect_ack_msg Scenario.profile_b) |}
                 Scenario.node_a_knows_b)))
  = [(Some "B", Scenario.profile_b)].
Proof.
  destruct (registry_written_iff_exchange Scenario.node_a_knows_b) as [I _].
  rewrite (I _ (Some "B") Scenario.profile_b); [reflexivity|].
  unfold initiator_completed. simpl.
  split; [discriminate|]. split; [reflexivity|]. split; [reflexivity|].
  split; [reflexivity|]. split; [eexists; split; reflexivity|].
  split; [reflexivity|]. split; [eexists; split; reflexivity|]. reflexivity.
Defined.
End Handshake.

(** ** Peer table *)

Section PeerTable.
Import Client.

Lemma expired_true_iff now p :
  expired now p = true <-> DISCOVERY_TIMEOUT < now - peer_last_seen p.
Proof.
  unfold expired. rewrite negb_true_iff. split.
  - intros E. apply Qnot_le_lt. intros L. apply Qle_bool_iff in L. congruence.
  - intros L. destruct (Qle_bool _ _) eqn:E; [|reflexivity].
    apply Qle_bool_iff in E. apply Qlt_not_le in L. contradiction.
Qed.

Lemma expired_false_iff now p :
  expired now p = false <-> now - peer_last_seen p <= DISCOVERY_TIMEOUT.
Proof.
  unfold expired. rewrite negb_false_iff. apply Qle_bool_iff.
Qed.

(** The first loop collects the keys of the records found expired at
    the reading taken for them. *)
Lemma In_scan clock i items pid :
  In pid (scan clock i items) <->
  exists j p, nth_error items j = Some (pid, p) /\ expired (clock (i + j)%nat) p = true.
Proof.
  revert i. induction items as [|[k q] rest IH]; intros i; simpl.
  - split; [tauto|]. intros (j & p & N & _). now destruct j.
  - split.
    + destruct (expired (clock i) q) eqn:E.
      * intros [<-|I].
        -- exists 0%nat, q. now rewrite Nat.add_0_r.
        -- apply IH in I as (j & p & N & X). exists (S j), p.
           now rewrite Nat.add_succ_r.
      * intros I. apply IH in I as (j & p & N & X). exists (S j), p.
        now rewrite Nat.add_succ_r.
    + intros (j & p & N & X). destruct j as [|j]; simpl in N.
      * injection N as -> ->. rewrite Nat.add_0_r in X. rewrite X. now left.
      * assert (In pid (scan clock (S i) rest)) as I.
        { apply IH. exists j, p. now rewrite Nat.add_succ_r in X. }
        destruct (expired (clock i) q); [now right|assumption].
Qed.

Lemma dict_get_del_None {V : Type} (k k' : option string) (d : dict (option string) V) :
  dict_get k d = None -> dict_get k (dict_del k' d) = None.
Proof.
  induction d as [|[k0 v0] r IH]; simpl; [trivial|].
  destruct (option_string_eqb k0 k) eqn:E; [discriminate|]. intros G.
  destruct (option_string_eqb k0 k'); [assumption|]. simpl. rewrite E. now apply IH.
Qed.

Lemma delete_all_wf remove ps : dict_wf ps -> dict_wf (delete_all remove ps).
Proof.
  revert ps. induction remove as [|k rest IH]; intros ps W; simpl; [assumption|].
  apply IH. now apply dict_del_wf.
Qed.

Lemma delete_all_None remove ps k :
  dict_get k ps = None -> dict_get k (delete_all remove ps) = None.
Proof.
  revert ps. induction remove as [|k' rest IH]; intros ps G; simpl; [assumption|].
  apply IH. now apply dict_get_del_None.
Qed.

Lemma delete_all_removed remove ps k :
  dict_wf ps -> In k remove -> dict_get k (delete_all remove ps) = None.
Proof.
  revert ps. induction remove as [|k' rest IH]; intros ps W I; simpl; [destruct I|].
  destruct (key_eqb k' k) eqn:E.
  - apply (key_eqb_eq k' k) in E. subst. apply delete_all_None.
    now apply dict_get_del_eq.
  - destruct I as [->|I].
    + rewrite key_eqb_refl in E. discriminate.
    + apply IH; [now apply dict_del_wf|assumption].
Qed.

Lemma delete_all_other remove ps k :
  ~ In k remove -> dict_get k (delete_all remove ps) = dict_get k ps.
Proof.
  revert ps. induction remove as [|k' rest IH]; intros ps N; simpl; [reflexivity|].
  rewrite IH by (intros I; apply N; now right).
  apply dict_get_del_ne. intros ->. apply N. now left.
Qed.

(** In a well-formed table a key sits at one index. *)
Lemma wf_index_unique (ps : dict (option string) PeerRecord) i j pid p q :
  dict_wf ps -> nth_error ps i = Some (pid, p) -> nth_error ps j = Some (pid, q) ->
  i = j.
Proof.
  intros W Hi Hj. unfold dict_wf, dict_keys in W.
  rewrite NoDup_nth_error in W. apply W.
  - rewrite length_map. apply nth_error_Some. congruence.
  - rewrite !nth_error_map, Hi, Hj. reflexivity.
Qed.

(** One sweep, for the record at index [j]. *)
Lemma pruner_at clock n j pid p :
  dict_wf (peers n) -> nth_error (peers n) j = Some (pid, p) ->
  dict_get pid (peers (pruner clock n))
  = if expired (clock j) p then None else Some p.
Proof.
  intros W N. unfold pruner. simpl.
  destruct (expired (clock j) p) eqn:E.
  - apply delete_all_removed; [assumption|].
    apply In_scan. now exists j, p.
  - rewrite delete_all_other.
    + apply In_dict_get; [assumption|]. eapply nth_error_In; eauto.
    + intros I. apply In_scan in I as (j' & q & N' & X). simpl in X.
      pose proof (wf_index_unique _ _ W N N'). subst j'.
      rewrite N in N'. injection N' as <-. congruence.
Qed.

Lemma pruner_wf clock n : dict_wf (peers n) -> dict_wf (peers (pruner clock n)).
Proof. intros W. unfold pruner. simpl. now apply delete_all_wf. Qed.

Lemma sweeps_wf clocks n : dict_wf (peers n) -> dict_wf (peers (sweeps clocks n)).
Proof.
  revert n. induction clocks as [|c rest IH]; intros n W; simpl; [assumption|].
  apply IH. now apply pruner_wf.
Qed.

Lemma dict_get_index (ps : dict (option string) PeerRecord) pid p :
  dict_get pid ps = Some p -> exists j, nth_error ps j = Some (pid, p).
Proof. intros G. apply dict_get_In in G. now apply In_nth_error. Qed.

(** A sweep all of whose readings are within the timeout of the
    record's [last_seen] keeps the record. *)
Lemma pruner_keeps clock n pid p :
  dict_wf (peers n) -> dict_get pid (peers n) = Some p ->
  (forall i, clock i - peer_last_seen p <= DISCOVERY_TIMEOUT) ->
  dict_get pid (peers (pruner clock n)) = Some p.
Proof.
  intros W G Y. destruct (dict_get_index _ _ G) as [j N].
  rewrite (@pruner_at clock n j pid p W N).
  specialize (Y j). apply expired_false_iff in Y. now rewrite Y.
Qed.

Lemma pruner_drops clock n pid p :
  dict_wf (peers n) -> dict_get pid (peers n) = Some p ->
  (forall i, DISCOVERY_TIMEOUT < clock i - peer_last_seen p) ->
  dict_get pid (peers (pruner clock n)) = None.
Proof.
  intros W G Y. destruct (dict_get_index _ _ G) as [j N].
  rewrite (@pruner_at clock n j pid p W N).
  specialize (Y j). apply expired_true_iff in Y. now rewrite Y.
Qed.

Lemma sweeps_keep clocks n pid p :
  dict_wf (peers n) -> dict_get pid (peers n) = Some p ->
  (forall c i, In c clocks -> c i - peer_last_seen p <= DISCOVERY_TIMEOUT) ->
  dict_get pid (peers (sweeps clocks n)) = Some p.
Proof.
  revert n. induction clocks as [|c rest IH]; intros n W G Y; simpl; [assumption|].
  apply IH.
  - now apply pruner_wf.
  - apply pruner_keeps; [assumption|assumption|]. intros i. apply Y. now left.
  - intros c' i I. apply Y. now right.
Qed.

(** A sweep never brings a key back. *)
Lemma sweeps_absent clocks n pid :
  dict_get pid (peers n) = None -> dict_get pid (peers (sweeps clocks n)) = None.
Proof.
  revert n. induction clocks as [|c rest IH]; intros n G; simpl; [assumption|].
  apply IH. unfold pruner. simpl. now apply delete_all_None.
Qed.

(** The listener stamps the record of a well-formed announcement with
    the time of receipt. *)
Lemma listen_stamps now host obj port n :
  h_type obj = Some "hello" -> h_id obj <> Some (node_id n) ->
  h_tcp_port obj = Some port ->
  exists p,
    dict_get (h_id obj) (peers (listen now host (Some obj) n)) = Some p /\
    peer_last_seen p = now /\ peer_id p = h_id obj.
Proof.
  intros T I P. unfold listen. rewrite T, P.
  apply (key_eqb_neq (h_id obj) (Some (node_id n))) in I.
  rewrite key_eqb_refl, I. simpl. eexists. rewrite dict_get_set_eq. now repeat split.
Qed.

Lemma listen_wf now host datagram n :
  dict_wf (peers n) -> dict_wf (peers (listen now host datagram n)).
Proof.
  intros W. unfold listen. destruct datagram as [obj|]; [|assumption].
  destruct (negb _); [assumption|]. destruct (key_eqb _ _); [assumption|].
  destruct (h_tcp_port obj); [|assumption]. simpl. now apply dict_set_wf.
Qed.

(** The keys of the peer table stay distinct whatever is heard and
    however often the pruner runs. *)
Lemma discovery_wf events n :
  dict_wf (peers n) -> dict_wf (peers (discovery events n)).
Proof.
  revert n. induction events as [|e rest IH]; intros n W; simpl; [assumption|].
  apply IH. destruct e; [now apply listen_wf | now apply pruner_wf].
Qed.

(** C9. For the record [p] under key [pid] at index [j] of the peer
    table: a sweep removes it when the clock read for it exceeds its
    [last_seen] by more than [DISCOVERY_TIMEOUT] and keeps it, as it
    is, when the reading is within the timeout. Hence with no
    announcement in between the record survives every sweep whose
    readings are within the timeout of its [last_seen], is gone after
    the first sweep whose readings are beyond it, and stays gone. *)
Theorem peer_record_lifetime (n : ClientNode) (pid : option string) (p : PeerRecord)
        (j : nat) :
  dict_wf (peers n) ->
  nth_error (peers n) j = Some (pid, p) ->
  (forall clock,
      DISCOVERY_TIMEOUT < clock j - peer_last_seen p ->
      dict_get pid (peers (pruner clock n)) = None) /\
  (forall clock,
      clock j - peer_last_seen p <= DISCOVERY_TIMEOUT ->
      dict_get pid (peers (pruner clock n)) = Some p) /\
  (forall clocks,
      (forall c i, In c clocks -> c i - peer_last_seen p <= DISCOVERY_TIMEOUT) ->
      dict_get pid (peers (sweeps clocks n)) = Some p) /\
  (forall clocks late after,
      (forall c i, In c clocks -> c i - peer_last_seen p <= DISCOVERY_TIMEOUT) ->
      (forall i, DISCOVERY_TIMEOUT < late i - peer_last_seen p) ->
      dict_get pid (peers (sweeps (clocks ++ late :: after) n)) = None).
Proof.
  intros W N.
  assert (dict_get pid (peers n) = Some p) as G.
  { apply In_dict_get; [assumption|]. eapply nth_error_In; eauto. }
  split; [|split; [|split]].
  - intros clock X. rewrite (@pruner_at clock n j pid p W N).
    apply expired_true_iff in X. now rewrite X.
  - intros clock X. rewrite (@pruner_at clock n j pid p W N).
    apply expired_false_iff in X. now rewrite X.
  - intros clocks Y. now apply sweeps_keep.
  - intros clocks late after Y L. unfold sweeps. rewrite fold_left_app. simpl.
    apply sweeps_absent. apply pruner_drops with (p := p).
    + now apply sweeps_wf.
    + now apply sweeps_keep.
    + assumption.
Qed.

(** B announced at time 50: sweeps at 52, 54, 56 and 58 keep the
    record, the sweep at 60 removes it. *)
Lemma peer_record_lifetime_witness :
  dict_mem (Some "B")
    (peers (sweeps [fun _ => 52; fun _ => 54; fun _ => 56; fun _ => 58]
                   Scenario.node_a_knows_b)) = true /\
  dict_get (Some "B")
    (peers (sweeps ([fun _ => 52; fun _ => 54; fun _ => 56; fun _ => 58]
                      ++ (fun _ => 60) :: [])
                   Scenario.node_a_knows_b)) = None.
Proof.
  assert (dict_wf (peers Scenario.node_a_knows_b)) as W.
  { apply listen_wf. constructor. }
  destruct (@peer_record_lifetime Scenario.node_a_knows_b (Some "B")
              {| peer_id := Some "B"; peer_name := "Bob"; peer_host := "10.0.0.2";
                 peer_port := 40001; peer_last_seen := 50 |} 0 W eq_refl)
    as (_ & _ & K & D).
  assert (forall (c : nat -> Q) (i : nat),
             In c [fun _ => 52; fun _ => 54; fun _ => 56; fun _ => 58] ->
             c i - 50 <= DISCOVERY_TIMEOUT) as Y.
  { intros c i [<-|[<-|[<-|[<-|[]]]]]; unfold DISCOVERY_TIMEOUT; lra. }
  split.
  - unfold dict_mem. now rewrite (K _ Y).
  - apply D; [exact Y|]. intros i. simpl. unfold DISCOVERY_TIMEOUT. lra.
Defined.
End PeerTable.

(** ** A whole sentence *)

Section Walkthrough.

(** A and B register; A starts with "Once", adds "upon" and ends: the
    server holds "Once", then "Once upon", then "Once upon." completed,
    with [seq] 1, 2 and 3. *)
Example walkthrough_start :
  Server.game_state (snd (System.start "g1" "Once" Scenario.world0))
  = {| game_id := "g1"; seq := 1; sentence := "Once";
       holder_id := Some "A"; completed := false |}.
Proof. reflexivity. Qed.

Example walkthrough_add :
  Server.game_state (snd (System.add "upon" (System.start "g1" "Once" Scenario.world0)))
  = {| game_id := "g1"; seq := 2; sentence := "Once upon";
       holder_id := Some "A"; completed := false |}.
Proof. reflexivity. Qed.

Example walkthrough_end :
  Server.game_state
    (snd (System.finish (System.add "upon" (System.start "g1" "Once" Scenario.world0))))
  = {| game_id := "g1"; seq := 3; sentence := "Once upon.";
       holder_id := Some "A"; completed := true |}.
Proof. reflexivity. Qed.

End Walkthrough.

(** * Further properties *)

(** ** Registration and heartbeat *)

Section Registry.
Import Server.

Lemma dict_set_length {K V : Type} `{Hashable K} (k : K) (v : V) (d : dict K V) :
  List.length (dict_set k v d)
  = if dict_mem k d then List.length d else S (List.length d).
Proof.
  pose proof (dict_keys_set k v d) as E.
  apply (f_equal (@List.length K)) in E. unfold dict_keys in E.
  rewrite length_map in E. rewrite E.
  destruct (dict_mem k d).
  - now rewrite length_map.
  - rewrite length_app, length_map. simpl. lia.
Qed.

Lemma dict_set_keys_known {K V : Type} `{Hashable K} (k : K) (v v' : V) (d : dict K V) :
  dict_get k d = Some v' -> dict_keys (dict_set k v d) = dict_keys d.
Proof. intros G. rewrite dict_keys_set. unfold dict_mem. now rewrite G. Qed.

(** X1. [register] without an id (missing, null or empty) answers 400
    and changes nothing. With an id it answers 200 and stores under that
    id a record with the id, the name given (["user-"] and the first
    eight characters of the id when no name is given), the profile given
    (empty when none is) and [last_seen = now]; every other participant
    is as before; the number of participants grows by one for a new id
    and not at all for a known one; the game state is untouched and one
    snapshot of it is broadcast. *)
Theorem register_upserts (now : Q) (data : RegisterReq) (s : State) :
  (present (reg_id data) = None ->
   register now data s = (s, {| status := 400; body := JError "id required" |})) /\
  (forall pid,
      present (reg_id data) = Some pid ->
      snd (register now data s) = {| status := 200; body := JOk |} /\
      dict_get pid (participants (fst (register now data s)))
      = Some {| p_id := pid;
                p_name := match present (reg_name data) with
                          | Some name => name
                          | None => "user-" ++ substring 0 8 pid
                          end;
                p_profile := match reg_profile data with
                             | Some p => p
                             | None => []
                             end;
                p_last_seen := now |} /\
      (forall k, k <> pid ->
                 dict_get k (participants (fst (register now data s)))
                 = dict_get k (participants s)) /\
      List.length (participants (fst (register now data s)))
      = (if dict_mem pid (participants s)
         then List.length (participants s)
         else S (List.length (participants s))) /\
      game_state (fst (register now data s)) = game_state s /\
      broadcasts (fst (register now data s)) = (broadcasts s ++ [game_state s])%list).
Proof.
  unfold register. split.
  - now intros ->.
  - intros pid ->. simpl.
    split; [reflexivity|]. split; [apply dict_get_set_eq|].
    split; [intros k N; apply dict_get_set_ne; congruence|].
    split; [apply dict_set_length|]. now split.
Qed.

(** A registers without a name on a fresh server. *)
Lemma register_upserts_witness :
  dict_get "0123456789abcdef"
    (participants
       (fst (register 7 {| reg_id := Some "0123456789abcdef"; reg_name := Some "";
                           reg_profile := None |} (initial "g0"))))
  = Some {| p_id := "0123456789abcdef"; p_name := "user-01234567";
            p_profile := []; p_last_seen := 7 |}.
Proof.
  destruct (register_upserts 7 {| reg_id := Some "0123456789abcdef"; reg_name := Some "";
                                  reg_profile := None |} (initial "g0")) as [_ R].
  destruct (R "0123456789abcdef" eq_refl) as (_ & G & _). exact G.
Defined.

(** X2. [heartbeat] without an id answers 400, for an id that is not
    registered 404, and in both cases changes nothing: it never adds a
    participant. For a registered id it answers 200 and sets the
    [last_seen] of that record to [now], leaving its id, name and
    profile, the order and the records of the other participants, the
    game state and the broadcasts as they were. *)
Theorem heartbeat_refreshes (now : Q) (id : option string) (s : State) :
  (present id = None ->
   heartbeat now id s = (s, {| status := 400; body := JError "id required" |})) /\
  (forall pid,
      present id = Some pid -> dict_get pid (participants s) = None ->
      heartbeat now id s = (s, {| status := 404; body := JError "unknown id" |})) /\
  (forall pid p,
      present id = Some pid -> dict_get pid (participants s) = Some p ->
      snd (heartbeat now id s) = {| status := 200; body := JOk |} /\
      dict_get pid (participants (fst (heartbeat now id s)))
      = Some {| p_id := p_id p; p_name := p_name p; p_profile := p_profile p;
                p_last_seen := now |} /\
      (forall k, k <> pid ->
                 dict_get k (participants (fst (heartbeat now id s)))
                 = dict_get k (participants s)) /\
      dict_keys (participants (fst (heartbeat now id s))) = dict_keys (participants s) /\
      game_state (fst (heartbeat now id s)) = game_state s /\
      broadcasts (fst (heartbeat now id s)) = broadcasts s).
Proof.
  unfold heartbeat. split; [|split].
  - now intros ->.
  - now intros pid -> ->.
  - intros pid p -> G. rewrite G. simpl.
    split; [reflexivity|]. split; [apply dict_get_set_eq|].
    split; [intros k N; apply dict_get_set_ne; congruence|].
    split; [eapply dict_set_keys_known; eauto|]. now split.
Qed.

(** B's heartbeat at time 130 in the three-participant state. *)
Lemma heartbeat_refreshes_witness :
  dict_get "B" (participants (fst (heartbeat 130 (Some "B") Scenario.three)))
  = Some (Scenario.participant "B" 130) /\
  heartbeat 130 (Some "Z") Scenario.three
  = (Scenario.three, {| status := 404; body := JError "unknown id" |}).
Proof.
  destruct (heartbeat_refreshes 130 (Some "B") Scenario.three) as (_ & _ & R).
  destruct (heartbeat_refreshes 130 (Some "Z") Scenario.three) as (_ & U & _).
  split.
  - destruct (R "B" (Scenario.participant "B" 95) eq_refl eq_refl) as (_ & G & _).
    exact G.
  - apply (U "Z"); reflexivity.
Defined.

Lemma wf_keys_are_ids s :
  wf s -> map p_id (dict_values (participants s)) = dict_keys (participants s).
Proof.
  intros [_ I]. unfold dict_values, dict_keys.
  induction (participants s) as [|[k p] r IH]; simpl; [reflexivity|].
  rewrite (I k p (or_introl eq_refl)). f_equal. apply IH.
  intros k' p' M. apply I. now right.
Qed.

(** X3. In every state the server reaches, whatever the requests were,
    the ids of the participants are pairwise distinct and each record is
    stored under its own id. *)
Theorem participants_keyed_by_id (s : State) :
  reachable s ->
  NoDup (map p_id (dict_values (participants s))) /\
  (forall pid p, dict_get pid (participants s) = Some p -> p_id p = pid) /\
  (forall p, In p (dict_values (participants s)) ->
             dict_get (p_id p) (participants s) = Some p).
Proof.
  intros R. pose proof (reachable_wf R) as W. pose proof W as [N I].
  split; [|split].
  - rewrite (wf_keys_are_ids W). exact N.
  - intros pid p G. apply I. now apply dict_get_In.
  - intros p M. apply In_dict_values in M as [k M].
    rewrite (I k p M). now apply In_dict_get.
Qed.

Lemma participants_keyed_by_id_witness :
  NoDup (map p_id (dict_values (participants Scenario.three))).
Proof. exact (proj1 (participants_keyed_by_id reachable_three)). Defined.

(** X4. A request taken on its own. When the answer does not say ok
    (the 400 and 404 answers, and the two answers that come out as a
    JSON array with status 200), nothing has changed: participants, game
    state and broadcasts are as before. An answer that says ok has
    status 200. No request changes the game state without broadcasting
    the new state, and no request broadcasts more than one snapshot. *)
Theorem refused_requests_change_nothing (req : Routes.Request) (s : State) :
  (Routes.accepted (snd (Routes.handle req s)) = false ->
   fst (Routes.handle req s) = s) /\
  (Routes.accepted (snd (Routes.handle req s)) = true ->
   status (snd (Routes.handle req s)) = 200%Z) /\
  (game_state (fst (Routes.handle req s)) <> game_state s ->
   broadcasts (fst (Routes.handle req s))
   = (broadcasts s ++ [game_state (fst (Routes.handle req s))])%list) /\
  (broadcasts (fst (Routes.handle req s)) = broadcasts s \/
   broadcasts (fst (Routes.handle req s))
   = (broadcasts s ++ [game_state (fst (Routes.handle req s))])%list).
Proof.
  assert (forall c, let x := hand_over c s in
            (Routes.accepted (snd x) = false -> fst x = s) /\
            (Routes.accepted (snd x) = true -> status (snd x) = 200%Z) /\
            (game_state (fst x) <> game_state s ->
             broadcasts (fst x) = (broadcasts s ++ [game_state (fst x)])%list) /\
            (broadcasts (fst x) = broadcasts s \/
             broadcasts (fst x) = (broadcasts s ++ [game_state (fst x)])%list)) as H.
  { intros c. simpl. split; [discriminate|]. split; [reflexivity|].
    split; [reflexivity|]. now right. }
  assert (forall resp : Response, Routes.accepted resp = false ->
            (Routes.accepted (snd (s, resp)) = false -> fst (s, resp) = s) /\
            (Routes.accepted (snd (s, resp)) = true -> status (snd (s, resp)) = 200%Z) /\
            (game_state (fst (s, resp)) <> game_state s ->
             broadcasts (fst (s, resp))
             = (broadcasts s ++ [game_state (fst (s, resp))])%list) /\
            (broadcasts (fst (s, resp)) = broadcasts s \/
             broadcasts (fst (s, resp))
             = (broadcasts s ++ [game_state (fst (s, resp))])%list)) as F.
  { intros resp A. simpl. rewrite A. split; [reflexivity|]. split; [discriminate|].
    split; [congruence|]. now left. }
  destruct req as [now data|now id|data|now r data|now cutoff]; unfold Routes.handle.
  - unfold register. destruct (present (reg_id data)); [|now apply F].
    simpl. split; [discriminate|]. split; [reflexivity|]. split; [congruence|]. now right.
  - unfold heartbeat. destruct (present id) as [pid|]; [|now apply F].
    destruct (dict_get pid (participants s)); [|now apply F].
    simpl. split; [discriminate|]. split; [reflexivity|]. split; [congruence|]. now left.
  - unfold update_game.
    destruct (present (ug_id data)), (ug_game_state data) as [gs|]; try now apply F.
    destruct (doc_is_empty gs); [now apply F|].
    destruct (differs _ _); [now apply F|].
    simpl. split; [discriminate|]. split; [reflexivity|]. split; [reflexivity|]. now right.
  - unfold do_pass. destruct (present (pass_id data)) as [pid|]; [|now apply F].
    destruct (other_parts pid s); [now apply F|].
    destruct (present (pass_target_id data)).
    + destruct (_ && _); [apply H|now apply F].
    + destruct (random_choice _ _); [apply H|now apply F].
  - unfold prune_stale.
    destruct (prune_loop _ _ _ _) as [removed ps].
    destruct removed; simpl.
    + split; [discriminate|]. split; [reflexivity|]. split; [congruence|]. now left.
    + split; [discriminate|]. split; [reflexivity|]. split; [congruence|]. now right.
Qed.

(** Z posts a state that names A as holder: the answer is the array
    with status 200 and the server's state is as it was. *)
Lemma refused_requests_change_nothing_witness :
  fst (update_game
         {| ug_id := Some "Z";
            ug_game_state :=
              Some {| doc_game_id := None; doc_seq := None; doc_sentence := Some "mine";
                      doc_holder_id := Some (Some "A"); doc_completed := None |} |}
         Scenario.three)
  = Scenario.three.
Proof.
  exact (proj1 (refused_requests_change_nothing
                  (Routes.UpdateGame
                     {| ug_id := Some "Z";
                        ug_game_state :=
                          Some {| doc_game_id := None; doc_seq := None;
                                  doc_sentence := Some "mine";
                                  doc_holder_id := Some (Some "A");
                                  doc_completed := None |} |})
                  Scenario.three) eq_refl).
Defined.
End Registry.

(** ** Pruning, updates and passes *)

Section Coordinator.
Import Server.

Lemma dict_get_app_notin {K V : Type} `{Hashable K} (k : K) (d1 d2 : dict K V) :
  ~ In k (dict_keys d1) -> dict_get k (d1 ++ d2)%list = dict_get k d2.
Proof.
  induction d1 as [|[k0 v0] r IH]; simpl; [reflexivity|].
  intros N. destruct (key_eqb k0 k) eqn:E.
  - apply key_eqb_eq in E. subst. exfalso. apply N. now left.
  - apply IH. intros I. apply N. now right.
Qed.

Lemma dict_del_app_notin {K V : Type} `{Hashable K} (k : K) (d1 d2 : dict K V) :
  ~ In k (dict_keys d1) -> dict_del k (d1 ++ d2)%list = (d1 ++ dict_del k d2)%list.
Proof.
  induction d1 as [|[k0 v0] r IH]; simpl; [reflexivity|].
  intros N. destruct (key_eqb k0 k) eqn:E.
  - apply key_eqb_eq in E. subst. exfalso. apply N. now left.
  - rewrite IH; [reflexivity|]. intros I. apply N. now right.
Qed.

Lemma dict_get_filter {K V : Type} `{Hashable K} (f : K * V -> bool) (k : K) (d : dict K V) :
  dict_wf d ->
  dict_get k (filter f d)
  = match dict_get k d with
    | Some v => if f (k, v) then Some v else None
    | None => None
    end.
Proof.
  unfold dict_wf, dict_keys.
  induction d as [|[k0 v0] r IH]; simpl; [reflexivity|].
  intros W. inversion W as [|? ? N W']; subst.
  destruct (key_eqb k0 k) eqn:E.
  - apply key_eqb_eq in E. subst.
    destruct (f (k, v0)); simpl.
    + now rewrite key_eqb_refl.
    + rewrite (IH W'). destruct (dict_get k r) eqn:G; [|reflexivity].
      exfalso. apply N. apply dict_get_In in G.
      change k with (fst (k, v)). now apply in_map.
  - destruct (f (k0, v0)); simpl; [rewrite E|]; now apply IH.
Qed.

(** The loop of [prune_stale] over the keys still to visit. *)
Lemma prune_loop_split now c (done rest : dict string Participant) :
  dict_wf (done ++ rest)%list ->
  prune_loop now c (dict_keys rest) (done ++ rest)%list
  = (dict_keys (filter (fun kv => stale now c (snd kv)) rest),
     (done ++ filter (fun kv => negb (stale now c (snd kv))) rest)%list).
Proof.
  revert done. induction rest as [|[k v] r IH]; intros done W; simpl.
  - reflexivity.
  - assert (~ In k (dict_keys done)) as N.
    { unfold dict_wf, dict_keys in W. rewrite map_app in W. simpl in W.
      apply NoDup_remove_2 in W. intros I. apply W. apply in_or_app. now left. }
    assert (dict_wf (done ++ r)%list) as W'.
    { unfold dict_wf, dict_keys in *. rewrite map_app in *. simpl in W.
      now apply NoDup_remove_1 in W. }
    rewrite dict_get_app_notin by exact N. simpl. rewrite String.eqb_refl.
    destruct (stale now c v) eqn:S; simpl.
    + rewrite dict_del_app_notin by exact N. simpl. rewrite String.eqb_refl.
      now rewrite (IH done W').
    + specialize (IH (done ++ [(k, v)])%list).
      rewrite <- app_assoc in IH. simpl in IH. rewrite (IH W).
      now rewrite <- app_assoc.
Qed.

Lemma prune_stale_unfold now cutoff s :
  wf s ->
  prune_stale now cutoff s
  = (let c := match cutoff with Some c => c | None => 300 end in
     let removed := dict_keys (filter (fun kv => stale now c (snd kv)) (participants s)) in
     let s1 := set_participants
                 (filter (fun kv => negb (stale now c (snd kv))) (participants s)) s in
     (match removed with [] => s1 | _ :: _ => broadcast_state s1 end,
      jsonify (JOkRemoved removed))).
Proof.
  intros [W _]. unfold prune_stale.
  now rewrite (@prune_loop_split now _ [] (participants s) W).
Qed.

(** What a lookup finds after [prune_stale]. *)
Lemma prune_stale_removes_the_stale_aux now cutoff s :
  wf s ->
  (forall pid p,
      dict_get pid (participants s) = Some p ->
      dict_get pid (participants (fst (prune_stale now cutoff s)))
      = if Qle_bool (now - p_last_seen p)
                    (match cutoff with Some c => c | None => 300 end)
        then Some p else None) /\
  (forall pid,
      dict_get pid (participants s) = None ->
      dict_get pid (participants (fst (prune_stale now cutoff s))) = None).
Proof.
  intros W. rewrite (@prune_stale_unfold now cutoff s W). cbv zeta.
  set (c := match cutoff with Some c => c | None => 300 end).
  set (keep := filter (fun kv => negb (stale now c (snd kv))) (participants s)).
  assert (forall k removed,
             dict_get k (participants
                           (match removed : list string with
                            | [] => set_participants keep s
                            | _ :: _ => broadcast_state (set_participants keep s)
                            end))
             = dict_get k keep) as P.
  { intros k removed. now destruct removed. }
  split.
  - intros pid p G. simpl fst. unfold keep at 1.
    rewrite P. unfold keep. rewrite dict_get_filter by exact (proj1 W). rewrite G.
    simpl. unfold stale. now destruct (Qle_bool _ _).
  - intros pid G. simpl fst. rewrite P. unfold keep.
    rewrite dict_get_filter by exact (proj1 W). now rewrite G.
Qed.

(** X5. [prune_stale] removes exactly the participants whose
    [last_seen] is more than the cutoff before [now] (300 seconds when
    no cutoff is given) and leaves the others as they are; it answers 200
    with the removed ids in registration order, leaves the game state
    alone, and broadcasts one snapshot when it removed somebody and none
    when it did not. *)
Theorem prune_stale_removes_the_stale (now : Q) (cutoff : option Q) (s : State) :
  wf s ->
  snd (prune_stale now cutoff s)
  = {| status := 200;
       body := JOkRemoved
                 (dict_keys
                    (filter (fun kv => stale now (match cutoff with
                                                  | Some c => c
                                                  | None => 300
                                                  end) (snd kv))
                            (participants s))) |} /\
  (forall pid p,
      dict_get pid (participants s) = Some p ->
      dict_get pid (participants (fst (prune_stale now cutoff s)))
      = if Qle_bool (now - p_last_seen p)
                    (match cutoff with Some c => c | None => 300 end)
        then Some p else None) /\
  (forall pid,
      dict_get pid (participants s) = None ->
      dict_get pid (participants (fst (prune_stale now cutoff s))) = None) /\
  game_state (fst (prune_stale now cutoff s)) = game_state s /\
  broadcasts (fst (prune_stale now cutoff s))
  = (match filter (fun kv => stale now (match cutoff with
                                        | Some c => c
                                        | None => 300
                                        end) (snd kv)) (participants s) with
     | [] => broadcasts s
     | _ :: _ => (broadcasts s ++ [game_state s])%list
     end).
Proof.
  intros W. rewrite (@prune_stale_unfold now cutoff s W). cbv zeta.
  set (c := match cutoff with Some c => c | None => 300 end).
  set (gone := filter (fun kv => stale now c (snd kv)) (participants s)).
  assert (forall k,
             dict_get k (participants
                           (match dict_keys gone with
                            | [] => set_participants
                                      (filter (fun kv => negb (stale now c (snd kv)))
                                              (participants s)) s
                            | _ :: _ => broadcast_state
                                          (set_participants
                                             (filter (fun kv => negb (stale now c (snd kv)))
                                                     (participants s)) s)
                            end))
             = dict_get k (filter (fun kv => negb (stale now c (snd kv)))
                                  (participants s))) as P.
  { intros k. now destruct (dict_keys gone). }
  split; [reflexivity|]. split; [|split; [|split]].
  - intros pid p G. simpl fst. rewrite P, dict_get_filter by exact (proj1 W). rewrite G.
    simpl. unfold stale. now destruct (Qle_bool _ _).
  - intros pid G. simpl fst. rewrite P, dict_get_filter by exact (proj1 W). now rewrite G.
  - simpl fst. now destruct (dict_keys gone).
  - simpl fst. unfold dict_keys. now destruct gone.
Qed.

(** At time 400, with the default cutoff, C and B go and A stays. *)
Lemma prune_stale_removes_the_stale_witness :
  snd (prune_stale 400 None Scenario.three)
  = {| status := 200; body := JOkRemoved ["C"; "B"] |} /\
  dict_keys (participants (fst (prune_stale 400 None Scenario.three))) = ["A"].
Proof.
  destruct (@prune_stale_removes_the_stale 400 None Scenario.three
              (reachable_wf reachable_three)) as (R & _).
  split; [exact R | reflexivity].
Defined.
End Coordinator.

Section Custody.
Import Server.

Lemma doc_holder_not_empty gs pid : doc_get_holder_id gs = Some pid -> doc_is_empty gs = false.
Proof.
  unfold doc_get_holder_id, doc_is_empty.
  destruct (doc_holder_id gs); [|discriminate].
  now destruct (doc_game_id gs), (doc_seq gs), (doc_sentence gs).
Qed.

(** X6. [update_game] answers 400 and changes nothing when the id is
    missing or empty or the game state is missing or an empty object.
    Otherwise the only condition is that the posted state names the
    sender as holder: the update is then accepted whoever holds the turn
    on the server and whether or not the sender is registered; the keys
    the posted state has replace the server's, the keys it lacks keep
    their values ([seq] included), the participants are untouched and
    the new state is broadcast. *)
Theorem update_game_trusts_sender (data : UpdateGameReq) (s : State) :
  (present (ug_id data) = None \/ ug_game_state data = None \/
   (exists gs, ug_game_state data = Some gs /\ doc_is_empty gs = true) ->
   update_game data s
   = (s, {| status := 400; body := JError "id and game_state required" |})) /\
  (forall pid gs,
      present (ug_id data) = Some pid -> ug_game_state data = Some gs ->
      doc_get_holder_id gs = Some pid ->
      snd (update_game data s) = {| status := 200; body := JOk |} /\
      holder_id (game_state (fst (update_game data s))) = Some pid /\
      game_id (game_state (fst (update_game data s)))
      = match doc_game_id gs with Some x => x | None => game_id (game_state s) end /\
      seq (game_state (fst (update_game data s)))
      = match doc_seq gs with Some x => x | None => seq (game_state s) end /\
      sentence (game_state (fst (update_game data s)))
      = match doc_sentence gs with Some x => x | None => sentence (game_state s) end /\
      completed (game_state (fst (update_game data s)))
      = match doc_completed gs with Some x => x | None => completed (game_state s) end /\
      participants (fst (update_game data s)) = participants s /\
      broadcasts (fst (update_game data s))
      = (broadcasts s ++ [game_state (fst (update_game data s))])%list).
Proof.
  unfold update_game. split.
  - intros [->|[E|(gs & E & D)]]; [reflexivity| |].
    + rewrite E. now destruct (present (ug_id data)).
    + rewrite E, D. now destruct (present (ug_id data)).
  - intros pid gs -> -> Hh. rewrite (doc_holder_not_empty _ Hh).
    unfold differs. rewrite Hh, key_eqb_refl. simpl.
    repeat split. unfold doc_get_holder_id in Hh.
    now destruct (doc_holder_id gs) as [h|]; [subst|discriminate].
Qed.

(** Z is not registered and A holds the turn; Z posts a state with
    nothing but itself as holder and is the holder afterwards, at the
    same [seq]. *)
Lemma update_game_trusts_sender_witness :
  dict_mem "Z" (participants Scenario.three) = false /\
  holder_id (game_state Scenario.three) = Some "A" /\
  game_state
    (fst (update_game
            {| ug_id := Some "Z";
               ug_game_state :=
                 Some {| doc_game_id := None; doc_seq := None; doc_sentence := None;
                         doc_holder_id := Some (Some "Z"); doc_completed := None |} |}
            Scenario.three))
  = Scenario.game 3 "Once upon" (Some "Z") false.
Proof.
  split; [reflexivity|]. split; [reflexivity|].
  destruct (update_game_trusts_sender
              {| ug_id := Some "Z";
                 ug_game_state :=
                   Some {| doc_game_id := None; doc_seq := None; doc_sentence := None;
                           doc_holder_id := Some (Some "Z"); doc_completed := None |} |}
              Scenario.three) as [_ U].
  destruct (U "Z" _ eq_refl eq_refl eq_refl) as (_ & H & _).
  destruct (game_state (fst (update_game _ Scenario.three))) eqn:E.
  simpl in H. subst. revert E. vm_compute. now intros [= <- <- <- <-].
Defined.

(** X7. A pass that names a target, in a state where every record sits
    under its own id (as in every state the server reaches). When the
    target is registered and is not the requester the turn goes to the
    target, whatever the clock and the draw and whether the target is
    active or not. When the target is not registered or is the
    requester nothing changes, and the answer depends on the others:
    with some other participant registered it is 400 "requested target
    invalid or not found"; with the requester the only participant, or
    nobody registered, it is the JSON array with status 200 that every
    pass of a lone requester gets. *)
Theorem pass_to_target (now : Q) (r : nat) (pid target : string) (s : State) :
  wf s -> pid <> "" -> target <> "" ->
  (dict_mem target (participants s) = true /\ target <> pid ->
   do_pass now r {| pass_id := Some pid; pass_target_id := Some target |} s
   = hand_over target s) /\
  (dict_mem target (participants s) = false \/ target = pid ->
   ((exists q, In q (dict_values (participants s)) /\ p_id q <> pid) ->
    do_pass now r {| pass_id := Some pid; pass_target_id := Some target |} s
    = (s, {| status := 400; body := JError "requested target invalid or not found" |})) /\
   ((forall q, In q (dict_values (participants s)) -> p_id q = pid) ->
    do_pass now r {| pass_id := Some pid; pass_target_id := Some target |} s
    = (s, {| status := 200;
             body := JArray (JError "no other participants registered") 400 |}))).
Proof.
  intros W Hp Ht. split.
  - intros [M N].
    pose proof (@registered_target_is_other pid target s W M N) as Ho.
    unfold do_pass. cbn [pass_id pass_target_id].
    rewrite (present_Some Hp), (present_Some Ht).
    destruct (other_parts pid s); [contradiction|].
    rewrite M. apply String.eqb_neq in N. now rewrite N.
  - intros B. split.
    + intros [q [Hq Nq]].
      assert (In q (other_parts pid s)) as O by (apply In_other_parts; auto).
      unfold do_pass. cbn [pass_id pass_target_id].
      rewrite (present_Some Hp), (present_Some Ht).
      destruct (other_parts pid s); [destruct O|].
      destruct B as [M| ->].
      * now rewrite M.
      * rewrite String.eqb_refl. now rewrite andb_false_r.
    + intros A. apply do_pass_nobody_else with pid.
      * cbn [pass_id]. now apply present_Some.
      * destruct (other_parts pid s) as [|q l] eqn:E; [reflexivity|].
        assert (In q (other_parts pid s)) as O by (rewrite E; now left).
        apply In_other_parts in O as [Hq Nq]. destruct (Nq (A q Hq)).
Qed.

(** A names C, who is inactive at time 120 while B is active: C gets
    the turn. A names itself: 400. A alone on the server names a
    stranger: the array with status 200. *)
Lemma pass_to_target_witness :
  is_active 120 (Scenario.participant "C" 0) = false /\
  snd (do_pass 120 0 {| pass_id := Some "A"; pass_target_id := Some "C" |} Scenario.three)
  = {| status := 200; body := JOkNewHolder "C" |} /\
  snd (do_pass 120 0 {| pass_id := Some "A"; pass_target_id := Some "A" |} Scenario.three)
  = {| status := 400; body := JError "requested target invalid or not found" |} /\
  snd (do_pass 120 0 {| pass_id := Some "A"; pass_target_id := Some "Z" |}
               (fst (register 100 {| reg_id := Some "A"; reg_name := None;
                                     reg_profile := None |} (initial "g"))))
  = {| status := 200; body := JArray (JError "no other participants registered") 400 |}.
Proof.
  assert ("A" <> "") as NA by discriminate.
  assert ("Z" <> "") as NZ by discriminate.
  split; [reflexivity|]. split; [|split].
  - destruct (@pass_to_target 120 0 "A" "C" Scenario.three
                (reachable_wf reachable_three) NA) as [T _]; [discriminate|].
    rewrite T; [reflexivity|]. split; [reflexivity|discriminate].
  - destruct (@pass_to_target 120 0 "A" "A" Scenario.three
                (reachable_wf reachable_three) NA NA) as [_ F].
    destruct (F (or_intror eq_refl)) as [F1 _].
    rewrite F1; [reflexivity|].
    exists (Scenario.participant "B" 95). split; [simpl; auto|discriminate].
  - destruct (@pass_to_target 120 0 "A" "Z"
                (fst (register 100 {| reg_id := Some "A"; reg_name := None;
                                      reg_profile := None |} (initial "g")))
                (wf_register 100 _ (wf_initial "g")) NA NZ) as [_ F].
    destruct (F (or_introl eq_refl)) as [_ F2].
    rewrite F2; [reflexivity|].
    intros q [<-|[]]. reflexivity.
Defined.

(** The new holder of an accepted pass. *)
Lemma do_pass_chosen now r data s s' chosen :
  wf s ->
  do_pass now r data s = (s', jsonify (JOkNewHolder chosen)) ->
  exists pid, present (pass_id data) = Some pid /\ chosen <> pid /\
              dict_mem chosen (participants s) = true.
Proof.
  intros W. unfold do_pass.
  destruct (present (pass_id data)) as [pid|]; [|discriminate].
  destruct (other_parts pid s) as [|p0 l0] eqn:O; [discriminate|].
  destruct (present (pass_target_id data)) as [t|].
  - destruct (dict_mem t (participants s)) eqn:M; [|discriminate].
    destruct (t =? pid) eqn:E; [discriminate|]. simpl.
    intros [= _ <-]. exists pid. apply String.eqb_neq in E. auto.
  - destruct (random_choice r (pool now pid s)) as [p|] eqn:R; [|discriminate].
    intros [= _ <-]. exists pid. apply random_choice_Some_In in R.
    assert (In p (other_parts pid s)) as I.
    { unfold pool in R. destruct (active now pid s) eqn:A; [assumption|].
      rewrite <- A in R. now apply In_active in R. }
    apply In_other_parts in I as [I N]. split; [reflexivity|]. split; [exact N|].
    apply In_dict_values in I as [k I]. destruct W as [W K].
    rewrite (K k p I). apply dict_mem_true. exists p. now apply In_dict_get.
Qed.

(** X8. Whenever a pass is accepted, with or without target, the new
    holder is a registered participant and is not the requester; the
    pass changes [holder_id] and adds one to [seq] and leaves the
    sentence, the game id, the completed flag and the participants as
    they were (a pass on a completed sentence is accepted like any
    other); the new state is broadcast. *)
Theorem pass_hands_to_another (now : Q) (r : nat) (data : PassReq) (s s' : State)
        (chosen : string) :
  wf s ->
  do_pass now r data s = (s', jsonify (JOkNewHolder chosen)) ->
  present (pass_id data) <> Some chosen /\
  dict_mem chosen (participants s) = true /\
  holder_id (game_state s') = Some chosen /\
  seq (game_state s') = (seq (game_state s) + 1)%Z /\
  sentence (game_state s') = sentence (game_state s) /\
  game_id (game_state s') = game_id (game_state s) /\
  completed (game_state s') = completed (game_state s) /\
  participants s' = participants s /\
  broadcasts s' = (broadcasts s ++ [game_state s'])%list.
Proof.
  intros W D. destruct (do_pass_chosen _ _ _ W D) as (pid & Hid & N & M).
  apply do_pass_accepted in D. subst s'. simpl.
  split; [rewrite Hid; congruence|]. now repeat split.
Qed.

Lemma pass_hands_to_another_witness :
  holder_id
    (game_state
       (fst (do_pass 120 0 {| pass_id := Some "A"; pass_target_id := None |}
                     Scenario.three))) = Some "B".
Proof.
  destruct (@pass_hands_to_another 120 0 {| pass_id := Some "A"; pass_target_id := None |}
              Scenario.three _ "B" (reachable_wf reachable_three) eq_refl)
    as (_ & _ & H & _).
  exact H.
Defined.
End Custody.

Section Liveness.
Import Server.

(** A request leaves the records it is not addressed to. *)
Lemma handle_leaves (b : string) (t : Q) (req : Routes.Request) (s : State)
      (p : Participant) :
  wf s -> Routes.leaves b t req = true ->
  dict_get b (participants s) = Some p -> p_last_seen p = t ->
  dict_get b (participants (fst (Routes.handle req s))) = Some p.
Proof.
  intros W L G T.
  destruct req as [now data|now id|data|now r data|now cutoff];
    unfold Routes.handle; cbn [Routes.leaves] in L.
  - unfold register. destruct (present (reg_id data)) as [pid|]; [|exact G].
    simpl. apply negb_true_iff, key_eqb_neq in L.
    rewrite dict_get_set_ne; [exact G|congruence].
  - unfold heartbeat. destruct (present id) as [pid|]; [|exact G].
    destruct (dict_get pid (participants s)) as [q|]; [|exact G].
    simpl. apply negb_true_iff, key_eqb_neq in L.
    rewrite dict_get_set_ne; [exact G|congruence].
  - unfold update_game.
    destruct (present (ug_id data)), (ug_game_state data) as [gs|]; try exact G.
    destruct (doc_is_empty gs); [exact G|]. destruct (differs _ _); exact G.
  - unfold do_pass. destruct (present (pass_id data)) as [pid|]; [|exact G].
    destruct (other_parts pid s); [exact G|].
    destruct (present (pass_target_id data)).
    + destruct (_ && _); exact G.
    + destruct (random_choice _ _); exact G.
  - destruct (@prune_stale_removes_the_stale_aux now cutoff s W) as [K _].
    rewrite (K b p G), T, L. reflexivity.
Qed.

Lemma handle_wf (req : Routes.Request) (s : State) :
  wf s -> wf (fst (Routes.handle req s)).
Proof.
  intros W. destruct req; simpl.
  - now apply wf_register.
  - now apply wf_heartbeat.
  - now apply wf_update_game.
  - now apply wf_do_pass.
  - now apply wf_prune_stale.
Qed.

Lemma run_leaves (b : string) (t : Q) (reqs : list Routes.Request) (s : State)
      (p : Participant) :
  wf s -> forallb (Routes.leaves b t) reqs = true ->
  dict_get b (participants s) = Some p -> p_last_seen p = t ->
  wf (Routes.run reqs s) /\ dict_get b (participants (Routes.run reqs s)) = Some p.
Proof.
  revert s. induction reqs as [|req rest IH]; intros s W L G T; [now split|].
  simpl in L. apply andb_true_iff in L as [L1 L2].
  unfold Routes.run. simpl. apply IH; auto.
  - now apply handle_wf.
  - now apply handle_leaves with t.
Qed.

(** X9. A heartbeat keeps a participant eligible. After the heartbeat
    of [b] at time [t], and after any requests handled since that are
    not addressed to [b]'s record (no registration or heartbeat under
    the id [b], and no prune whose cutoff the age of the record
    exceeds; a prune in between that removes [b] ends the guarantee, as
    a later registration or heartbeat of [b] replaces [t]), the record
    of [b] is still there with [last_seen = t]; a pass without target
    that another requester sends within [ACTIVE_TIMEOUT] of [t] then
    goes to a registered participant other than the requester that was
    seen within [ACTIVE_TIMEOUT], and [b] is the choice of some draw. *)
Theorem heartbeat_keeps_eligible (t now : Q) (r : nat) (a b : string) (s : State)
        (reqs : list Routes.Request) :
  wf s -> a <> "" -> b <> "" -> a <> b ->
  dict_mem b (participants s) = true ->
  forallb (Routes.leaves b t) reqs = true ->
  now - t <= ACTIVE_TIMEOUT ->
  (exists q, dict_get b (participants (Routes.run reqs (fst (heartbeat t (Some b) s))))
             = Some q /\ p_id q = b /\ p_last_seen q = t) /\
  (exists p,
     do_pass now r {| pass_id := Some a; pass_target_id := None |}
             (Routes.run reqs (fst (heartbeat t (Some b) s)))
     = hand_over (p_id p) (Routes.run reqs (fst (heartbeat t (Some b) s))) /\
     In p (dict_values (participants (Routes.run reqs (fst (heartbeat t (Some b) s))))) /\
     p_id p <> a /\
     now - p_last_seen p <= ACTIVE_TIMEOUT) /\
  (exists r',
     do_pass now r' {| pass_id := Some a; pass_target_id := None |}
             (Routes.run reqs (fst (heartbeat t (Some b) s)))
     = hand_over b (Routes.run reqs (fst (heartbeat t (Some b) s)))).
Proof.
  intros W Ha Hb N M L Y.
  apply dict_mem_true in M as [q G].
  assert (p_id q = b) as Eq by (apply (proj2 W); now apply dict_get_In).
  set (q' := {| p_id := p_id q; p_name := p_name q; p_profile := p_profile q;
                p_last_seen := t |}).
  assert (dict_get b (participants (fst (heartbeat t (Some b) s))) = Some q') as G0.
  { unfold heartbeat. rewrite (present_Some Hb), G. simpl. apply dict_get_set_eq. }
  destruct (@run_leaves b t reqs (fst (heartbeat t (Some b) s)) q'
              (wf_heartbeat t (Some b) W) L G0 eq_refl) as [W1 G1].
  set (s1 := Routes.run reqs (fst (heartbeat t (Some b) s))) in *.
  assert (In q' (active now a s1)) as A.
  { apply In_active_spec. split; [|split].
    - apply In_dict_values. exists b. now apply dict_get_In.
    - simpl. congruence.
    - exact Y. }
  assert (pool now a s1 = active now a s1) as P.
  { unfold pool. destruct (active now a s1); [destruct A|reflexivity]. }
  assert (other_parts a s1 <> []) as O.
  { apply In_active in A as [O _]. intros Z. rewrite Z in O. exact O. }
  split; [|split].
  - exists q'. split; [exact G1|]. split; [exact Eq|reflexivity].
  - destruct (@do_pass_no_target now r {| pass_id := Some a; pass_target_id := None |}
                s1 a (present_Some Ha) eq_refl O) as (p & _ & I & D).
    exists p. split; [exact D|]. rewrite P in I. now apply In_active_spec in I.
  - destruct (@do_pass_draws now {| pass_id := Some a; pass_target_id := None |}
                s1 a q' (present_Some Ha) eq_refl) as [r' D].
    + rewrite P. exact A.
    + exists r'. rewrite D. simpl. now rewrite Eq.
Qed.

(** C was last seen at time 0; it sends a heartbeat at 100. D registers
    at 105, A passes at 110 and a prune with cutoff 30 runs at 115; at
    120 some draw of A's pass gives C the turn. *)
Lemma heartbeat_keeps_eligible_witness :
  exists r',
    do_pass 120 r' {| pass_id := Some "A"; pass_target_id := None |}
            (Routes.run [Routes.Register 105 {| reg_id := Some "D"; reg_name := None;
                                                reg_profile := None |};
                         Routes.Pass 110 0 {| pass_id := Some "A"; pass_target_id := None |};
                         Routes.PruneStale 115 (Some 30)]
                        (fst (heartbeat 100 (Some "C") Scenario.three)))
    = hand_over "C"
        (Routes.run [Routes.Register 105 {| reg_id := Some "D"; reg_name := None;
                                            reg_profile := None |};
                     Routes.Pass 110 0 {| pass_id := Some "A"; pass_target_id := None |};
                     Routes.PruneStale 115 (Some 30)]
                    (fst (heartbeat 100 (Some "C") Scenario.three))).
Proof.
  refine (proj2 (proj2 (@heartbeat_keeps_eligible 100 120 0 "A" "C" Scenario.three
             [Routes.Register 105 {| reg_id := Some "D"; reg_name := None;
                                     reg_profile := None |};
              Routes.Pass 110 0 {| pass_id := Some "A"; pass_target_id := None |};
              Routes.PruneStale 115 (Some 30)]
             (reachable_wf reachable_three) _ _ _ eq_refl eq_refl _)));
    discriminate.
Defined.

(** X10. A participant that [prune_stale] has removed gets no turn, by
    draw or by name, and its heartbeats are answered 404: only a new
    registration brings it back. *)
Theorem pruned_is_out (now cutoff : Q) (c : string) (p : Participant) (s : State) :
  wf s -> c <> "" ->
  dict_get c (participants s) = Some p ->
  cutoff < now - p_last_seen p ->
  (forall now' r data,
      snd (do_pass now' r data (fst (prune_stale now (Some cutoff) s)))
      <> jsonify (JOkNewHolder c)) /\
  (forall now',
      snd (heartbeat now' (Some c) (fst (prune_stale now (Some cutoff) s)))
      = {| status := 404; body := JError "unknown id" |}) /\
  (forall now' name profile,
      dict_mem c (participants
                    (fst (register now' {| reg_id := Some c; reg_name := name;
                                           reg_profile := profile |}
                                   (fst (prune_stale now (Some cutoff) s))))) = true).
Proof.
  intros W Hc G X.
  set (s1 := fst (prune_stale now (Some cutoff) s)).
  assert (wf s1) as W1 by now apply wf_prune_stale.
  assert (dict_get c (participants s1) = None) as G1.
  { destruct (@prune_stale_removes_the_stale_aux now (Some cutoff) s W) as [K _].
    unfold s1. rewrite (K c p G).
    destruct (Qle_bool (now - p_last_seen p) cutoff) eqn:E; [|reflexivity].
    apply Qle_bool_iff in E. apply Qlt_not_le in X. contradiction. }
  split; [|split].
  - intros now' r data E.
    destruct (do_pass now' r data s1) as [s' resp] eqn:D. simpl in E. subst resp.
    destruct (do_pass_chosen _ _ _ W1 D) as (_ & _ & _ & M).
    unfold dict_mem in M. now rewrite G1 in M.
  - intros now'. unfold heartbeat. now rewrite (present_Some Hc), G1.
  - intros now' name profile. unfold register. cbn [reg_id].
    rewrite (present_Some Hc). simpl. unfold dict_mem. now rewrite dict_get_set_eq.
Qed.

(** C, last seen at 0, is pruned at time 400 with cutoff 300. *)
Lemma pruned_is_out_witness :
  snd (heartbeat 401 (Some "C") (fst (prune_stale 400 (Some 300) Scenario.three)))
  = {| status := 404; body := JError "unknown id" |}.
Proof.
  destruct (@pruned_is_out 400 300 "C" (Scenario.participant "C" 0) Scenario.three
              (reachable_wf reachable_three)) as (_ & H & _).
  - discriminate.
  - reflexivity.
  - simpl. lra.
  - apply H.
Defined.
End Liveness.

(** ** Normal forms and the check of a claim *)

Section Matching.
Import PyStr Client.

Lemma lstrip_starts_clean (s : string) : starts_clean (lstrip s) = true.
Proof.
  induction s as [|c r IH]; simpl; [reflexivity|].
  destruct (is_space c) eqn:E; [assumption|]. simpl. now rewrite E.
Qed.

Lemma lstrip_clean (s : string) : starts_clean s = true -> lstrip s = s.
Proof.
  destruct s as [|c r]; simpl; [reflexivity|].
  intros E. apply negb_true_iff in E. now rewrite E.
Qed.

Lemma rstrip_starts_clean (s : string) :
  starts_clean s = true -> starts_clean (rstrip s) = true.
Proof.
  destruct s as [|c r]; simpl; [reflexivity|].
  intros E. destruct (rstrip r); [|assumption].
  apply negb_true_iff in E. rewrite E. simpl. now rewrite E.
Qed.

Lemma rstrip_idem (s : string) : rstrip (rstrip s) = rstrip s.
Proof.
  induction s as [|c r IH]; simpl; [reflexivity|].
  destruct (rstrip r) as [|c' r'] eqn:E.
  - destruct (is_space c) eqn:S; simpl; [reflexivity|]. now rewrite S.
  - simpl. simpl in IH. now rewrite IH.
Qed.

Lemma strip_idem (s : string) : strip (strip s) = strip s.
Proof.
  unfold strip.
  rewrite (lstrip_clean (rstrip (lstrip s))).
  - apply rstrip_idem.
  - apply rstrip_starts_clean, lstrip_starts_clean.
Qed.

(** X11. [norm] returns a normal form: applying it again changes
    nothing, and two strings that differ only in the case of their
    letters or in the whitespace around them have the same normal form.
    Whitespace inside a string is kept. *)
Theorem norm_is_a_normal_form :
  (forall v, norm (PyStr (norm v)) = norm v) /\
  (forall s, norm (PyStr (lower s)) = norm (PyStr s)) /\
  (forall a s b, blank a = true -> blank b = true ->
                 norm (PyStr (a ++ s ++ b)) = norm (PyStr s)) /\
  norm (PyStr "rock climbing") <> norm (PyStr "rockclimbing").
Proof.
  split; [|split; [|split]].
  - intros v. unfold norm. simpl py_str.
    now rewrite strip_lower, strip_idem, lower_idem.
  - apply norm_lower.
  - apply norm_padded.
  - discriminate.
Qed.

Lemma norm_is_a_normal_form_witness :
  norm (PyStr ("  " ++ "Chess" ++ " ")) = norm (PyStr "Chess").
Proof.
  destruct norm_is_a_normal_form as (_ & _ & P & _).
  now apply P.
Defined.

(** X12. For a verify message that names a field the responder's
    profile has, the reply is verify_result with [ok] true exactly when
    the attribute matches the claimed value in normal form: the string
    itself for a string attribute, one of the items for a list attribute
    (so never for an empty list). When [ok] is false nothing else is
    written and the responder's node is unchanged. *)
Theorem verify_checks_the_attribute (io : ResponderIO) (n : ClientNode)
        (msg : Message) (field : string) (a : attr) :
  r_line1 io = RecvMsg msg -> m_type msg = Some "verify" ->
  m_field msg = Some field -> dict_get field (profile n) = Some a ->
  r_write1 io = true ->
  exists ok rest,
    snd (handle_client io n) = verify_result_msg ok :: rest /\
    (ok = true <->
     match a with
     | AStr s => norm (PyStr s) = norm (m_value msg)
     | AList l => exists item, In item l /\ norm (PyStr item) = norm (m_value msg)
     end) /\
    (ok = false -> rest = [] /\ fst (handle_client io n) = n).
Proof.
  intros L T F G W.
  exists (verify_match n (m_field msg) (m_value msg)).
  assert (verify_match n (m_field msg) (m_value msg) = true <->
          match a with
          | AStr s => norm (PyStr s) = norm (m_value msg)
          | AList l => exists item, In item l /\ norm (PyStr item) = norm (m_value msg)
          end) as M.
  { rewrite F. destruct a as [s|l].
    - now apply verify_match_string.
    - now apply verify_match_list. }
  unfold handle_client. rewrite L, T, W. rewrite key_eqb_refl. cbn [negb].
  destruct (verify_match n (m_field msg) (m_value msg)) eqn:V.
  - destruct (r_line2 io) as [| | |msg2];
      try (eexists; split; [reflexivity|]; split; [exact M|discriminate]).
    destruct (key_eqb (m_type msg2) (Some "connect"));
      [|eexists; split; [reflexivity|]; split; [exact M|discriminate]].
    destruct (record_connection (m_profile msg2) n);
      [|eexists; split; [reflexivity|]; split; [exact M|discriminate]].
    destruct (r_write2 io);
      eexists; (split; [reflexivity|]; split; [exact M|discriminate]).
  - exists []. split; [reflexivity|]. split; [exact M|]. now split.
Qed.

(** A's hobbies are "Chess" and "Rock Climbing": " rock CLIMBING " is
    confirmed. *)
Lemma verify_checks_the_attribute_witness :
  exists rest,
    snd (handle_client
           {| r_line1 := RecvMsg {| m_type := Some "verify"; m_field := Some "hobbies";
                                    m_value := PyStr " rock CLIMBING "; m_ok := false;
                                    m_profile := None |};
              r_write1 := true; r_line2 := RecvEof; r_write2 := true |}
           Scenario.node_a)
    = verify_result_msg true :: rest.
Proof.
  destruct (@verify_checks_the_attribute
              {| r_line1 := RecvMsg {| m_type := Some "verify"; m_field := Some "hobbies";
                                       m_value := PyStr " rock CLIMBING "; m_ok := false;
                                       m_profile := None |};
                 r_write1 := true; r_line2 := RecvEof; r_write2 := true |}
              Scenario.node_a _ "hobbies" (AList ["Chess"; "Rock Climbing"])
              eq_refl eq_refl eq_refl eq_refl eq_refl) as (ok & rest & E & M & _).
  exists rest. rewrite E. f_equal. f_equal. apply M.
  exists "Rock Climbing". split; [right; now left | reflexivity].
Defined.
End Matching.

(** ** Discovery *)

Section Discovery.
Import Client.

Lemma discovery_frame events n :
  node_id (discovery events n) = node_id n /\
  profile (discovery events n) = profile n /\
  connections (discovery events n) = connections n /\
  game_state (discovery events n) = game_state n.
Proof.
  revert n. induction events as [|e rest IH]; intros n; simpl; [now repeat split|].
  set (n1 := match e with
             | Heard now host datagram => listen now host datagram n
             | Swept clock => pruner clock n
             end).
  assert (node_id n1 = node_id n /\ profile n1 = profile n /\
          connections n1 = connections n /\ game_state n1 = game_state n) as (A & B & C & D).
  { unfold n1. destruct e as [now host datagram|clock]; [|now repeat split].
    unfold listen. destruct datagram as [obj|]; [|now repeat split].
    destruct (negb _); [now repeat split|]. destruct (key_eqb _ _); [now repeat split|].
    destruct (h_tcp_port obj); now repeat split. }
  destruct (IH n1) as (A' & B' & C' & D'). repeat split; congruence.
Qed.

Lemma listen_keeps_self_out now host datagram n :
  dict_get (Some (node_id n)) (peers n) = None ->
  dict_get (Some (node_id n)) (peers (listen now host datagram n)) = None.
Proof.
  intros G. unfold listen. destruct datagram as [obj|]; [|assumption].
  destruct (negb _); [assumption|].
  destruct (key_eqb (h_id obj) (Some (node_id n))) eqn:E; [assumption|].
  destruct (h_tcp_port obj); [|assumption]. simpl.
  apply (key_eqb_neq (h_id obj) (Some (node_id n))) in E.
  now rewrite dict_get_set_ne.
Qed.

(** X13. The listener drops a datagram that is not a JSON object, whose
    type is not "hello", that carries the node's own id, or whose port
    is missing or not a number: the node is unchanged. Hence a node
    never lists itself as a peer, whatever it hears and however often
    the pruner runs. *)
Theorem listener_drops (n : ClientNode) :
  (forall now host, listen now host None n = n) /\
  (forall now host obj,
      h_type obj <> Some "hello" \/ h_id obj = Some (node_id n) \/ h_tcp_port obj = None ->
      listen now host (Some obj) n = n) /\
  (dict_get (Some (node_id n)) (peers n) = None ->
   forall events,
     dict_get (Some (node_id n)) (peers (discovery events n)) = None).
Proof.
  split; [reflexivity|]. split.
  - intros now host obj D. unfold listen.
    destruct (key_eqb (h_type obj) (Some "hello")) eqn:T; [|reflexivity].
    apply (key_eqb_eq (h_type obj) (Some "hello")) in T. cbn [negb].
    destruct (key_eqb (h_id obj) (Some (node_id n))) eqn:I; [reflexivity|].
    apply (key_eqb_neq (h_id obj) (Some (node_id n))) in I.
    destruct D as [D|[D|D]]; [contradiction|contradiction|now rewrite D].
  - intros G events. revert n G.
    induction events as [|e rest IH]; intros n G; simpl; [assumption|].
    destruct e as [now host datagram|clock].
    + assert (node_id (listen now host datagram n) = node_id n) as E
          by apply (discovery_frame [Heard now host datagram] n).
      rewrite <- E. apply IH. rewrite E. now apply listen_keeps_self_out.
    + change (node_id n) with (node_id (pruner clock n)). apply IH.
      unfold pruner. simpl. now apply delete_all_None.
Qed.

(** A hears its own announcement and a datagram of another type. *)
Lemma listener_drops_witness :
  listen 5 "10.0.0.1"
    (Some {| h_type := Some "hello"; h_id := Some "A"; h_name := Some "Ada";
             h_tcp_port := Some 40000%Z |}) Scenario.node_a
  = Scenario.node_a /\
  dict_get (Some "A")
    (peers (discovery [Heard 5 "10.0.0.2"
                         (Some {| h_type := Some "hello"; h_id := Some "B";
                                  h_name := None; h_tcp_port := Some 40001%Z |});
                       Swept (fun _ => 6)] Scenario.node_a)) = None.
Proof.
  destruct (listener_drops Scenario.node_a) as (_ & D & S). split.
  - apply D. right. now left.
  - now apply S.
Defined.

Lemma listener_upserts_aux now host obj port n :
  h_type obj = Some "hello" -> h_id obj <> Some (node_id n) ->
  h_tcp_port obj = Some port ->
  dict_get (h_id obj) (peers (listen now host (Some obj) n))
  = Some {| peer_id := h_id obj;
            peer_name := match h_name obj with Some x => x | None => "?" end;
            peer_host := host; peer_port := port; peer_last_seen := now |} /\
  (forall k, k <> h_id obj ->
             dict_get k (peers (listen now host (Some obj) n)) = dict_get k (peers n)).
Proof.
  intros T I P. unfold listen. rewrite T, P.
  apply (key_eqb_neq (h_id obj) (Some (node_id n))) in I.
  rewrite key_eqb_refl, I. simpl.
  split; [apply dict_get_set_eq|].
  intros k N; apply dict_get_set_ne; congruence.
Qed.

(** X14. A hello datagram from another id with a port is recorded under
    that id (under [None] when the datagram has no id) with the name
    given ("?" when none is), the sender's host, the port and
    [last_seen = now]; an earlier record of the id is replaced, so the
    table has one record per id; the other records, the connections,
    the game state and the profile are untouched. *)
Theorem listener_upserts (now : Q) (host : string) (obj : Hello) (port : Z)
        (n : ClientNode) :
  h_type obj = Some "hello" -> h_id obj <> Some (node_id n) ->
  h_tcp_port obj = Some port ->
  dict_get (h_id obj) (peers (listen now host (Some obj) n))
  = Some {| peer_id := h_id obj;
            peer_name := match h_name obj with Some x => x | None => "?" end;
            peer_host := host; peer_port := port; peer_last_seen := now |} /\
  (forall k, k <> h_id obj ->
             dict_get k (peers (listen now host (Some obj) n)) = dict_get k (peers n)) /\
  List.length (peers (listen now host (Some obj) n))
  = (if dict_mem (h_id obj) (peers n)
     then List.length (peers n) else S (List.length (peers n))) /\
  connections (listen now host (Some obj) n) = connections n /\
  game_state (listen now host (Some obj) n) = game_state n /\
  profile (listen now host (Some obj) n) = profile n /\
  node_id (listen now host (Some obj) n) = node_id n.
Proof.
  intros T I P. unfold listen. rewrite T, P.
  apply (key_eqb_neq (h_id obj) (Some (node_id n))) in I.
  rewrite key_eqb_refl, I. simpl.
  split; [apply dict_get_set_eq|].
  split; [intros k N; apply dict_get_set_ne; congruence|].
  split; [apply dict_set_length|]. now repeat split.
Qed.

(** B is heard twice: one record, with the later time. A datagram
    without id is recorded under [None]. *)
Lemma listener_upserts_witness :
  peers (listen 57 "10.0.0.2"
           (Some {| h_type := Some "hello"; h_id := Some "B"; h_name := Some "Bob";
                    h_tcp_port := Some 40001%Z |}) Scenario.node_a_knows_b)
  = [(Some "B", {| peer_id := Some "B"; peer_name := "Bob"; peer_host := "10.0.0.2";
                   peer_port := 40001; peer_last_seen := 57 |})] /\
  dict_mem None
    (peers (listen 57 "10.0.0.3"
              (Some {| h_type := Some "hello"; h_id := None; h_name := None;
                       h_tcp_port := Some 1%Z |}) Scenario.node_a)) = true.
Proof.
  split; [reflexivity|].
  destruct (@listener_upserts 57 "10.0.0.3"
              {| h_type := Some "hello"; h_id := None; h_name := None;
                 h_tcp_port := Some 1%Z |} 1 Scenario.node_a eq_refl) as (G & _).
  - discriminate.
  - reflexivity.
  - unfold dict_mem. cbn [h_id] in G. now rewrite G.
Defined.

(** X15. An announcement renews a record whatever its age: after a
    hello heard at time [t], the record survives every sweep all of
    whose clock readings are within [DISCOVERY_TIMEOUT] of [t], with
    [last_seen = t]. *)
Theorem announcement_renews (t : Q) (host : string) (obj : Hello) (port : Z)
        (clocks : list (nat -> Q)) (n : ClientNode) :
  dict_wf (peers n) ->
  h_type obj = Some "hello" -> h_id obj <> Some (node_id n) ->
  h_tcp_port obj = Some port ->
  (forall c i, In c clocks -> c i - t <= DISCOVERY_TIMEOUT) ->
  exists p,
    dict_get (h_id obj) (peers (sweeps clocks (listen t host (Some obj) n))) = Some p /\
    peer_last_seen p = t /\ peer_host p = host /\ peer_port p = port.
Proof.
  intros W T I P Y.
  destruct (@listener_upserts_aux t host obj port n T I P) as [G _].
  exists {| peer_id := h_id obj;
            peer_name := match h_name obj with Some x => x | None => "?" end;
            peer_host := host; peer_port := port; peer_last_seen := t |}.
  split; [|now repeat split].
  apply sweeps_keep; [now apply listen_wf | exact G | exact Y].
Qed.

(** B was heard at 50 and again at 57: the sweeps at 59 to 65 keep it,
    though 65 is more than 8 seconds after 50. *)
Lemma announcement_renews_witness :
  dict_mem (Some "B")
    (peers (sweeps [fun _ => 59; fun _ => 61; fun _ => 63; fun _ => 65]
              (listen 57 "10.0.0.2"
                 (Some {| h_type := Some "hello"; h_id := Some "B"; h_name := Some "Bob";
                          h_tcp_port := Some 40001%Z |}) Scenario.node_a_knows_b)))
  = true.
Proof.
  destruct (@announcement_renews 57 "10.0.0.2"
              {| h_type := Some "hello"; h_id := Some "B"; h_name := Some "Bob";
                 h_tcp_port := Some 40001%Z |} 40001
              [fun _ => 59; fun _ => 61; fun _ => 63; fun _ => 65]
              Scenario.node_a_knows_b) as (p & G & _).
  - apply listen_wf. constructor.
  - reflexivity.
  - discriminate.
  - reflexivity.
  - intros c i [<-|[<-|[<-|[<-|[]]]]]; unfold DISCOVERY_TIMEOUT; lra.
  - unfold dict_mem. cbn [h_id] in G. now rewrite G.
Defined.

Lemma option_eq_dec_string (a b : option string) : {a = b} + {a <> b}.
Proof. decide equality. apply string_dec. Qed.

Lemma delete_all_only_deletes remove (ps : dict (option string) PeerRecord) k p :
  dict_wf ps -> dict_get k (delete_all remove ps) = Some p -> dict_get k ps = Some p.
Proof.
  intros W G. destruct (in_dec (fun a b => option_eq_dec_string a b) k remove) as [I|N].
  - rewrite delete_all_removed in G by assumption. discriminate.
  - now rewrite delete_all_other in G by assumption.
Qed.

(** X16. Discovery touches the peer table only: whatever is heard and
    however often the pruner runs, the connections recorded by
    handshakes, the game state, the profile and the id of the node stay
    as they are (a connection never expires). A sweep only deletes: a
    record found after it was there before, unchanged. *)
Theorem discovery_touches_peers_only (n : ClientNode) :
  (forall events,
      connections (discovery events n) = connections n /\
      game_state (discovery events n) = game_state n /\
      profile (discovery events n) = profile n /\
      node_id (discovery events n) = node_id n) /\
  (dict_wf (peers n) ->
   forall clock k p,
     dict_get k (peers (pruner clock n)) = Some p -> dict_get k (peers n) = Some p).
Proof.
  split.
  - intros events. destruct (discovery_frame events n) as (A & B & C & D).
    now repeat split.
  - intros W clock k p G. unfold pruner in G. simpl in G.
    eapply delete_all_only_deletes; eauto.
Qed.

(** A is connected to B; B's record is swept at time 60 and the
    connection stays. *)
Lemma discovery_touches_peers_only_witness :
  peers (discovery [Swept (fun _ => 60)]
           (set_connections [(Some "B", Scenario.profile_b)] Scenario.node_a_knows_b))
  = [] /\
  connections
    (discovery [Swept (fun _ => 60)]
       (set_connections [(Some "B", Scenario.profile_b)] Scenario.node_a_knows_b))
  = [(Some "B", Scenario.profile_b)].
Proof.
  destruct (discovery_touches_peers_only
              (set_connections [(Some "B", Scenario.profile_b)] Scenario.node_a_knows_b))
    as [F _].
  split; [reflexivity|]. apply (F [Swept (fun _ => 60)]).
Defined.
End Discovery.

(** ** Connection attempts *)

Section Attempts.
Import Client.







Lemma listen_connections now host datagram n :
  connections (listen now host datagram n) = connections n.
Proof.
  unfold listen. destruct datagram as [obj|]; [|reflexivity].
  destruct (negb _); [reflexivity|]. destruct (key_eqb _ _); [reflexivity|].
  now destruct (h_tcp_port obj).
Qed.

(** X19. The announcement a node broadcasts makes it a candidate for
    the nodes that hear it: a node with another id that is not yet
    connected to the sender finds the sender, with its name, the host
    the datagram came from, the port announced and [last_seen = now],
    among its candidates. A node that hears its own announcement
    ignores it. *)
Theorem announcement_makes_candidate (now : Q) (host : string) (tcp_port : Z)
        (hello : Hello) (a b : ClientNode) :
  Bridge.announcement tcp_port b = Some hello ->
  (node_id a <> node_id b ->
   dict_mem (Some (node_id b)) (connections a) = false ->
   exists name,
     Bridge.profile_name (profile b) = Some name /\
     In {| peer_id := Some (node_id b); peer_name := name; peer_host := host;
           peer_port := tcp_port; peer_last_seen := now |}
        (candidates (listen now host (Some hello) a))) /\
  listen now host (Some hello) b = b.
Proof.
  unfold Bridge.announcement.
  destruct (Bridge.profile_name (profile b)) as [name|] eqn:P; [|discriminate].
  intros [= <-]. split.
  - intros N M. exists name. split; [reflexivity|].
    assert (Some (node_id b) <> Some (node_id a)) as N' by congruence.
    destruct (@listener_upserts_aux now host
                {| h_type := Some "hello"; h_id := Some (node_id b);
                   h_name := Some name; h_tcp_port := Some tcp_port |}
                tcp_port a eq_refl N' eq_refl) as [G _].
    cbn [h_id h_name] in G.
    unfold candidates. apply filter_In. split.
    + apply In_dict_values. exists (Some (node_id b)). now apply dict_get_In.
    + cbn [peer_id].
      rewrite listen_connections. now rewrite M.
  - unfold listen. cbn [h_type h_id]. rewrite !key_eqb_refl. reflexivity.
Qed.

Lemma announcement_makes_candidate_witness :
  exists hello,
    Bridge.announcement 40001 (Main.new_node "B" "g0" [("name", AStr "Bob")]) = Some hello /\
    candidates (listen 50 "10.0.0.2" (Some hello) Scenario.node_a)
    = [{| peer_id := Some "B"; peer_name := "Bob"; peer_host := "10.0.0.2";
          peer_port := 40001; peer_last_seen := 50 |}].
Proof.
  eexists. split; [reflexivity|].
  destruct (@announcement_makes_candidate 50 "10.0.0.2" 40001 _ Scenario.node_a
              (Main.new_node "B" "g0" [("name", AStr "Bob")]) eq_refl) as [_ S].
  reflexivity.
Defined.
End Attempts.

(** ** Editing the sentence *)

Section Editing.
Import Client.

Lemma string_length_app (s t : string) :
  String.length (s ++ t) = (String.length s + String.length t)%nat.
Proof. induction s as [|c r IH]; simpl; [reflexivity|]. now rewrite IH. Qed.

Lemma substring_at_end (s t : string) :
  substring (String.length s) (String.length t) (s ++ t) = t.
Proof.
  induction s as [|c r IH]; simpl.
  - induction t as [|c r IH]; simpl; [reflexivity|]. now rewrite IH.
  - exact IH.
Qed.

Lemma endswith_app (s t : string) : PyStr.endswith (s ++ t) t = true.
Proof.
  unfold PyStr.endswith. rewrite string_length_app.
  replace (String.length s + String.length t - String.length t)%nat
    with (String.length s) by lia.
  rewrite substring_at_end, String.eqb_refl.
  apply andb_true_iff. split; [apply Nat.leb_le; lia | reflexivity].
Qed.

(** [add] of a word that is not blank by the holder. *)
Lemma add_and_end_edit_the_sentence_aux n reply word :
  holder_id (game_state (sync_state_from_server reply n)) = Some (node_id n) ->
  completed (game_state (sync_state_from_server reply n)) = false ->
  PyStr.blank word = false ->
  exists n1,
    add_word reply word n
    = (n1, [GetState; PostUpdateGame (node_id n) (game_state n1)], Added) /\
    seq (game_state n1) = (seq (game_state (sync_state_from_server reply n)) + 1)%Z /\
    holder_id (game_state n1) = Some (node_id n).
Proof.
  intros Hh Hc B.
  assert (node_id (sync_state_from_server reply n) = node_id n) as Eid
      by now destruct reply.
  unfold add_word. rewrite Eid, Hh, Hc.
  assert (Server.differs (Some (node_id n)) (Some (node_id n)) = false) as ->
      by now apply differs_false_iff.
  rewrite strip_truthy, B. cbn [negb].
  unfold push_game_state_to_server. cbn [set_game_state node_id game_state].
  rewrite Eid.
  match goal with |- exists n1, (?x, _, _) = _ /\ _ => exists x end.
  now repeat split.
Qed.

(** X20. When the holder in the local copy (for [add]: the copy just
    pulled) is this node and the sentence is not completed: [add] of a
    blank word pushes nothing and leaves the copy as pulled; [add] of
    any other word appends the word without its surrounding whitespace,
    after one space, or makes it the sentence when the sentence is
    empty; [end] trims the sentence and puts one full stop at its end
    unless it ends with one already, so that the sentence ends with a
    full stop, and marks it completed. Both add one to [seq], keep game
    id and holder, and push the new state. *)
Theorem add_and_end_edit_the_sentence (n : ClientNode) :
  (forall reply word,
      holder_id (game_state (sync_state_from_server reply n)) = Some (node_id n) ->
      completed (game_state (sync_state_from_server reply n)) = false ->
      (PyStr.blank word = true ->
       add_word reply word n = (sync_state_from_server reply n, [GetState], Empty)) /\
      (PyStr.blank word = false ->
       exists n1,
         add_word reply word n
         = (n1, [GetState; PostUpdateGame (node_id n) (game_state n1)], Added) /\
         sentence (game_state n1)
         = (match sentence (game_state (sync_state_from_server reply n)) with
            | EmptyString => PyStr.strip word
            | String _ _ =>
                sentence (game_state (sync_state_from_server reply n))
                ++ " " ++ PyStr.strip word
            end) /\
         seq (game_state n1)
         = (seq (game_state (sync_state_from_server reply n)) + 1)%Z /\
         game_id (game_state n1) = game_id (game_state (sync_state_from_server reply n)) /\
         holder_id (game_state n1) = Some (node_id n) /\
         completed (game_state n1) = false)) /\
  (holder_id (game_state n) = Some (node_id n) ->
   completed (game_state n) = false ->
   exists n1,
     end_sentence n = (n1, [PostUpdateGame (node_id n) (game_state n1)], Ended) /\
     sentence (game_state n1)
     = (if PyStr.endswith (PyStr.strip (sentence (game_state n))) "."
        then PyStr.strip (sentence (game_state n))
        else PyStr.strip (sentence (game_state n)) ++ ".") /\
     PyStr.endswith (sentence (game_state n1)) "." = true /\
     completed (game_state n1) = true /\
     seq (game_state n1) = (seq (game_state n) + 1)%Z /\
     game_id (game_state n1) = game_id (game_state n) /\
     holder_id (game_state n1) = Some (node_id n)).
Proof.
  split.
  - intros reply word Hh Hc.
    assert (node_id (sync_state_from_server reply n) = node_id n) as Eid
        by now destruct reply.
    unfold add_word. rewrite Eid, Hh, Hc.
    assert (Server.differs (Some (node_id n)) (Some (node_id n)) = false) as ->
        by now apply differs_false_iff.
    rewrite strip_truthy. split; intros B; rewrite B; cbn [negb]; [reflexivity|].
    unfold push_game_state_to_server. cbn [set_game_state node_id game_state].
    rewrite Eid.
    match goal with |- exists n1, (?x, _, _) = _ /\ _ => exists x end.
    split; [reflexivity|]. cbn [game_state set_game_state sentence seq
                                 game_id holder_id completed].
    split; [|now repeat split].
    now destruct (sentence (game_state (sync_state_from_server reply n))).
  - intros Hh Hc. unfold end_sentence. rewrite Hh, Hc.
    assert (Server.differs (Some (node_id n)) (Some (node_id n)) = false) as ->
        by now apply differs_false_iff.
    match goal with |- exists n1, (?x, _, _) = _ /\ _ => exists x end.
    split; [reflexivity|].
    cbn [game_state set_game_state sentence seq game_id holder_id completed].
    split; [now destruct (PyStr.endswith _ _)|].
    split; [|now repeat split].
    destruct (PyStr.endswith (PyStr.strip (sentence (game_state n))) ".") eqn:E;
      cbn [negb]; [exact E | apply endswith_app].
Qed.

(** A holds "Once": adding " upon " gives "Once upon", ending gives
    "Once upon." *)
Lemma add_and_end_edit_the_sentence_witness :
  (exists n1,
      add_word None " upon " (set_game_state (Scenario.game 1 "Once" (Some "A") false)
                                             Scenario.node_a)
      = (n1, [GetState; PostUpdateGame "A" (game_state n1)], Added) /\
      sentence (game_state n1) = "Once upon") /\
  (exists n1,
      end_sentence (set_game_state (Scenario.game 2 "Once upon " (Some "A") false)
                                   Scenario.node_a)
      = (n1, [PostUpdateGame "A" (game_state n1)], Ended) /\
      sentence (game_state n1) = "Once upon.").
Proof.
  split.
  - destruct (add_and_end_edit_the_sentence
                (set_game_state (Scenario.game 1 "Once" (Some "A") false) Scenario.node_a))
      as [A _].
    destruct (A None " upon " eq_refl eq_refl) as [_ A'].
    destruct (A' eq_refl) as (n1 & E & S & _).
    exists n1. split; [exact E|]. rewrite S. reflexivity.
  - destruct (add_and_end_edit_the_sentence
                (set_game_state (Scenario.game 2 "Once upon " (Some "A") false)
                                Scenario.node_a)) as [_ F].
    destruct (F eq_refl eq_refl) as (n1 & E & S & _).
    exists n1. split; [exact E|]. rewrite S. reflexivity.
Defined.

(** X21. Once a node has ended the sentence, its local copy is locked:
    another [end] changes nothing and pushes nothing, an [add] changes
    nothing and pushes nothing as long as the pull fails or returns that
    same state, and only [start] with a word that is not blank opens a
    new sentence, with a new game id, this node as holder and the
    completed flag cleared. *)
Theorem ended_sentence_is_locked (n n1 : ClientNode) (calls : list Call) :
  end_sentence n = (n1, calls, Ended) ->
  completed (game_state n1) = true /\
  end_sentence n1 = (n1, [], AlreadyCompleted) /\
  (forall word, add_word None word n1 = (n1, [GetState], SentenceCompleted)) /\
  (forall word,
      add_word (Some (game_state n1)) word n1 = (n1, [GetState], SentenceCompleted)) /\
  (forall uuid word,
      PyStr.blank word = false ->
      completed (game_state (fst (fst (start_sentence uuid word n1)))) = false /\
      holder_id (game_state (fst (fst (start_sentence uuid word n1)))) = Some (node_id n1) /\
      game_id (game_state (fst (fst (start_sentence uuid word n1)))) = uuid).
Proof.
  unfold end_sentence at 1.
  destruct (Server.differs (holder_id (game_state n)) (Some (node_id n))) eqn:D;
    [discriminate|].
  destruct (completed (game_state n)); [discriminate|].
  apply differs_false_iff in D. intros [= <- _].
  assert (forall m, holder_id (game_state m) = Some (node_id m) ->
                    completed (game_state m) = true ->
                    end_sentence m = (m, [], AlreadyCompleted) /\
                    (forall word reply,
                        sync_state_from_server reply m = m ->
                        add_word reply word m = (m, [GetState], SentenceCompleted))) as L.
  { intros m Hh Hc. split.
    - unfold end_sentence. rewrite Hh, Hc.
      assert (Server.differs (Some (node_id m)) (Some (node_id m)) = false) as ->
          by now apply differs_false_iff.
      reflexivity.
    - intros word reply S. unfold add_word. rewrite S, Hh, Hc.
      assert (Server.differs (Some (node_id m)) (Some (node_id m)) = false) as ->
          by now apply differs_false_iff.
      reflexivity. }
  match goal with |- completed (game_state ?m) = true /\ _ =>
    destruct (L m D eq_refl) as [E A] end.
  split; [reflexivity|]. split; [exact E|]. split; [|split].
  - intros word. now apply A.
  - intros word. now apply A.
  - intros uuid word B. rewrite (@start_sentence_applies uuid word _ B).
    now repeat split.
Qed.

Lemma ended_sentence_is_locked_witness :
  exists n1,
    end_sentence (set_game_state (Scenario.game 2 "Once upon" (Some "A") false)
                                 Scenario.node_a) = (n1, [PostUpdateGame "A" (game_state n1)], Ended) /\
    end_sentence n1 = (n1, [], AlreadyCompleted).
Proof.
  eexists. split; [reflexivity|].
  apply (@ended_sentence_is_locked
           (set_game_state (Scenario.game 2 "Once upon" (Some "A") false) Scenario.node_a)
           _ _ eq_refl).
Defined.
End Editing.

(** ** A node and the server *)

Section Together.
Import Client.

(** What the three actions push names the node itself as holder. *)
Lemma push_names_self n n' calls said id g :
  (exists uuid word, start_sentence uuid word n = (n', calls, said)) \/
  (exists reply word, add_word reply word n = (n', calls, said)) \/
  end_sentence n = (n', calls, said) ->
  In (PostUpdateGame id g) calls ->
  id = node_id n /\ g = game_state n' /\ holder_id g = Some id.
Proof.
  intros [(uuid & word & S)|[(reply & word & S)|S]] I.
  - destruct (@start_sentence_push _ _ _ _ _ _ _ _ S I) as (-> & -> & _).
    split; [reflexivity|]. split; [reflexivity|].
    unfold start_sentence in S.
    destruct (negb (PyStr.truthy (PyStr.strip word))); [now inversion S; subst|].
    now inversion S.
  - destruct (@add_word_push _ _ _ _ _ _ _ _ S I) as (-> & -> & _).
    split; [reflexivity|]. split; [reflexivity|].
    unfold add_word in S.
    assert (node_id (sync_state_from_server reply n) = node_id n) as Eid
        by now destruct reply.
    rewrite Eid in S.
    destruct (Server.differs _ _) eqn:D; [inversion S; subst; destruct I as [[=]|[]]|].
    apply differs_false_iff in D.
    destruct (completed _); [inversion S; subst; destruct I as [[=]|[]]|].
    destruct (negb _); [inversion S; subst; destruct I as [[=]|[]]|].
    now inversion S.
  - destruct (@end_sentence_push _ _ _ _ _ _ S I) as (-> & -> & _).
    split; [reflexivity|]. split; [reflexivity|].
    unfold end_sentence in S.
    destruct (Server.differs _ _) eqn:D; [inversion S; subst; destruct I|].
    apply differs_false_iff in D.
    destruct (completed _); [inversion S; subst; destruct I|].
    now inversion S.
Qed.

(** X22. Every state a node with a non-empty id pushes, from [start],
    [add] or [end], is accepted by the server, whatever the server's own
    state and whether or not the node is registered: after the push the
    server's game state is the node's local one, a snapshot of it has
    been broadcast, and the participants are as before. *)
Theorem pushes_are_accepted (n n' : ClientNode) (calls : list Call) (said : Said)
        (id : string) (g : GameState) (s : Server.State) :
  node_id n <> "" ->
  (exists uuid word, start_sentence uuid word n = (n', calls, said)) \/
  (exists reply word, add_word reply word n = (n', calls, said)) \/
  end_sentence n = (n', calls, said) ->
  In (PostUpdateGame id g) calls ->
  snd (Server.update_game (update_game_request id g) s)
  = {| Server.status := 200; Server.body := Server.JOk |} /\
  Server.game_state (fst (Server.update_game (update_game_request id g) s))
  = game_state n' /\
  Server.game_state (System.deliver calls s) = game_state n' /\
  Server.participants (System.deliver calls s) = Server.participants s /\
  Server.broadcasts (System.deliver calls s)
  = (Server.broadcasts s ++ [game_state n'])%list.
Proof.
  intros Hid A I.
  destruct (@push_names_self n n' calls said id g A I) as (-> & -> & Hh).
  assert (Server.update_game (update_game_request (node_id n) (game_state n')) s
          = (Server.broadcast_state (Server.set_game_state (game_state n') s),
             Server.jsonify Server.JOk)) as U.
  { unfold Server.update_game, update_game_request.
    cbn [Server.ug_id Server.ug_game_state]. rewrite (present_Some Hid).
    assert (doc_get_holder_id (doc_of (game_state n')) = Some (node_id n)) as H'
        by exact Hh.
    rewrite (doc_holder_not_empty _ H'). unfold Server.differs.
    rewrite H', key_eqb_refl. cbn [negb]. now rewrite dict_update_doc_of. }
  assert (calls = [PostUpdateGame (node_id n) (game_state n')] \/
          calls = [GetState; PostUpdateGame (node_id n) (game_state n')]) as C.
  { destruct A as [(uuid & word & S)|[(reply & word & S)|S]].
    - unfold start_sentence in S.
      destruct (negb _); inversion S; subst; [destruct I|]. now left.
    - unfold add_word in S.
      destruct (Server.differs _ _); [inversion S; subst; destruct I as [[=]|[]]|].
      destruct (completed _); [inversion S; subst; destruct I as [[=]|[]]|].
      destruct (negb _); inversion S; subst; [destruct I as [[=]|[]]|].
      right. unfold push_game_state_to_server. f_equal. f_equal.
      assert (node_id (sync_state_from_server reply n) = node_id n) as Eid
          by now destruct reply.
      cbn [node_id set_game_state]. now rewrite Eid.
    - unfold end_sentence in S.
      destruct (Server.differs _ _); [inversion S; subst; destruct I|].
      destruct (completed _); inversion S; subst; [destruct I|]. now left. }
  rewrite U. split; [reflexivity|]. split; [reflexivity|].
  destruct C as [-> | ->]; unfold System.deliver; cbn [fold_left]; rewrite U;
    now repeat split.
Qed.

(** A, which is not registered, starts a sentence: the server has it. *)
Lemma pushes_are_accepted_witness :
  Server.game_state
    (System.deliver [PostUpdateGame "A" Scenario.started] (Server.initial "g0"))
  = Scenario.started.
Proof.
  destruct (@pushes_are_accepted Scenario.node_a
              (set_game_state Scenario.started Scenario.node_a)
              [PostUpdateGame "A" Scenario.started] Started "A" Scenario.started
              (Server.initial "g0")) as (_ & _ & D & _).
  - discriminate.
  - left. exists "g1", "Hello". reflexivity.
  - now left.
  - exact D.
Defined.

(** A state that names its sender as holder is accepted. *)
Lemma own_push_accepted (id : string) (g : GameState) (s : Server.State) :
  id <> "" -> holder_id g = Some id ->
  Server.update_game (update_game_request id g) s
  = (Server.broadcast_state (Server.set_game_state g s), Server.jsonify Server.JOk).
Proof.
  intros Hid Hh. unfold Server.update_game, update_game_request.
  cbn [Server.ug_id Server.ug_game_state]. rewrite (present_Some Hid).
  assert (doc_get_holder_id (doc_of g) = Some id) as H' by exact Hh.
  rewrite (doc_holder_not_empty _ H'). unfold Server.differs.
  rewrite H', key_eqb_refl. cbn [negb]. now rewrite dict_update_doc_of.
Qed.

(** X23. After an accepted pass the server's state names the new
    holder. An [add] of any other node whose pull is answered with that
    state finds another holder, keeps the pulled state and pushes
    nothing; the new holder's [add] of a word that is not blank, on a
    sentence that is not completed, goes through: the word is appended
    and the new state pushed. [end] is not held back by the pass: it
    never pulls, and is refused as not the node's turn exactly when the
    node's local copy names another holder. A node whose local copy
    still names it as holder of an open sentence (the old holder that
    has not pulled since the pass) ends the sentence, and when its id is
    not empty the server accepts the push: the server's state is then
    that node's, completed and with that node as holder. *)
Theorem after_pass_only_holder_adds (now : Q) (r : nat) (data : Server.PassReq)
        (s s1 : Server.State) (chosen : string) :
  Server.do_pass now r data s = (s1, Server.jsonify (Server.JOkNewHolder chosen)) ->
  holder_id (Server.game_state s1) = Some chosen /\
  (forall n word,
      node_id n <> chosen ->
      add_word (Some (Server.game_state s1)) word n
      = (set_game_state (Server.game_state s1) n, [GetState], NotYourTurn)) /\
  (forall n word,
      node_id n = chosen -> completed (Server.game_state s) = false ->
      PyStr.blank word = false ->
      exists n1,
        add_word (Some (Server.game_state s1)) word n
        = (n1, [GetState; PostUpdateGame chosen (game_state n1)], Added) /\
        seq (game_state n1) = (seq (Server.game_state s) + 2)%Z /\
        holder_id (game_state n1) = Some chosen) /\
  (forall n,
      snd (end_sentence n) = NotYourTurn <->
      holder_id (game_state n) <> Some (node_id n)) /\
  (forall n,
      node_id n <> "" ->
      holder_id (game_state n) = Some (node_id n) ->
      completed (game_state n) = false ->
      exists n1,
        end_sentence n = (n1, [PostUpdateGame (node_id n) (game_state n1)], Ended) /\
        Server.game_state (System.deliver [PostUpdateGame (node_id n) (game_state n1)] s1)
        = game_state n1 /\
        holder_id (game_state n1) = Some (node_id n) /\
        completed (game_state n1) = true).
Proof.
  intros D. apply do_pass_accepted in D. subst s1.
  cbn [Server.hand_over fst Server.broadcast_state Server.set_game_state
       Server.game_state].
  split; [reflexivity|]. split; [|split; [|split]].
  - intros n word N.
    assert (Server.differs (Some chosen) (Some (node_id n)) = true) as X.
    { apply differs_true_iff. congruence. }
    unfold add_word. cbn [sync_state_from_server set_game_state game_state
                          holder_id node_id]. now rewrite X.
  - intros n word E Hc B. subst chosen.
    destruct (add_and_end_edit_the_sentence_aux n
                (Some {| game_id := game_id (Server.game_state s);
                         seq := seq (Server.game_state s) + 1;
                         sentence := sentence (Server.game_state s);
                         holder_id := Some (node_id n);
                         completed := completed (Server.game_state s) |})
                word eq_refl Hc B) as (n1 & A & Q & H).
    exists n1. split; [exact A|]. split; [|exact H].
    rewrite Q. cbn [sync_state_from_server set_game_state game_state seq]. lia.
  - intros n. unfold end_sentence.
    destruct (Server.differs (holder_id (game_state n)) (Some (node_id n))) eqn:X.
    + apply differs_true_iff in X. now split.
    + apply differs_false_iff in X.
      destruct (completed (game_state n)); simpl; split;
        solve [discriminate | intros N; now destruct N].
  - intros n Hid Hh Hc. unfold end_sentence.
    assert (Server.differs (holder_id (game_state n)) (Some (node_id n)) = false) as X
        by now apply differs_false_iff.
    rewrite X, Hc.
    match goal with |- exists n1, (?x, _, _) = _ /\ _ => exists x end.
    split; [reflexivity|].
    unfold System.deliver. cbn [fold_left].
    rewrite own_push_accepted; [|exact Hid|exact Hh].
    now repeat split.
Qed.

(** A passes in the three-participant state and B gets the turn: A's
    add is refused, B's goes through. A, which has not pulled since,
    still ends the sentence, and the server takes A's state. *)
Lemma after_pass_only_holder_adds_witness :
  (exists n1,
      add_word (Some (Scenario.game 4 "Once upon" (Some "B") false)) "a"
               (Main.new_node "B" "g9" [])
      = (n1, [GetState; PostUpdateGame "B" (game_state n1)], Added)) /\
  add_word (Some (Scenario.game 4 "Once upon" (Some "B") false)) "a" Scenario.node_a
  = (set_game_state (Scenario.game 4 "Once upon" (Some "B") false) Scenario.node_a,
     [GetState], NotYourTurn) /\
  (exists n1,
      end_sentence (set_game_state Scenario.started Scenario.node_a)
      = (n1, [PostUpdateGame "A" (game_state n1)], Ended) /\
      holder_id (game_state n1) = Some "A").
Proof.
  destruct (@after_pass_only_holder_adds 120 0
              {| Server.pass_id := Some "A"; Server.pass_target_id := None |}
              Scenario.three _ "B" eq_refl) as (_ & No & Yes & _ & End).
  split; [|split].
  - destruct (Yes (Main.new_node "B" "g9" []) "a" eq_refl eq_refl eq_refl)
      as (n1 & A & _).
    exists n1. exact A.
  - apply No. discriminate.
  - destruct (End (set_game_state Scenario.started Scenario.node_a))
      as (n1 & E & _ & H & _); [discriminate|reflexivity|reflexivity|].
    exists n1. split; [exact E|exact H].
Defined.
End Together.


Section PassingOn.
Import Client.

(** X24. [pass_turn] of a node with a non-empty id. Without target and
    with another participant registered, the pass is accepted: the node
    prints the new holder, who is not the node itself, and replaces its
    local copy by the server's new state. When the node is the only
    participant, the server's answer has status 200 and a JSON array as
    body, reading it raises, and the node prints an error and keeps its
    local copy; the server is unchanged. When the target is not
    registered or is the node itself, the server answers 400, the node
    prints that the pass failed, and nothing changes. *)
Theorem pass_turn_outcomes (now : Q) (r : nat) (target : option string)
        (n : ClientNode) (s : Server.State) :
  node_id n <> "" ->
  (present target = None -> Server.other_parts (node_id n) s <> [] ->
   exists chosen s1,
     Session.pass_turn now r target (n, s)
     = ((set_game_state (Server.game_state s1) n, s1),
        Bridge.PassAccepted (Some chosen)) /\
     chosen <> node_id n /\
     holder_id (Server.game_state s1) = Some chosen /\
     seq (Server.game_state s1) = (seq (Server.game_state s) + 1)%Z) /\
  (Server.other_parts (node_id n) s = [] ->
   Session.pass_turn now r target (n, s) = ((n, s), Bridge.PassError)) /\
  (forall t,
      present target = Some t -> Server.other_parts (node_id n) s <> [] ->
      dict_mem t (Server.participants s) = false \/ t = node_id n ->
      Session.pass_turn now r target (n, s) = ((n, s), Bridge.PassFailed)).
Proof.
  intros Hid.
  assert (present (Some (node_id n)) = Some (node_id n)) as P by now apply present_Some.
  assert (forall o, present (present o) = present o) as PP.
  { intros [x|]; [|reflexivity]. simpl. destruct x; reflexivity. }
  unfold Session.pass_turn, Bridge.pass_request. cbn [fst snd].
  split; [|split].
  - intros Ht Ho.
    destruct (@do_pass_no_target now r
                {| Server.pass_id := Some (node_id n);
                   Server.pass_target_id := present target |} s (node_id n) P
                (eq_trans (PP target) Ht) Ho) as (p & _ & I & D).
    rewrite D. unfold Server.hand_over. cbn [Bridge.pass_turn Server.jsonify
      Server.status Server.body Z.eqb Pos.eqb sync_state_from_server].
    exists (Server.p_id p). eexists. split; [reflexivity|].
    split; [|now split].
    assert (In p (Server.other_parts (node_id n) s)) as O.
    { unfold Server.pool in I. destruct (Server.active now (node_id n) s) eqn:A;
        [assumption|]. rewrite <- A in I. now apply In_active in I. }
    now apply In_other_parts in O.
  - intros Ho.
    rewrite (@do_pass_nobody_else now r
               {| Server.pass_id := Some (node_id n);
                  Server.pass_target_id := present target |} s (node_id n) P Ho).
    reflexivity.
  - intros t Ht Ho Bad.
    unfold Server.do_pass. cbn [Server.pass_id Server.pass_target_id].
    rewrite P, (PP target), Ht.
    destruct (Server.other_parts (node_id n) s); [contradiction|].
    assert (dict_mem t (Server.participants s) && negb (t =? node_id n) = false) as ->.
    { destruct Bad as [M| ->]; [now rewrite M|].
      rewrite String.eqb_refl. apply andb_false_r. }
    reflexivity.
Qed.

(** A passes in the three-participant state; A passes alone; A names a
    stranger. *)
Lemma pass_turn_outcomes_witness :
  snd (Session.pass_turn 120 0 None (Scenario.node_a, Scenario.alone)) = Bridge.PassError /\
  Session.pass_turn 120 0 (Some "Z") (Scenario.node_a, Scenario.three)
  = ((Scenario.node_a, Scenario.three), Bridge.PassFailed) /\
  exists chosen s1,
    Session.pass_turn 120 0 None (Scenario.node_a, Scenario.three)
    = ((set_game_state (Server.game_state s1) Scenario.node_a, s1),
       Bridge.PassAccepted (Some chosen)).
Proof.
  assert (node_id Scenario.node_a <> "") as N by discriminate.
  destruct (@pass_turn_outcomes 120 0 None Scenario.node_a Scenario.alone N)
    as (_ & Alone & _).
  destruct (@pass_turn_outcomes 120 0 (Some "Z") Scenario.node_a Scenario.three N)
    as (_ & _ & Stranger).
  destruct (@pass_turn_outcomes 120 0 None Scenario.node_a Scenario.three N)
    as (Ok & _ & _).
  split; [|split].
  - now rewrite Alone.
  - apply (Stranger "Z"); [reflexivity | simpl; discriminate | now left].
  - destruct Ok as (chosen & s1 & E & _); [reflexivity | simpl; discriminate |].
    now exists chosen, s1.
Defined.


End PassingOn.

(** ** The profile typed at the start *)

Section Typed.
Import Client.






End Typed.

(** ** Subscribers *)

Section Subscribers.
Import Sse.

Lemma fold_put (q : nat) (snap : GameState) (l : list nat) (c : nat -> list GameState) :
  fold_left (fun c q' => put q' snap c) l c q
  = (c q ++ repeat snap (count_occ Nat.eq_dec l q))%list.
Proof.
  revert c. induction l as [|a l IH]; intros c; simpl.
  - now rewrite app_nil_r.
  - rewrite IH. unfold put.
    destruct (Nat.eq_dec a q) as [->|N].
    + rewrite Nat.eqb_refl. simpl. now rewrite <- app_assoc.
    + assert (Nat.eqb q a = false) as E by (apply Nat.eqb_neq; congruence).
      now rewrite E.
Qed.

Lemma count_remove_first_other (q q' : nat) (l : list nat) :
  q' <> q ->
  count_occ Nat.eq_dec (remove_first q' l) q = count_occ Nat.eq_dec l q.
Proof.
  intros N. induction l as [|a l IH]; simpl; [reflexivity|].
  destruct (Nat.eqb a q') eqn:E.
  - apply Nat.eqb_eq in E. subst a.
    destruct (Nat.eq_dec q' q); [contradiction|reflexivity].
  - simpl. destruct (Nat.eq_dec a q); now rewrite IH.
Qed.

Lemma count_remove_first_same (q : nat) (l : list nat) :
  count_occ Nat.eq_dec (remove_first q l) q = pred (count_occ Nat.eq_dec l q).
Proof.
  induction l as [|a l IH]; simpl; [reflexivity|].
  destruct (Nat.eqb a q) eqn:E.
  - apply Nat.eqb_eq in E. subst a.
    destruct (Nat.eq_dec q q); [reflexivity|contradiction].
  - apply Nat.eqb_neq in E. simpl.
    destruct (Nat.eq_dec a q); [contradiction|exact IH].
Qed.

Lemma remove_first_absent (q : nat) (l : list nat) :
  ~ In q l -> remove_first q l = l.
Proof.
  induction l as [|a l IH]; simpl; [reflexivity|].
  intros N. destruct (Nat.eqb a q) eqn:E.
  - apply Nat.eqb_eq in E. subst. exfalso. apply N. now left.
  - rewrite IH; [reflexivity|]. intros I. apply N. now right.
Qed.

(** A queue that stays registered once: what was taken from it and
    what waits on it are what it held and what was delivered. *)
Lemma content_run (q : nat) (events : list Event) (st : Queues) :
  spares q events = true ->
  count_occ Nat.eq_dec (sse_queues st) q = 1%nat ->
  count_occ Nat.eq_dec (sse_queues (run events st)) q = 1%nat /\
  (received q events st ++ content (run events st) q
   = content st q ++ delivered q events)%list.
Proof.
  revert st. induction events as [|e rest IH]; intros st S C.
  - simpl. now rewrite app_nil_r.
  - unfold run. cbn [fold_left]. fold (run rest (step st e)).
    cbn [received].
    destruct e as [q'|q' g|q'|snap|q']; cbn [spares] in S; cbn [delivered step app].
    + apply andb_true_iff in S as [S1 S2].
      apply negb_true_iff, Nat.eqb_neq in S1.
      apply (IH (append_queue q' st) S2).
      unfold append_queue. cbn [sse_queues].
      rewrite count_occ_app. simpl.
      destruct (Nat.eq_dec q' q); [contradiction|]. now rewrite C.
    + destruct (IH (put_first q' g st) S C) as [C1 E]. split; [exact C1|].
      rewrite E. unfold put_first, put. cbn [content].
      rewrite (Nat.eqb_sym q q').
      destruct (Nat.eqb q' q); [now rewrite <- app_assoc|reflexivity].
    + apply andb_true_iff in S as [S1 S2].
      apply negb_true_iff, Nat.eqb_neq in S1.
      apply (IH (unregister_sse q' st) S2).
      unfold unregister_sse. cbn [sse_queues].
      now rewrite count_remove_first_other.
    + destruct (IH (broadcast_state snap st) S C) as [C1 E]. split; [exact C1|].
      rewrite E. unfold broadcast_state. cbn [content].
      rewrite fold_put, C. simpl. now rewrite <- app_assoc.
    + assert (sse_queues (snd (get q' st)) = sse_queues st) as Q.
      { unfold get. now destruct (content st q'). }
      rewrite <- Q in C.
      destruct (IH (snd (get q' st)) S C) as [C1 E]. split; [exact C1|].
      destruct (Nat.eqb q' q) eqn:X.
      * apply Nat.eqb_eq in X. subst q'. revert E. unfold get.
        destruct (content st q) as [|x l] eqn:G; cbn [fst snd content app].
        -- now rewrite G.
        -- rewrite Nat.eqb_refl. intros E. now rewrite E.
      * cbn [app]. rewrite E. f_equal. unfold get.
        destruct (content st q') as [|x l]; cbn [snd content]; [reflexivity|].
        rewrite (Nat.eqb_sym q q'). now rewrite X.
Qed.

Lemma delivered_snapshots (q : nat) (events : list Event) :
  existsb (puts_first q) events = false -> delivered q events = snapshots events.
Proof.
  induction events as [|e rest IH]; simpl; [reflexivity|].
  intros X. apply orb_false_iff in X as [X1 X2].
  destruct e as [q'|q' g|q'|snap|q']; simpl in *; try (now apply IH).
  - rewrite X1. now apply IH.
  - now rewrite IH.
Qed.

(** X27. A display subscribes with a new, empty queue: the queue is
    appended to the list and, in a second step outside the lock, a copy
    of the game state is put on it. From the append on, as long as the
    queue is not unregistered, what its generator has taken followed by
    what still waits on the queue is every snapshot broadcast since,
    once each and in order, whoever else subscribes, takes or leaves in
    between, with the first snapshot at the place where its put fell
    among the broadcasts: broadcasts that come between the two steps
    reach the display before it. When nothing comes between the two
    steps the first snapshot is the first the display gets. Taking from
    a queue returns its oldest snapshot, leaves the rest and touches no
    other queue; on an empty queue it returns nothing and changes
    nothing. Unregistering a queue that is not in the list changes
    nothing, and a broadcast after the queue is unregistered puts
    nothing on it. *)
Theorem subscriber_receives_in_order (q : nat) (st : Queues) :
  ~ In q (sse_queues st) -> content st q = [] ->
  (forall events,
      spares q events = true ->
      (received q events (append_queue q st)
       ++ content (run events (append_queue q st)) q)%list
      = delivered q events) /\
  (forall g events,
      spares q events = true -> existsb (puts_first q) events = false ->
      (received q events (register_sse q g st)
       ++ content (run events (register_sse q g st)) q)%list
      = g :: snapshots events) /\
  (forall st' : Queues,
      match content st' q with
      | [] => get q st' = (None, st')
      | x :: rest =>
          fst (get q st') = Some x /\
          content (snd (get q st')) q = rest /\
          forall q', q' <> q -> content (snd (get q st')) q' = content st' q'
      end) /\
  unregister_sse q st = st /\
  (forall events snap,
      spares q events = true ->
      content (broadcast_state snap (unregister_sse q (run events (append_queue q st)))) q
      = content (run events (append_queue q st)) q).
Proof.
  intros N E.
  assert (count_occ Nat.eq_dec (sse_queues (append_queue q st)) q = 1%nat) as C.
  { unfold append_queue. cbn [sse_queues]. rewrite count_occ_app. simpl.
    destruct (Nat.eq_dec q q); [|contradiction].
    apply (count_occ_not_In Nat.eq_dec) in N. now rewrite N. }
  assert (forall events, spares q events = true ->
            (received q events (append_queue q st)
             ++ content (run events (append_queue q st)) q)%list
            = delivered q events) as One.
  { intros events S. destruct (@content_run q events (append_queue q st) S C) as [_ R].
    rewrite R. unfold append_queue. cbn [content]. now rewrite E. }
  split; [exact One|]. split; [|split; [|split]].
  - intros g events S P.
    change ((received q (PutFirst q g :: events) (append_queue q st)
             ++ content (run (PutFirst q g :: events) (append_queue q st)) q)%list
            = g :: snapshots events).
    rewrite (One (PutFirst q g :: events) S).
    cbn [delivered]. rewrite Nat.eqb_refl. now rewrite delivered_snapshots.
  - intros st'. unfold get. destruct (content st' q) as [|x rest] eqn:G;
      [reflexivity|].
    cbn [fst snd content]. split; [reflexivity|]. split; [now rewrite Nat.eqb_refl|].
    intros q' X. apply Nat.eqb_neq in X. now rewrite X.
  - unfold unregister_sse. rewrite (@remove_first_absent q (sse_queues st) N).
    now destruct st.
  - intros events snap S.
    destruct (@content_run q events (append_queue q st) S C) as [C1 _].
    unfold broadcast_state, unregister_sse. cbn [content sse_queues].
    rewrite fold_put, count_remove_first_same, C1. simpl.
    now rewrite app_nil_r.
Qed.

(** Display 7 subscribes while display 3 is there. A broadcast comes
    between the two steps of its registration and the display takes
    it; display 3 leaves and another broadcast follows. *)
Lemma subscriber_receives_in_order_witness :
  received 7
    [Broadcast Scenario.started; Take 7; PutFirst 7 Scenario.started; Unsubscribe 3;
     Broadcast (Scenario.game 2 "Hello there" (Some "A") false)]
    (append_queue 7 {| sse_queues := [3%nat]; content := fun _ => [] |})
  = [Scenario.started] /\
  content
    (run [Broadcast Scenario.started; Take 7; PutFirst 7 Scenario.started; Unsubscribe 3;
          Broadcast (Scenario.game 2 "Hello there" (Some "A") false)]
         (append_queue 7 {| sse_queues := [3%nat]; content := fun _ => [] |})) 7
  = [Scenario.started; Scenario.game 2 "Hello there" (Some "A") false].
Proof.
  destruct (@subscriber_receives_in_order 7
              {| sse_queues := [3%nat]; content := fun _ => [] |})
    as (R & _).
  - simpl. intros [E|[]]. discriminate.
  - reflexivity.
  - split; [reflexivity|].
    apply (app_inv_head [Scenario.started]).
    exact (R [Broadcast Scenario.started; Take 7; PutFirst 7 Scenario.started;
              Unsubscribe 3;
              Broadcast (Scenario.game 2 "Hello there" (Some "A") false)] eq_refl).
Defined.
End Subscribers.
